(** * fAIr-utilities: label encoding driver and inference dispatcher

    A shallow embedding of

    - [hot_fair_utilities/preprocessing/multimasks_from_polygons.py]
      (the resumable batch driver that turns polygon labels into sparse
      multimasks), and
    - [hot_fair_utilities/inference/predict.py]
      (the dispatcher that runs a loaded model over a directory of images),

    together with the properties the specification states about them.

    Python floats are IEEE-754 binary64 numbers; they are modelled by the
    standard library's [spec_float] at precision 53, so that a division such
    as [0.5 / 0.1] is rounded here exactly as the interpreter rounds it.
    Exceptions are values of an error monad; the file system, the printed
    output and the loop's local flag are threaded explicitly. *)

From Stdlib Require Import ZArith Lia.
From Stdlib Require Import Floats.SpecFloat.
From stdpp Require Import gmap strings list.

Open Scope Z_scope.

(** ** Python exceptions and fallible results *)

Record PyExc := mkExc { exc_class : string; exc_msg : string }.

#[global] Instance PyExc_eq_dec : EqDecision PyExc.
Proof. solve_decision. Defined.

Definition ValueError (msg : string) : PyExc := mkExc "ValueError" msg.
Definition ZeroDivisionError (msg : string) : PyExc := mkExc "ZeroDivisionError" msg.
Definition OverflowError (msg : string) : PyExc := mkExc "OverflowError" msg.
Definition RuntimeError (msg : string) : PyExc := mkExc "RuntimeError" msg.
Definition NotImplementedError : PyExc := mkExc "NotImplementedError" "".

Inductive Result (A : Type) : Type :=
| Ok (a : A)
| Raise (e : PyExc).
Arguments Ok {A} a.
Arguments Raise {A} e.

#[global] Instance Result_ret : MRet Result := fun A a => Ok a.
#[global] Instance Result_bind : MBind Result := fun A B f r =>
  match r with
  | Ok a => f a
  | Raise e => Raise e
  end.

Definition is_ok {A} (r : Result A) : bool :=
  match r with Ok _ => true | Raise _ => false end.

(** ** Python numbers *)

Module PyFloat.

(** binary64 *)
Definition prec : Z := 53.
Definition emax : Z := 1024.

Definition pyfloat := spec_float.

Definition fdiv : pyfloat -> pyfloat -> pyfloat := SFdiv prec emax.
Definition flt : pyfloat -> pyfloat -> bool := SFltb.
Definition fle : pyfloat -> pyfloat -> bool := SFleb.
Definition feq : pyfloat -> pyfloat -> bool := SFeqb.

(** [float(z)] for an integer [z], rounded to nearest even. *)
Definition of_Z (z : Z) : pyfloat := binary_normalize prec emax z 0 false.

(** The float a decimal literal [n / d] denotes ([d] a power of ten): the
    correctly rounded quotient of two exactly representable integers. *)
Definition lit (n d : Z) : pyfloat := fdiv (of_Z n) (of_Z d).

Definition is_zero (x : pyfloat) : bool :=
  match x with S754_zero _ => true | _ => false end.

Definition is_nan (x : pyfloat) : bool :=
  match x with S754_nan => true | _ => false end.

Definition is_inf (x : pyfloat) : bool :=
  match x with S754_infinity _ => true | _ => false end.

(** binary32, the format of a torch [float32] tensor. *)
Definition prec32 : Z := 24.
Definition emax32 : Z := 128.

(** A Python float as the [float32] scalar it becomes when it meets a
    [float32] tensor: rounded to nearest even in binary32 (a large one
    becomes an infinity), and shown again as the binary64 float of the same
    value, which is exact. *)
Definition to_float32 (x : pyfloat) : pyfloat :=
  match x with
  | S754_finite s m e =>
      match binary_round prec32 emax32 s m e with
      | S754_finite s' m' e' => binary_round prec emax s' m' e'
      | y => y
      end
  | _ => x
  end.

(** [x / y] on floats: Python raises on a zero divisor. *)
Definition truediv (x y : pyfloat) : Result pyfloat :=
  if is_zero y then Raise (ZeroDivisionError "float division by zero")
  else Ok (fdiv x y).

(** [int(x)]: truncation toward zero; NaN and the infinities raise. *)
Definition to_int (x : pyfloat) : Result Z :=
  match x with
  | S754_zero _ => Ok 0
  | S754_finite s m e =>
      Ok (cond_Zopp s
            (match e with
             | Zneg p => Z.quot (Zpos m) (2 ^ Zpos p)
             | _ => Zpos m * 2 ^ e
             end))
  | S754_infinity _ =>
      Raise (OverflowError "cannot convert float infinity to integer")
  | S754_nan => Raise (ValueError "cannot convert float NaN to integer")
  end.

(** [min((a, b))]: the builtin keeps the first item unless a later one is
    strictly smaller. *)
Definition min2 (r : pyfloat * pyfloat) : pyfloat :=
  if flt (snd r) (fst r) then snd r else fst r.

(** What it means for the integer [n] to be the float [q] cut off at the
    decimal point: [q] is finite, [n] has the sign of [q] (or is zero), and
    [|n| <= |q| < |n| + 1].  The inequalities are stated on the integer
    mantissa, scaled by the power of two of the exponent. *)
Definition truncates_to (q : pyfloat) (n : Z) : Prop :=
  match q with
  | S754_zero _ => n = 0
  | S754_finite s m e =>
      n = cond_Zopp s (Z.abs n) /\
      if Z.leb 0 e then Z.abs n = Zpos m * 2 ^ e
      else Z.abs n * 2 ^ (- e) <= Zpos m < (Z.abs n + 1) * 2 ^ (- e)
  | _ => False
  end.

(** The order of the floats that are not NaN, as the lexicographic order of
    a key: class (negative infinity, negative, zero, positive, positive
    infinity), then exponent, then mantissa, both negated for negative
    numbers. *)
Definition fkey (x : pyfloat) : option (Z * Z * Z) :=
  match x with
  | S754_nan => None
  | S754_infinity true => Some (-2, 0, 0)
  | S754_finite true m e => Some (-1, - e, - Zpos m)
  | S754_zero _ => Some (0, 0, 0)
  | S754_finite false m e => Some (1, e, Zpos m)
  | S754_infinity false => Some (2, 0, 0)
  end.

Definition key_lt (a b : Z * Z * Z) : Prop :=
  let '(a1, a2, a3) := a in
  let '(b1, b2, b3) := b in
  a1 < b1 \/ (a1 = b1 /\ (a2 < b2 \/ (a2 = b2 /\ a3 < b3))).

(** A positive float with a mantissa of at least [2 ^ 52] and an exponent of
    at least [-52], or the positive infinity: a float that is at least one. *)
Definition at_least_one (x : pyfloat) : Prop :=
  match x with
  | S754_infinity s => s = false
  | S754_finite s m e => s = false /\ 2 ^ 52 <= Zpos m /\ -52 <= e
  | _ => False
  end.

End PyFloat.
Import PyFloat.

(** A Python number is an [int] or a [float]; the width arguments of the
    driver are untyped and may be either. *)
Inductive PyNum :=
| PyInt (z : Z)
| PyFloat (x : pyfloat).

(** The float operand a number contributes to [/]. *)
Definition num_to_float (a : PyNum) : Result pyfloat :=
  match a with
  | PyFloat x => Ok x
  | PyInt z =>
      let x := PyFloat.of_Z z in
      if is_inf x then Raise (OverflowError "int too large to convert to float")
      else Ok x
  end.

(** [a / y] for a number [a] and a float [y]. *)
Definition num_truediv (a : PyNum) (y : pyfloat) : Result pyfloat :=
  x ← num_to_float a; truediv x y.

(** ** Unit reconciliation (lines 99-121 of the driver) *)

(** [int(width / min(reference_im.res))] *)
Definition to_pixels (width : PyNum) (res : pyfloat * pyfloat) : Result Z :=
  q ← num_truediv width (min2 res); to_int q.

(** The assignments of the two branches of [if crs_is_metric(gdf):], without
    the printing.  [metric] is the answer of [crs_is_metric(gdf)], [res] is
    [reference_im.res]; the result is [(meters, boundary_width,
    contact_spacing)]. *)
Definition reconcile_units (metric : bool) (res : pyfloat * pyfloat)
    (input_boundary_width input_contact_spacing : PyNum)
  : Result (bool * PyNum * PyNum) :=
  if metric then
    let meters := true in
    let boundary_width := input_boundary_width in
    let contact_spacing := input_contact_spacing in
    Ok (meters, boundary_width, contact_spacing)
  else
    let meters := false in
    boundary_width ← to_pixels input_boundary_width res;
    contact_spacing ← to_pixels input_contact_spacing res;
    Ok (meters, PyInt boundary_width, PyInt contact_spacing).

(** ** Rasters, vector labels and the file system *)

(** A value of a rasterio profile ([src.meta]). *)
Inductive MetaVal :=
| MInt (z : Z)
| MStr (s : string)
| MNone
| MOther (repr : string).

#[global] Instance MetaVal_eq_dec : EqDecision MetaVal.
Proof. solve_decision. Defined.

(** A three-dimensional array of small integers; only its shape and its
    entries matter here. *)
Record ndarray3 := mkArr {
  shape3 : nat * nat * nat;
  at3 : nat -> nat -> nat -> Z
}.

Definition Affine := list pyfloat.

(** An opened raster ([rasterio.DatasetReader]) as far as the driver looks
    at it. *)
Record Dataset := mkDataset {
  ds_shape : nat * nat;
  ds_transform : Affine;
  ds_crs : option string;
  ds_res : pyfloat * pyfloat;
  ds_meta : gmap string MetaVal
}.

Record Geometry := mkGeometry {
  geom_is_empty : bool;
  geom_wkt : string
}.

(** A GeoDataFrame: its geometry column (a missing geometry is [None]) and
    its CRS. *)
Record GeoDataFrame := mkGdf {
  gdf_geometry : list (option Geometry);
  gdf_crs : option string
}.

(** A raster file on disk. *)
Record RasterFile := mkRaster {
  rf_meta : gmap string MetaVal;
  rf_bands : ndarray3
}.

(** What the run shows and does, in order: the output directory is made,
    tqdm hands out the next triple, a line is printed, a mask is written. *)
Inductive Event :=
| EvMkdir (dir : string)
| EvTick
| EvPrint (label : string) (value : PyNum)
| EvWrite (path : string).

Definition is_print (ev : Event) : bool :=
  match ev with EvPrint _ _ => true | _ => false end.

Definition is_write (ev : Event) : bool :=
  match ev with EvWrite _ => true | _ => false end.

Definition is_tick (ev : Event) : bool :=
  match ev with EvTick => true | _ => false end.

(** The third-party calls of the driver (ramp, solaris, geopandas,
    rasterio).  Each one that can raise returns a [Result].
    [df_to_px_mask] is handed [out_file] and the reference image, and writes
    its one-hot raster there itself: besides its result it answers with what
    it has left at [out_file] ([None]: nothing).  [rio_create] is
    [rio.open(path, "w", **meta)]; it too answers with what it has left at
    the path, which it may have created or cut down also when it raises. *)
Record Externals := mkExternals {
  get_tq_chip_label_pairs : string -> string -> Result (list (string * string));
  construct_mask_filepath : string -> string -> string;
  rio_open : string -> Result Dataset;
  read_file : string -> Result GeoDataFrame;
  to_crs : GeoDataFrame -> option string -> Result GeoDataFrame;
  crs_is_metric : GeoDataFrame -> Result bool;
  explode : GeoDataFrame -> GeoDataFrame;
  df_to_px_mask :
    GeoDataFrame -> string -> nat * nat -> Dataset -> PyNum -> PyNum -> bool ->
    option RasterFile * Result ndarray3;
  rio_create : string -> gmap string MetaVal -> option RasterFile * Result unit
}.

(** Modelled from the spec: ramp's [multimask_to_sparse_multimask] is not
    among the sources.  Section 4.3 step 8 collapses the one-hot mask
    [(H, W, 3)] into one channel with priority footprint > boundary >
    contact > background, classes [1], [2], [3], [0]. *)
Definition multimask_to_sparse_multimask (onehot : ndarray3) : ndarray3 :=
  let '(h, w, _) := shape3 onehot in
  mkArr (h, w, 1%nat)
    (fun i j _ =>
       if 0 <? at3 onehot i j 0%nat then 1
       else if 0 <? at3 onehot i j 1%nat then 2
       else if 0 <? at3 onehot i j 2%nat then 3
       else 0).

(** Modelled from the spec: ramp's [to_channels_first] is not among the
    sources.  Section 4.3 step 9 reorders [(H, W, C)] to [(C, H, W)]. *)
Definition to_channels_first (a : ndarray3) : ndarray3 :=
  let '(h, w, c) := shape3 a in
  mkArr (c, h, w) (fun k i j => at3 a i j k).

(** ** The state the driver runs in *)

Record DriverState := mkState {
  files : gmap string RasterFile;
  trace : list Event;
  first_iteration : bool
}.

Definition M (A : Type) : Type := DriverState -> DriverState * Result A.

#[global] Instance M_ret : MRet M := fun A a st => (st, Ok a).
#[global] Instance M_bind : MBind M := fun A B f m st =>
  match m st with
  | (st', Ok a) => f a st'
  | (st', Raise e) => (st', Raise e)
  end.

Definition lift {A} (r : Result A) : M A := fun st => (st, r).

Definition emit (ev : Event) : M unit := fun st =>
  (mkState (files st) (trace st ++ [ev]) (first_iteration st), Ok tt).

(** [print(label, value)] *)
Definition print (label : string) (value : PyNum) : M unit :=
  emit (EvPrint label value).

Definition get_first : M bool := fun st => (st, Ok (first_iteration st)).

Definition set_first (b : bool) : M unit := fun st =>
  (mkState (files st) (trace st) b, Ok tt).

(** [Path(p).is_file()] *)
Definition is_file (p : string) : M bool := fun st =>
  (st, Ok (bool_decide (is_Some (files st !! p)))).

(** [dst.write(...)] into the file opened at [p]. *)
Definition write_file (p : string) (f : RasterFile) : M unit := fun st =>
  (mkState (<[p := f]> (files st)) (trace st ++ [EvWrite p]) (first_iteration st),
   Ok tt).

(** What a call given [out_file] has left there is on disk from then on. *)
Definition leave (out_file : string) (left : option RasterFile)
    (st : DriverState) : DriverState :=
  match left with
  | Some f => mkState (<[out_file := f]> (files st)) (trace st) (first_iteration st)
  | None => st
  end.

(** A call that writes to [out_file] on its own, whether it then returns or
    raises. *)
Definition with_out_file {A} (out_file : string)
    (answer : option RasterFile * Result A) : M A := fun st =>
  (leave out_file (fst answer) st, snd answer).

(** ** multimasks_from_polygons.py *)

Section Driver.

Context (ext : Externals).

Definition get_rasterio_shape_and_transform (image_path : string)
  : Result (nat * nat * Affine) :=
  rio_dset ← rio_open ext image_path;
  Ok (ds_shape rio_dset, ds_transform rio_dset).

(** [gdf[~gdf["geometry"].isna()]] *)
Definition drop_na (gdf : GeoDataFrame) : GeoDataFrame :=
  mkGdf (filter (fun g => is_Some g) (gdf_geometry gdf)) (gdf_crs gdf).

(** [gdf[~gdf.is_empty]]; a missing geometry is not empty. *)
Definition drop_empty (gdf : GeoDataFrame) : GeoDataFrame :=
  mkGdf
    (filter (fun g => from_option geom_is_empty false g = false) (gdf_geometry gdf))
    (gdf_crs gdf).

(** Lines 85-97: read the chip header and the labels, clean the labels,
    load the chip, reproject the labels when the CRSs differ. *)
Definition load_pair (json_path chip_path : string)
  : Result (nat * nat * GeoDataFrame * Dataset) :=
  '(mask_shape, mask_transform) ← get_rasterio_shape_and_transform chip_path;
  gdf ← read_file ext json_path;
  let gdf := drop_na gdf in
  let gdf := drop_empty gdf in
  reference_im ← rio_open ext chip_path;
  gdf ← (if decide (gdf_crs gdf ≠ ds_crs reference_im)
         then to_crs ext gdf (ds_crs reference_im)
         else Ok gdf);
  Ok (mask_shape, gdf, reference_im).

(** Lines 158-165: the profile the mask is written with. *)
Definition mask_meta (src_meta : gmap string MetaVal) (sparse_multi_mask : ndarray3)
  : gmap string MetaVal :=
  let meta := src_meta in
  let meta := <["count" := MInt (Z.of_nat (fst (fst (shape3 sparse_multi_mask))))]> meta in
  let meta := <["dtype" := MStr "uint8"]> meta in
  let meta := <["nodata" := MNone]> meta in
  meta.

(** The body of the loop, lines 78-165, for one
    [(json_path, chip_path, mask_path)].  [_check_rasterio_im_load] opens
    the chip like [rio.open] does.  [df_to_px_mask] is given the mask path
    as [out_file] and leaves its one-hot raster there; the write of line 165
    replaces it, and is the write the trace records as [EvWrite]. *)
Definition process_pair (input_contact_spacing input_boundary_width : PyNum)
    (t : string * string * string) : M unit :=
  let '(json_path, chip_path, mask_path) := t in
  done_before ← is_file mask_path;
  if done_before : bool then mret tt
  else
    '(mask_shape, gdf, reference_im) ← lift (load_pair json_path chip_path);
    metric ← lift (crs_is_metric ext gdf);
    units ←
      (if metric : bool then
         let meters := true in
         let boundary_width := input_boundary_width in
         let contact_spacing := input_contact_spacing in
         first ← get_first;
         _ ← (if first : bool then
                (_ ← print "Resolution (pixel width) in meter :"
                       (PyFloat (min2 (ds_res reference_im)));
                 _ ← print "Multimasks labels , Input boundary_width in meters :"
                       boundary_width;
                 _ ← print "Multimasks labels , Input contact_spacing in meters :"
                       contact_spacing;
                 set_first false) : M unit
              else mret tt);
         mret (meters, boundary_width, contact_spacing)
       else
         let meters := false in
         boundary_width ← lift (to_pixels input_boundary_width (ds_res reference_im));
         contact_spacing ← lift (to_pixels input_contact_spacing (ds_res reference_im));
         first ← get_first;
         _ ← (if first : bool then
                (_ ← print "Multimasks labels , Input boundary_width in pixel :"
                       (PyInt boundary_width);
                 _ ← print "Multimasks labels , Input contact_spacing in pixel :"
                       (PyInt contact_spacing);
                 set_first false) : M unit
              else mret tt);
         mret (meters, PyInt boundary_width, PyInt contact_spacing))
      : M (bool * PyNum * PyNum);
    let '(meters, boundary_width, contact_spacing) := units in
    let gdf_poly := explode ext gdf in
    onehot_multi_mask ←
      with_out_file mask_path
        (df_to_px_mask ext gdf_poly mask_path mask_shape
           reference_im boundary_width contact_spacing meters);
    let sparse_multi_mask := multimask_to_sparse_multimask onehot_multi_mask in
    let sparse_multi_mask := to_channels_first sparse_multi_mask in
    src ← lift (rio_open ext chip_path);
    let meta := mask_meta (ds_meta src) sparse_multi_mask in
    _ ← with_out_file mask_path (rio_create ext mask_path meta);
    write_file mask_path (mkRaster meta sparse_multi_mask).

(** The [for] over the tqdm-wrapped iterator: an exception leaves the loop. *)
Fixpoint for_each (input_contact_spacing input_boundary_width : PyNum)
    (triples : list (string * string * string)) : M unit :=
  match triples with
  | [] => mret tt
  | t :: rest =>
      _ ← emit EvTick;
      _ ← process_pair input_contact_spacing input_boundary_width t;
      for_each input_contact_spacing input_boundary_width rest
  end.

(** Line 63 transposes the pairs with a starred [zip] and unpacks the result
    into [chip_paths, label_paths]: the transpose of no pairs is empty and
    cannot be unpacked into two names. *)
Definition unzip_pairs (chip_label_pairs : list (string * string))
  : Result (list string * list string) :=
  match chip_label_pairs with
  | [] => Raise (ValueError "not enough values to unpack (expected 2, got 0)")
  | _ => Ok (map fst chip_label_pairs, map snd chip_label_pairs)
  end.

Definition zip3 {A B C} (xs : list A) (ys : list B) (zs : list C)
  : list (A * B * C) :=
  zip (zip xs ys) zs.

Definition multimasks_from_polygons
    (in_poly_dir in_chip_dir out_mask_dir : string)
    (input_contact_spacing input_boundary_width : PyNum) : M unit :=
  _ ← emit (EvMkdir out_mask_dir);
  chip_label_pairs ← lift (get_tq_chip_label_pairs ext in_chip_dir in_poly_dir);
  '(chip_paths, label_paths) ← lift (unzip_pairs chip_label_pairs);
  let mask_paths :=
    map (fun chip_path => construct_mask_filepath ext out_mask_dir chip_path)
      chip_paths in
  let json_chip_mask_zips := zip3 label_paths chip_paths mask_paths in
  _ ← set_first true;
  for_each input_contact_spacing input_boundary_width json_chip_mask_zips.

(** The steps of the body that come before the print, gathered: they read
    and compute but change nothing. *)
Definition prepare_pair (input_contact_spacing input_boundary_width : PyNum)
    (json_path chip_path : string)
  : Result (nat * nat * GeoDataFrame * Dataset * (bool * PyNum * PyNum)) :=
  '(mask_shape, gdf, reference_im) ← load_pair json_path chip_path;
  metric ← crs_is_metric ext gdf;
  units ← reconcile_units metric (ds_res reference_im)
            input_boundary_width input_contact_spacing;
  Ok (mask_shape, gdf, reference_im, units).

(** The call of lines 139-151 for a prepared pair: what it leaves at the
    mask path, and its result. *)
Definition rasterise_pair (mask_path : string)
    (p : nat * nat * GeoDataFrame * Dataset * (bool * PyNum * PyNum))
  : option RasterFile * Result ndarray3 :=
  let '(mask_shape, gdf, reference_im, units) := p in
  let '(meters, boundary_width, contact_spacing) := units in
  df_to_px_mask ext (explode ext gdf) mask_path mask_shape
    reference_im boundary_width contact_spacing meters.

(** The steps of lines 155-165 up to the write, gathered: the file line 165
    writes for a one-hot mask. *)
Definition finish_pair (chip_path mask_path : string) (onehot_multi_mask : ndarray3)
  : Result RasterFile :=
  let sparse_multi_mask :=
    to_channels_first (multimask_to_sparse_multimask onehot_multi_mask) in
  src ← rio_open ext chip_path;
  let meta := mask_meta (ds_meta src) sparse_multi_mask in
  _ ← snd (rio_create ext mask_path meta);
  Ok (mkRaster meta sparse_multi_mask).

(** The steps between the print and the write, gathered: the file line 165
    writes for a prepared pair. *)
Definition encode_pair (chip_path mask_path : string)
    (p : nat * nat * GeoDataFrame * Dataset * (bool * PyNum * PyNum))
  : Result RasterFile :=
  onehot_multi_mask ← snd (rasterise_pair mask_path p);
  finish_pair chip_path mask_path onehot_multi_mask.

(** What the calls that were given the mask path have left there by the end
    of these steps: what the opening for writing left, if it was reached
    and left something, and otherwise what the rasteriser left. *)
Definition left_at_mask (chip_path mask_path : string)
    (p : nat * nat * GeoDataFrame * Dataset * (bool * PyNum * PyNum))
  : option RasterFile :=
  let rasterised := rasterise_pair mask_path p in
  match snd rasterised with
  | Ok onehot_multi_mask =>
      let sparse_multi_mask :=
        to_channels_first (multimask_to_sparse_multimask onehot_multi_mask) in
      match rio_open ext chip_path with
      | Ok src =>
          match fst (rio_create ext mask_path
                       (mask_meta (ds_meta src) sparse_multi_mask)) with
          | Some g => Some g
          | None => fst rasterised
          end
      | Raise _ => fst rasterised
      end
  | Raise _ => fst rasterised
  end.

(** The triples the loop runs over, from the pairs of the resolver. *)
Definition triples_of (out_mask_dir : string) (pairs : list (string * string))
  : list (string * string * string) :=
  map (fun cl => (snd cl, fst cl, construct_mask_filepath ext out_mask_dir (fst cl)))
    pairs.

End Driver.

(** The defaults of the two width arguments: [0.75] and [0.5]. *)
Definition default_contact_spacing : PyNum := PyFloat (lit 75 100).
Definition default_boundary_width : PyNum := PyFloat (lit 5 10).

(** A run from a given output directory content. *)
Definition start (fs : gmap string RasterFile) : DriverState :=
  mkState fs [] true.

(** The lines printed under [if first_iteration:] in either branch, for the
    values [(meters, boundary_width, contact_spacing)] of that branch. *)
Definition report (res : pyfloat * pyfloat) (units : bool * PyNum * PyNum)
  : list Event :=
  let '(meters, boundary_width, contact_spacing) := units in
  if meters then
    [ EvPrint "Resolution (pixel width) in meter :" (PyFloat (min2 res));
      EvPrint "Multimasks labels , Input boundary_width in meters :" boundary_width;
      EvPrint "Multimasks labels , Input contact_spacing in meters :" contact_spacing ]
  else
    [ EvPrint "Multimasks labels , Input boundary_width in pixel :" boundary_width;
      EvPrint "Multimasks labels , Input contact_spacing in pixel :" contact_spacing ].

(** The state after the print-once block. *)
Definition after_print (res : pyfloat * pyfloat) (units : bool * PyNum * PyNum)
    (st : DriverState) : DriverState :=
  if first_iteration st
  then mkState (files st) (trace st ++ report res units) false
  else st.

(** The state after tqdm has handed out one more triple. *)
Definition after_tick (st : DriverState) : DriverState :=
  mkState (files st) (trace st ++ [EvTick]) (first_iteration st).

(** The state in which the loop starts: the output directory was made, the
    flag was set. *)
Definition at_loop_entry (out_mask_dir : string) (st : DriverState) : DriverState :=
  mkState (files st) (trace st ++ [EvMkdir out_mask_dir]) true.

(** What a trace printed, wrote and ticked. *)
Definition prints (tr : list Event) : list Event := List.filter is_print tr.
Definition writes (tr : list Event) : list Event := List.filter is_write tr.
Definition ticks (tr : list Event) : list Event := List.filter is_tick tr.

(** What the user sees of a run: the progress bar and the printed lines. *)
Definition visible (tr : list Event) : list Event :=
  List.filter (fun ev => is_tick ev || is_print ev) tr.

(** The mask path of a triple. *)
Definition mask_of (t : string * string * string) : string := snd t.

(** ** predict.py *)

Definition BATCH_SIZE : nat := 8.
Definition IMAGE_SIZE : nat := 256.

(** One streamed FastSAM result: [r.masks] is [None] when nothing was
    found, otherwise [r.masks.data] is a stack of instance masks, each a
    flat list of pixel values.  The tensor is a [float32] one; an entry is
    shown as the float of its value. *)
Record SamResult := mkSamResult {
  masks : option (list (list pyfloat))
}.

(** The loaded model, by the class [isinstance] recognises.  A keras model
    maps an image tensor to per-image, per-pixel class scores; a FastSAM
    model maps the image paths to a stream of results, each of which may
    raise when it is drawn. *)
Inductive Model :=
| KerasModel (model_predict : list Z -> Result (list (list (list pyfloat))))
| YOLOModel
| FastSAMModel (model_call : list string -> list (Result SamResult))
| OtherModel (class_name : string).

(** A printed line: fixed text (elapsed seconds are left out), or the line
    that reports the confidence threshold. *)
Inductive PLine :=
| PText (text : string)
| PThreshold (confidence : pyfloat).

(** The output directory (path to pixel values of a saved mask) and the
    lines printed. *)
Record PredictState := mkPState {
  pfiles : gmap string (list Z);
  pout : list PLine
}.

Definition P (A : Type) : Type := PredictState -> PredictState * Result A.

#[global] Instance P_ret : MRet P := fun A a st => (st, Ok a).
#[global] Instance P_bind : MBind P := fun A B f m st =>
  match m st with
  | (st', Ok a) => f a st'
  | (st', Raise e) => (st', Raise e)
  end.

Definition plift {A} (r : Result A) : P A := fun st => (st, r).

Definition pprint (line : PLine) : P unit := fun st =>
  (mkPState (pfiles st) (pout st ++ [line]), Ok tt).

(** The helpers of the package that are not among the sources
    ([initialize_model], [open_images], [georeference], [remove_files]) and
    the library calls whose answer depends on the disk ([glob]) or on path
    syntax ([Path(p).stem]).  [georeference] works on the output directory:
    it answers with the directory as it has left it and with its outcome,
    so that one that raises may have written some of its files. *)
Record PredictExternals := mkPExternals {
  initialize_model : string -> Result Model;
  glob : string -> list string;
  open_images : list string -> Result (list Z);
  path_stem : string -> string;
  georeference :
    string -> string -> gmap string (list Z) -> gmap string (list Z) * Result unit;
  remove_files : string -> gmap string (list Z) -> gmap string (list Z)
}.

(** Modelled from the spec: [save_mask] of [inference/utils.py] is not among
    the sources.  It is the mask writer of section 2: [save_mask(mask, path)]
    makes the mask the file at [path]. *)
Definition save_mask (mask : list Z) (path : string) : P unit := fun st =>
  (mkPState (<[path := mask]> (pfiles st)) (pout st), Ok tt).

(** [np.argmax] along one row: the first entry that is not [<=] the best so
    far replaces it, and a NaN ends the scan. *)
Fixpoint argmax_scan (best : pyfloat) (best_i i : nat) (row : list pyfloat) : nat :=
  match row with
  | [] => best_i
  | x :: row' =>
      if fle x best then argmax_scan best best_i (S i) row'
      else if is_nan x then i
      else argmax_scan x i (S i) row'
  end.

Definition argmax (row : list pyfloat) : Result nat :=
  match row with
  | [] => Raise (ValueError "attempt to get argmax of an empty sequence")
  | x :: row' => Ok (if is_nan x then 0%nat else argmax_scan x 0 1 row')
  end.

Fixpoint mapM {A B} (f : A -> Result B) (l : list A) : Result (list B) :=
  match l with
  | [] => Ok []
  | a :: l' => b ← f a; bs ← mapM f l'; Ok (b :: bs)
  end.

(** [np.argmax(preds, axis=-1)] *)
Definition argmax_last_axis (preds : list (list (list pyfloat)))
  : Result (list (list nat)) :=
  mapM (mapM argmax) preds.

(** One entry of [np.where(preds > confidence, 1, 0)] on the integer array
    of class indices: the index is compared as a float. *)
Definition where_index_gt (confidence : pyfloat) (k : nat) : Z :=
  if flt confidence (PyFloat.of_Z (Z.of_nat k)) then 1 else 0.

(** One entry of [torch.where(preds > confidence, 1, 0)]: the comparison
    is made in the [float32] of the tensor, so the confidence is rounded to
    it first. *)
Definition where_value_gt (confidence : pyfloat) (v : pyfloat) : Z :=
  if flt (to_float32 confidence) v then 1 else 0.

(** [images.reshape(-1, IMAGE_SIZE, IMAGE_SIZE, 3)] keeps the data and needs
    a whole number of images. *)
Definition reshape_images (images : list Z) : Result (list Z) :=
  if (length images mod (IMAGE_SIZE * IMAGE_SIZE * 3) =? 0)%nat then Ok images
  else Raise (ValueError "cannot reshape array").

(** [preds[idx]] *)
Definition index {A} (l : list A) (idx : nat) : Result A :=
  match l !! idx with
  | Some a => Ok a
  | None => Raise (mkExc "IndexError" "index out of bounds")
  end.

(** The larger of two tensor entries; a NaN wins. *)
Definition fmax (a b : pyfloat) : pyfloat :=
  if is_nan a then a
  else if is_nan b then b
  else if flt a b then b else a.

(** [r.masks.data.max(dim=0)[0]]: the entrywise maximum over the stack. *)
Definition max_dim0 (r : SamResult) : Result (list pyfloat) :=
  match masks r with
  | None => Raise (mkExc "AttributeError" "'NoneType' object has no attribute 'data'")
  | Some [] => Raise (mkExc "IndexError" "max(): Expected reduction dim 0 to have non-zero size")
  | Some (m :: ms) => Ok (foldl (zip_with fmax) m ms)
  end.

Section Predict.

Context (ext : PredictExternals).

Definition mask_png (prediction_path path : string) : string :=
  prediction_path +:+ "/" +:+ path_stem ext path +:+ ".png".

(** Lines 69-73: one mask per path of the batch. *)
Fixpoint save_batch (prediction_path : string) (preds : list (list Z))
    (idx : nat) (image_batch : list string) : P unit :=
  match image_batch with
  | [] => mret tt
  | path :: rest =>
      mask ← plift (index preds idx);
      _ ← save_mask mask (mask_png prediction_path path);
      save_batch prediction_path preds (S idx) rest
  end.

(** Lines 58-73: one pass of the batched loop. *)
Definition keras_batch (model_predict : list Z -> Result (list (list (list pyfloat))))
    (image_paths : list string) (prediction_path : string)
    (confidence : pyfloat) (i : nat) : P unit :=
  let image_batch := take BATCH_SIZE (drop (BATCH_SIZE * i) image_paths) in
  images ← plift (open_images ext image_batch);
  images ← plift (reshape_images images);
  preds ← plift (model_predict images);
  preds ← plift (argmax_last_axis preds);
  let preds := map (map (where_index_gt confidence)) preds in
  save_batch prediction_path preds 0 image_batch.

Fixpoint for_range {A} (body : A -> P unit) (items : list A) : P unit :=
  match items with
  | [] => mret tt
  | a :: rest => _ ← body a; for_range body rest
  end.

(** Lines 79-83: one streamed result. *)
Definition fastsam_step (image_paths : list string) (prediction_path : string)
    (confidence : pyfloat) (ir : nat * Result SamResult) : P unit :=
  let '(i, drawn) := ir in
  r ← plift drawn;
  preds ← plift (max_dim0 r);
  let preds := map (where_value_gt confidence) preds in
  path ← plift (index image_paths i);
  save_mask preds (mask_png prediction_path path).

(** Lines 56-85: the dispatch on the class of the model.  In the batched
    loop [np.expand_dims] adds an axis of length one and leaves the entries
    as they are; in the streamed loop [detach().cpu().numpy()] does. *)
Definition predict_dispatch (model : Model) (image_paths : list string)
    (prediction_path : string) (confidence : pyfloat) : P unit :=
  match model with
  | KerasModel model_predict =>
      for_range
        (keras_batch model_predict image_paths prediction_path confidence)
        (seq 0 ((length image_paths + BATCH_SIZE - 1) / BATCH_SIZE))
  | YOLOModel => plift (Raise NotImplementedError)
  | FastSAMModel model_call =>
      let results := model_call image_paths in
      for_range (fastsam_step image_paths prediction_path confidence)
        (imap (fun i r => (i, r)) results)
  | OtherModel _ => plift (Raise (RuntimeError "Loaded model is not supported"))
  end.

(** [georeference(prediction_path, prediction_path, is_mask=True)] *)
Definition run_georeference (prediction_path : string) : P unit := fun st =>
  let '(fs, r) := georeference ext prediction_path prediction_path (pfiles st) in
  (mkPState fs (pout st), r).

Definition run_remove_files (pattern : string) : P unit := fun st =>
  (mkPState (remove_files ext pattern (pfiles st)) (pout st), Ok tt).

(** [predict].  The calls that leave files and printed lines alone
    ([os.makedirs] of the output directory, [clear_session], [del model],
    the clock) are not shown. *)
Definition predict (checkpoint_path input_path prediction_path : string)
    (confidence : pyfloat) : P unit :=
  _ ← pprint (PText ("Using : " +:+ checkpoint_path));
  model ← plift (initialize_model ext checkpoint_path);
  _ ← pprint (PText "It took _ sec to load model");
  let image_paths := glob ext (input_path +:+ "/*.png") in
  _ ← predict_dispatch model image_paths prediction_path confidence;
  _ ← pprint (PThreshold confidence);
  _ ← run_georeference prediction_path;
  _ ← pprint (PText "It took _ sec to georeference");
  _ ← run_remove_files (prediction_path +:+ "/*.xml");
  run_remove_files (prediction_path +:+ "/*.png").

End Predict.

(** The batches the dense path cuts the image paths into. *)
Definition batches (image_paths : list string) : list (list string) :=
  map (fun i => take BATCH_SIZE (drop (BATCH_SIZE * i) image_paths))
    (seq 0 ((length image_paths + BATCH_SIZE - 1) / BATCH_SIZE)).

(** Every file of [st'] was already in [st], or its content satisfies [Q]. *)
Definition written_by (Q : list Z -> Prop) (st st' : PredictState) : Prop :=
  forall p m, pfiles st' !! p = Some m -> pfiles st !! p = Some m \/ Q m.

(** [m] is a row of class indices the model gave, thresholded. *)
Definition dense_mask
    (model_predict : list Z -> Result (list (list (list pyfloat))))
    (confidence : pyfloat) (m : list Z) : Prop :=
  exists images scores indices row,
    model_predict images = Ok scores /\
    argmax_last_axis scores = Ok indices /\
    In row indices /\
    m = map (where_index_gt confidence) row.

(** [col] holds entry [j] of every mask of the stack. *)
Definition column (j : nat) (stack : list (list pyfloat)) (col : list pyfloat)
  : Prop :=
  Forall2 (fun mask y => mask !! j = Some y) stack col.

(** [x] is the maximum of [col]: a NaN if there is one, otherwise a member
    that no member exceeds. *)
Definition is_max_of (x : pyfloat) (col : list pyfloat) : Prop :=
  if existsb is_nan col then is_nan x = true
  else In x col /\ Forall (fun y => fle y x = true) col.

(** [m] is the entrywise maximum of the instance masks of one streamed
    result, thresholded. *)
Definition sam_mask (results : list (Result SamResult)) (confidence : pyfloat)
    (m : list Z) : Prop :=
  exists r stack v,
    In (Ok r) results /\
    masks r = Some stack /\
    max_dim0 r = Ok v /\
    m = map (where_value_gt confidence) v /\
    forall j x, v !! j = Some x ->
      exists col, column j stack col /\ is_max_of x col.

(** ** A small directory to run the driver on

    Two-by-two chips in a geographic CRS with resolution [res], labels with
    one polygon, one missing and one empty geometry; reading the label
    [bad_label] raises.  The rasteriser leaves its three-band one-hot raster
    at the mask path, with the profile of the chip. *)
Module Demo.

Definition chip_meta : gmap string MetaVal :=
  <["driver" := MStr "GTiff"]>
    (<["dtype" := MStr "float32"]>
       (<["nodata" := MInt 0]>
          (<["count" := MInt 3]>
             (<["width" := MInt 2]> (<["height" := MInt 2]> ∅))))).

Definition tile (res : pyfloat * pyfloat) : Dataset :=
  mkDataset (2%nat, 2%nat) [] (Some "EPSG:4326") res chip_meta.

Definition labels : GeoDataFrame :=
  mkGdf
    [ Some (mkGeometry false "POLYGON ((0 0, 1 0, 1 1, 0 0))");
      None;
      Some (mkGeometry true "POLYGON EMPTY") ]
    (Some "EPSG:4326").

Definition rasterised (shape : nat * nat) : ndarray3 :=
  mkArr (fst shape, snd shape, 3%nat)
    (fun i j k =>
       match i, j, k with
       | O, O, O => 255
       | O, S O, S O => 255
       | S O, S O, S (S O) => 255
       | _, _, _ => 0
       end).

Definition onehot : ndarray3 := rasterised (2%nat, 2%nat).

Definition onehot_file (meta : gmap string MetaVal) (shape : nat * nat)
  : RasterFile :=
  mkRaster (<["dtype" := MStr "uint8"]> (<["count" := MInt 3]> meta))
    (rasterised shape).

Definition ext (pairs : list (string * string)) (bad_label : string)
    (metric : bool) (res : pyfloat * pyfloat) : Externals :=
  mkExternals
    (fun _ _ => Ok pairs)
    (fun out chip => out +:+ "/" +:+ chip +:+ ".mask.tif")
    (fun _ => Ok (tile res))
    (fun p => if decide (p = bad_label)
              then Raise (mkExc "DriverError" p)
              else Ok labels)
    (fun gdf crs => Ok (mkGdf (gdf_geometry gdf) crs))
    (fun _ => Ok metric)
    (fun gdf => gdf)
    (fun _ _ shape reference_im _ _ _ =>
       (Some (onehot_file (ds_meta reference_im) shape), Ok (rasterised shape)))
    (fun _ _ => (None, Ok tt)).

(** The same directory, where opening the mask at [bad_mask] for writing
    raises. *)
Definition ext_late (pairs : list (string * string)) (bad_mask : string)
    (metric : bool) (res : pyfloat * pyfloat) : Externals :=
  let e := ext pairs "" metric res in
  mkExternals
    (get_tq_chip_label_pairs e)
    (construct_mask_filepath e)
    (rio_open e)
    (read_file e)
    (to_crs e)
    (crs_is_metric e)
    (explode e)
    (df_to_px_mask e)
    (fun p _ => if decide (p = bad_mask)
                then (None, Raise (mkExc "RasterioIOError" p))
                else (None, Ok tt)).

Definition two_pairs : list (string * string) :=
  [("a.tif", "a.geojson"); ("b.tif", "b.geojson")].

Definition res01 : pyfloat * pyfloat := (lit 1 10, lit 1 10).

End Demo.

(** ** A small model zoo to run the dispatcher on

    Two images; a dense model that scores two pixels of each over two
    classes, and a promptable model that finds two instances in the first
    image and one in the second. *)
Module DemoPredict.

Definition scores : list (list (list pyfloat)) :=
  [ [ [lit 1 10; lit 9 10]; [lit 8 10; lit 2 10] ];
    [ [lit 5 10; lit 5 10]; [lit 3 10; lit 7 10] ] ].

Definition dense : Model := KerasModel (fun _ => Ok scores).

Definition one : pyfloat := PyFloat.of_Z 1.
Definition zero : pyfloat := PyFloat.of_Z 0.

Definition stream : list (Result SamResult) :=
  [ Ok (mkSamResult (Some [[one; zero]; [zero; zero]]));
    Ok (mkSamResult (Some [[zero; one]])) ].

Definition promptable : Model := FastSAMModel (fun _ => stream).

Definition ext (model : Model) : PredictExternals :=
  mkPExternals
    (fun _ => Ok model)
    (fun _ => ["in/a.png"; "in/b.png"])
    (fun _ => Ok [])
    (fun p => if decide (p = "in/a.png") then "a" else "b")
    (fun _ _ fs => (fs, Ok tt))
    (fun _ fs => fs).

Definition begin : PredictState := mkPState ∅ [].

End DemoPredict.

(** ** Descriptions used by the further properties *)

(** A geometry that is there and is not empty. *)
Definition present_nonempty (g : option Geometry) : Prop :=
  exists geom, g = Some geom /\ geom_is_empty geom = false.

(** A float that is not below zero, and a float that is above zero. *)
Definition nonneg_float (x : pyfloat) : Prop :=
  match x with
  | S754_zero _ | S754_finite false _ _ | S754_infinity false => True
  | _ => False
  end.

Definition positive_float (x : pyfloat) : Prop :=
  match x with
  | S754_finite false _ _ | S754_infinity false => True
  | _ => False
  end.

(** A float that is not a negative number: what a quotient of such floats
    by a positive one still is. *)
Definition not_below_zero (x : pyfloat) : Prop :=
  match x with
  | S754_finite s _ _ | S754_infinity s => s = false
  | _ => True
  end.

Definition nonneg_num (a : PyNum) : Prop :=
  match a with
  | PyInt z => 0 <= z
  | PyFloat x => nonneg_float x
  end.

(** The mask paths of the pairs the resolver gave. *)
Definition mask_paths_of (ext : Externals) (out_mask_dir : string)
    (pairs : list (string * string)) : list string :=
  map (fun cl => construct_mask_filepath ext out_mask_dir (fst cl)) pairs.

(** [f] is what the body makes of the label [json_path] and the chip
    [chip_path] for the mask path [mask_path]: the labels are read and
    cleaned, reprojected into the CRS of the chip when theirs differs, the
    widths are reconciled against the resolution of the chip, the exploded
    frame is rasterised with the shape of the chip, and the collapsed mask
    is paired with the profile of the chip. *)
Definition encoded_from (ext : Externals) (cs bw : PyNum)
    (json_path chip_path mask_path : string) (f : RasterFile) : Prop :=
  exists src raw gdf metric meters b c onehot,
    rio_open ext chip_path = Ok src /\
    read_file ext json_path = Ok raw /\
    ((gdf_crs raw = ds_crs src /\ gdf = drop_empty (drop_na raw)) \/
     (gdf_crs raw <> ds_crs src /\
      to_crs ext (drop_empty (drop_na raw)) (ds_crs src) = Ok gdf)) /\
    crs_is_metric ext gdf = Ok metric /\
    reconcile_units metric (ds_res src) bw cs = Ok (meters, b, c) /\
    snd (df_to_px_mask ext (explode ext gdf) mask_path (ds_shape src) src b c meters)
    = Ok onehot /\
    f = mkRaster
          (mask_meta (ds_meta src)
             (to_channels_first (multimask_to_sparse_multimask onehot)))
          (to_channels_first (multimask_to_sparse_multimask onehot)).

(** The rasteriser answers with an array of the height and width it is
    asked for. *)
Definition rasteriser_keeps_shape (ext : Externals) : Prop :=
  forall gdf out_file shape reference_im b c meters onehot,
    snd (df_to_px_mask ext gdf out_file shape reference_im b c meters) = Ok onehot ->
    fst (shape3 onehot) = shape.

(** A mask whose entries are all 0 or 1. *)
Definition binary_mask (m : list Z) : Prop :=
  Forall (fun x => x = 0 \/ x = 1) m.

(** No file of [st] is missing from [st']. *)
Definition keeps_files (st st' : PredictState) : Prop :=
  forall p, is_Some (pfiles st !! p) -> is_Some (pfiles st' !! p).

(** * Properties *)

Section FloatFacts.

Lemma abs_cond_Zopp s z : 0 <= z -> Z.abs (cond_Zopp s z) = z.
Proof. destruct s; simpl; lia. Qed.

Lemma to_int_truncates q n : to_int q = Ok n -> truncates_to q n.
Proof.
  destruct q as [s|s| |s m e]; simpl; try discriminate.
  - intros [= <-]. reflexivity.
  - intros [= <-].
    destruct e as [|p|p].
    + rewrite abs_cond_Zopp by lia. split; [reflexivity|].
      reflexivity.
    + assert (0 < 2 ^ Z.pos p) by (apply Z.pow_pos_nonneg; lia).
      rewrite abs_cond_Zopp by nia. split; [reflexivity|].
      reflexivity.
    + assert (0 < 2 ^ Z.pos p) as Hp by (apply Z.pow_pos_nonneg; lia).
      pose proof (Z.quot_pos (Z.pos m) (2 ^ Z.pos p) ltac:(lia) Hp) as Hq.
      rewrite abs_cond_Zopp by lia. split; [reflexivity|].
      change (0 <=? Z.neg p) with false. cbv iota.
      change (- Z.neg p) with (Z.pos p).
      rewrite Z.quot_div_nonneg by lia.
      pose proof (Z.mul_div_le (Z.pos m) (2 ^ Z.pos p) Hp).
      pose proof (Z.mul_succ_div_gt (Z.pos m) (2 ^ Z.pos p) Hp).
      lia.
Qed.

Ltac key_cases :=
  split;
  [ intros Hcmp;
    first [ discriminate Hcmp
          | eexists _, _; split; [reflexivity|]; split; [reflexivity|];
            simpl; lia ]
  | intros (kx & ky & Hx & Hy & Hk); simpl in Hx, Hy;
    first [ discriminate Hx | discriminate Hy
          | injection Hx as <-; injection Hy as <-; simpl in Hk;
            first [ reflexivity | exfalso; lia ] ] ].

Lemma flt_key x y :
  flt x y = true <->
  exists kx ky, fkey x = Some kx /\ fkey y = Some ky /\ key_lt kx ky.
Proof.
  unfold flt, SFltb, SFcompare.
  destruct x as [sx|sx| |sx mx ex], y as [sy|sy| |sy my ey];
    try destruct sx; try destruct sy;
    try (destruct (Z.compare_spec ex ey));
    try (change (Pos.compare_cont Eq mx my) with (Pos.compare mx my);
         destruct (Pos.compare_spec mx my));
    simpl CompOpp; key_cases.
Qed.

Lemma fle_key x y :
  fle x y = true <->
  exists kx ky, fkey x = Some kx /\ fkey y = Some ky /\ (key_lt kx ky \/ kx = ky).
Proof.
  unfold fle, SFleb, SFcompare.
  destruct x as [sx|sx| |sx mx ex], y as [sy|sy| |sy my ey];
    try destruct sx; try destruct sy;
    try (destruct (Z.compare_spec ex ey));
    try (change (Pos.compare_cont Eq mx my) with (Pos.compare mx my);
         destruct (Pos.compare_spec mx my));
    simpl CompOpp; subst.
  all: split;
  [ intros Hcmp;
    first [ discriminate Hcmp
          | eexists _, _; split; [reflexivity|]; split; [reflexivity|];
            simpl; first [ right; reflexivity | left; lia ] ]
  | intros (kx & ky & Hx & Hy & Hk); simpl in Hx, Hy;
    first [ discriminate Hx | discriminate Hy
          | injection Hx as <-; injection Hy as <-; simpl in Hk;
            first [ reflexivity
                  | exfalso; destruct Hk as [Hk|Hk];
                    [lia | injection Hk; intros; lia] ] ] ].
Qed.

Lemma feq_key x y :
  feq x y = true <->
  exists kx ky, fkey x = Some kx /\ fkey y = Some ky /\ kx = ky.
Proof.
  unfold feq, SFeqb, SFcompare.
  destruct x as [sx|sx| |sx mx ex], y as [sy|sy| |sy my ey];
    try destruct sx; try destruct sy;
    try (destruct (Z.compare_spec ex ey));
    try (change (Pos.compare_cont Eq mx my) with (Pos.compare mx my);
         destruct (Pos.compare_spec mx my));
    simpl CompOpp; subst.
  all: split;
  [ intros Hcmp;
    first [ discriminate Hcmp
          | eexists _, _; split; [reflexivity|]; split; reflexivity ]
  | intros (kx & ky & Hx & Hy & Hk); simpl in Hx, Hy;
    first [ discriminate Hx | discriminate Hy
          | injection Hx as <-; injection Hy as <-;
            first [ reflexivity
                  | exfalso; injection Hk; intros; lia ] ] ].
Qed.

Lemma digits2_pos_bounds p :
  2 ^ (Zpos (digits2_pos p) - 1) <= Zpos p < 2 ^ Zpos (digits2_pos p).
Proof.
  induction p as [p IH|p IH|]; cbn [digits2_pos].
  - rewrite Pos2Z.inj_succ.
    replace (Z.succ (Z.pos (digits2_pos p)) - 1)
      with (Z.succ (Z.pos (digits2_pos p) - 1)) by lia.
    rewrite !Z.pow_succ_r by lia. lia.
  - rewrite Pos2Z.inj_succ.
    replace (Z.succ (Z.pos (digits2_pos p)) - 1)
      with (Z.succ (Z.pos (digits2_pos p) - 1)) by lia.
    rewrite !Z.pow_succ_r by lia. lia.
  - simpl. lia.
Qed.

Lemma shr_1_m mrs : 0 <= shr_m mrs -> shr_m (shr_1 mrs) = shr_m mrs / 2.
Proof.
  destruct mrs as [m r s]. cbn [shr_m shr_1].
  destruct m as [|[p|p|]|p]; intros Hm; cbn [shr_m]; try lia.
  - reflexivity.
  - apply Z.div_unique with 1; lia.
  - apply Z.div_unique with 0; lia.
  - reflexivity.
Qed.

Lemma iter_shr_m n mrs :
  0 <= shr_m mrs -> shr_m (SpecFloat.iter_pos shr_1 n mrs) = shr_m mrs / 2 ^ Zpos n.
Proof.
  revert mrs. induction n as [n IH|n IH|]; intros mrs Hm; cbn [SpecFloat.iter_pos].
  - assert (0 <= shr_m (shr_1 mrs))
      by (rewrite shr_1_m by lia; apply Z.div_pos; lia).
    assert (0 < 2 ^ Z.pos n) by (apply Z.pow_pos_nonneg; lia).
    assert (0 <= shr_m (SpecFloat.iter_pos shr_1 n (shr_1 mrs)))
      by (rewrite IH by lia; apply Z.div_pos; lia).
    assert (2 ^ Z.pos n~1 = 2 * 2 ^ Z.pos n * 2 ^ Z.pos n) as ->.
    { replace (Z.pos n~1) with (1 + Z.pos n + Z.pos n) by lia.
      rewrite !Z.pow_add_r by lia. reflexivity. }
    rewrite IH, IH, shr_1_m by lia.
    rewrite !Z.div_div by lia. f_equal. lia.
  - assert (0 < 2 ^ Z.pos n) by (apply Z.pow_pos_nonneg; lia).
    assert (0 <= shr_m (SpecFloat.iter_pos shr_1 n mrs))
      by (rewrite IH by lia; apply Z.div_pos; lia).
    assert (2 ^ Z.pos n~0 = 2 ^ Z.pos n * 2 ^ Z.pos n) as ->.
    { replace (Z.pos n~0) with (Z.pos n + Z.pos n) by lia.
      rewrite !Z.pow_add_r by lia. reflexivity. }
    rewrite IH, IH by lia.
    rewrite !Z.div_div by lia. reflexivity.
  - rewrite shr_1_m by lia. reflexivity.
Qed.

Lemma shr_record_of_loc_m m l : shr_m (shr_record_of_loc m l) = m.
Proof. destruct l as [|[]]; reflexivity. Qed.

Lemma shr_fexp_big m e l mrs e' :
  2 ^ 52 <= m -> -52 <= e ->
  shr_fexp prec emax m e l = (mrs, e') ->
  2 ^ 52 <= shr_m mrs /\ e <= e'.
Proof.
  intros Hm He. unfold shr_fexp, shr.
  destruct m as [|pm|pm]; try lia.
  pose proof (digits2_pos_bounds pm) as [Hlo Hhi].
  assert (52 < Z.pos (digits2_pos pm)) as HD.
  { apply (Z.pow_lt_mono_r_iff 2); lia. }
  cbn [Zdigits2]. unfold fexp, emin, prec, emax.
  rewrite Z.max_l by lia.
  destruct (Z.pos (digits2_pos pm) + e - 53 - e) as [|k|k] eqn:Hn.
  - intros [= <- <-]. rewrite shr_record_of_loc_m. lia.
  - intros [= <- <-]. rewrite iter_shr_m by (rewrite shr_record_of_loc_m; lia).
    rewrite shr_record_of_loc_m. split; [|lia].
    apply Z.div_le_lower_bound; [apply Z.pow_pos_nonneg; lia|].
    rewrite <- Z.pow_add_r by lia.
    replace (Z.pos k + 52) with (Z.pos (digits2_pos pm) - 1) by lia.
    exact Hlo.
  - intros [= <- <-]. rewrite shr_record_of_loc_m. lia.
Qed.

Lemma round_nearest_even_ge m l : m <= round_nearest_even m l.
Proof. destruct l as [|[]]; simpl; try lia. destruct (Z.even m); lia. Qed.

Lemma binary_round_aux_big m e :
  2 ^ 52 <= m -> -52 <= e ->
  at_least_one (binary_round_aux prec emax false m e loc_Exact).
Proof.
  intros Hm He. unfold binary_round_aux.
  destruct (shr_fexp prec emax m e loc_Exact) as [mrs1 e1] eqn:H1.
  apply shr_fexp_big in H1 as [Hm1 He1]; [|lia..].
  pose proof (round_nearest_even_ge (shr_m mrs1) (loc_of_shr_record mrs1)) as Hr.
  destruct (shr_fexp prec emax _ e1 loc_Exact) as [mrs2 e2] eqn:H2.
  apply shr_fexp_big in H2 as [Hm2 He2]; [|lia..].
  destruct (shr_m mrs2) as [|m2|m2]; try lia.
  destruct (e2 <=? emax - prec); simpl; auto with zarith.
Qed.

Lemma of_Z_pos_big p : at_least_one (of_Z (Zpos p)).
Proof.
  unfold of_Z, binary_normalize, binary_round, shl_align.
  pose proof (digits2_pos_bounds p) as [Hlo Hhi].
  assert (fexp prec emax (Z.pos (digits2_pos p) + 0)
          = Z.pos (digits2_pos p) - 53) as ->.
  { unfold fexp, emin, prec, emax. lia. }
  destruct (Z.pos (digits2_pos p) - 53 - 0) as [|d|d] eqn:Hd.
  - apply binary_round_aux_big; [|lia].
    replace 52 with (Z.pos (digits2_pos p) - 1) by lia. exact Hlo.
  - apply binary_round_aux_big; [|lia].
    apply Z.le_trans with (2 ^ (Z.pos (digits2_pos p) - 1)); [|exact Hlo].
    apply Z.pow_le_mono_r; lia.
  - apply binary_round_aux_big; [|lia].
    change (Pos.iter xO p d) with (shift_pos d p).
    rewrite shift_pos_correct, Z.pow_pos_fold.
    replace 52 with (Z.pos d + (Z.pos (digits2_pos p) - 1)) by lia.
    rewrite Z.pow_add_r by lia.
    apply Z.mul_le_mono_nonneg_l; [apply Z.pow_nonneg; lia|exact Hlo].
Qed.

End FloatFacts.

(** ** Unit reconciliation *)

Section UnitReconciliation.

Lemma reconcile_units_metric res bw cs :
  reconcile_units true res bw cs = Ok (true, bw, cs).
Proof. reflexivity. Qed.

Lemma num_truediv_ok a y q :
  num_truediv a y = Ok q ->
  exists x, num_to_float a = Ok x /\ is_zero y = false /\ q = fdiv x y.
Proof.
  unfold num_truediv. destruct (num_to_float a) as [x|e]; simpl; [|discriminate].
  unfold truediv. destruct (is_zero y); [discriminate|].
  intros [= <-]. eauto.
Qed.

Lemma to_pixels_ok width res n :
  to_pixels width res = Ok n ->
  exists x, num_to_float width = Ok x /\ truncates_to (fdiv x (min2 res)) n.
Proof.
  unfold to_pixels.
  destruct (num_truediv width (min2 res)) as [q|e] eqn:Hq; simpl; [|discriminate].
  intros Hn. apply num_truediv_ok in Hq as (x & Hx & _ & ->).
  exists x. auto using to_int_truncates.
Qed.

Lemma reconcile_units_pixel res bw cs meters b c :
  reconcile_units false res bw cs = Ok (meters, b, c) ->
  meters = false /\
  exists xb xc nb nc,
    num_to_float bw = Ok xb /\ num_to_float cs = Ok xc /\
    truncates_to (fdiv xb (min2 res)) nb /\
    truncates_to (fdiv xc (min2 res)) nc /\
    b = PyInt nb /\ c = PyInt nc.
Proof.
  unfold reconcile_units. cbv zeta.
  destruct (to_pixels bw res) as [nb|e] eqn:Hb; simpl; [|discriminate].
  destruct (to_pixels cs res) as [nc|e] eqn:Hc; simpl; [|discriminate].
  intros [= <- <- <-]. split; [reflexivity|].
  apply to_pixels_ok in Hb as (xb & Hxb & Hnb).
  apply to_pixels_ok in Hc as (xc & Hxc & Hnc).
  exists xb, xc, nb, nc. auto 10.
Qed.

End UnitReconciliation.

(** C2. Unit reconciliation.  When [crs_is_metric] answers yes the two
    widths come back as they were given, whatever the resolution of the
    tile.  Otherwise each width is divided, as a float, by the smaller of the
    two per-axis resolutions and the quotient is cut off toward zero to an
    [int].  With resolution 0.1 the width 0.5 becomes 5 pixels; with
    resolution 0.3 it becomes 1 pixel, although 0.5 / 0.3 is nearer to 2. *)
Theorem C2_unit_reconciliation :
  (forall res bw cs, reconcile_units true res bw cs = Ok (true, bw, cs)) /\
  (forall res bw cs meters b c,
     reconcile_units false res bw cs = Ok (meters, b, c) ->
     meters = false /\
     exists xb xc nb nc,
       num_to_float bw = Ok xb /\ num_to_float cs = Ok xc /\
       truncates_to (fdiv xb (min2 res)) nb /\
       truncates_to (fdiv xc (min2 res)) nc /\
       b = PyInt nb /\ c = PyInt nc) /\
  reconcile_units false (lit 1 10, lit 1 10)
    (PyFloat (lit 5 10)) (PyFloat (lit 75 100)) = Ok (false, PyInt 5, PyInt 7) /\
  reconcile_units false (lit 3 10, lit 3 10)
    (PyFloat (lit 5 10)) (PyFloat (lit 75 100)) = Ok (false, PyInt 1, PyInt 2) /\
  reconcile_units false (lit 3 10, lit 1 10)
    (PyFloat (lit 5 10)) (PyFloat (lit 75 100)) = Ok (false, PyInt 5, PyInt 7).
Proof.
  split; [exact reconcile_units_metric|].
  split; [exact reconcile_units_pixel|].
  repeat split; vm_compute; reflexivity.
Qed.

Lemma C2_unit_reconciliation_witness :
  exists xb nb,
    num_to_float (PyFloat (lit 5 10)) = Ok xb /\
    truncates_to (fdiv xb (min2 (lit 3 10, lit 3 10))) nb /\
    PyInt 1 = PyInt nb.
Proof.
  destruct C2_unit_reconciliation as (_ & Hpixel & _).
  destruct (Hpixel (lit 3 10, lit 3 10) (PyFloat (lit 5 10)) (PyFloat (lit 75 100))
              false (PyInt 1) (PyInt 2))
    as (_ & xb & xc & nb & nc & Hxb & _ & Hnb & _ & Hb & _).
  - vm_compute. reflexivity.
  - exists xb, nb. auto.
Defined.

(** ** The loop body, step by step *)

Section DriverFacts.

Context (ext : Externals) (cs bw : PyNum).

Lemma process_pair_skip json chip mask st :
  is_Some (files st !! mask) ->
  process_pair ext cs bw (json, chip, mask) st = (st, Ok tt).
Proof.
  intros Hsome. unfold process_pair, mbind, M_bind, is_file.
  rewrite bool_decide_true by assumption. reflexivity.
Qed.

Lemma leave_trace p l st : trace (leave p l st) = trace st.
Proof. destruct l; reflexivity. Qed.

Lemma leave_first p l st : first_iteration (leave p l st) = first_iteration st.
Proof. destruct l; reflexivity. Qed.

Lemma leave_other p l st q : q <> p -> files (leave p l st) !! q = files st !! q.
Proof.
  intros Hq. destruct l as [f|]; [|reflexivity].
  simpl. apply lookup_insert_ne. congruence.
Qed.

Lemma write_file_leave p f l st : write_file p f (leave p l st) = write_file p f st.
Proof.
  destruct l as [g|]; [|reflexivity].
  unfold write_file, leave. cbn [files trace first_iteration].
  rewrite insert_insert_eq. reflexivity.
Qed.

Lemma leave_leave p l1 l2 st :
  leave p l2 (leave p l1 st)
  = leave p (match l2 with Some g => Some g | None => l1 end) st.
Proof.
  destruct l2 as [g2|]; [|reflexivity].
  destruct l1 as [g1|]; [|reflexivity].
  unfold leave. cbn [files trace first_iteration].
  rewrite insert_insert_eq. reflexivity.
Qed.

Lemma process_pair_eq json chip mask st :
  files st !! mask = None ->
  process_pair ext cs bw (json, chip, mask) st =
  match prepare_pair ext cs bw json chip with
  | Raise e => (st, Raise e)
  | Ok p =>
      let st1 := after_print (ds_res (snd (fst p))) (snd p) st in
      match encode_pair ext chip mask p with
      | Raise e => (leave mask (left_at_mask ext chip mask p) st1, Raise e)
      | Ok f => write_file mask f st1
      end
  end.
Proof.
  intros Hnone.
  unfold process_pair, prepare_pair, encode_pair, left_at_mask, rasterise_pair,
    finish_pair.
  unfold mbind at 1. unfold M_bind at 1. unfold is_file.
  rewrite bool_decide_false by (rewrite Hnone; apply is_Some_None).
  unfold mbind, M_bind, Result_bind, lift, mret, M_ret, with_out_file.
  destruct (load_pair ext json chip) as [[[shape gdf] ref]|e]; [|reflexivity].
  destruct (crs_is_metric ext gdf) as [[]|e]; [| |reflexivity].
  - unfold reconcile_units, after_print, get_first, print, emit, set_first.
    cbv zeta. cbn [fst snd report].
    destruct (first_iteration st) eqn:Hf; cbn [files trace first_iteration];
      rewrite <- ?app_assoc; cbn [app];
      destruct (df_to_px_mask ext (explode ext gdf) mask shape ref bw cs true)
        as [left [onehot|e]]; cbn [fst snd]; try reflexivity;
      (destruct (rio_open ext chip) as [src|e]; [|reflexivity]);
      (destruct (rio_create ext mask _) as [left' [[]|e]]); cbn [fst snd];
      rewrite ?write_file_leave, ?leave_leave; reflexivity.
  - unfold reconcile_units, after_print, get_first, print, emit, set_first.
    cbv zeta. unfold mbind, Result_bind.
    destruct (to_pixels bw (ds_res ref)) as [b|e]; [|reflexivity].
    destruct (to_pixels cs (ds_res ref)) as [c|e]; [|reflexivity].
    cbn [fst snd report].
    destruct (first_iteration st) eqn:Hf; cbn [files trace first_iteration];
      rewrite <- ?app_assoc; cbn [app];
      destruct (df_to_px_mask ext (explode ext gdf) mask shape ref
                  (PyInt b) (PyInt c) false)
        as [left [onehot|e]]; cbn [fst snd]; try reflexivity;
      (destruct (rio_open ext chip) as [src|e]; [|reflexivity]);
      (destruct (rio_create ext mask _) as [left' [[]|e]]); cbn [fst snd];
      rewrite ?write_file_leave, ?leave_leave; reflexivity.
Qed.

Lemma for_each_cons t rest st :
  for_each ext cs bw (t :: rest) st =
  match process_pair ext cs bw t (after_tick st) with
  | (st', Ok _) => for_each ext cs bw rest st'
  | (st', Raise e) => (st', Raise e)
  end.
Proof. reflexivity. Qed.

Lemma for_each_app pre post st :
  for_each ext cs bw (pre ++ post) st =
  match for_each ext cs bw pre st with
  | (st1, Ok _) => for_each ext cs bw post st1
  | (st1, Raise e) => (st1, Raise e)
  end.
Proof.
  revert st. induction pre as [|t pre IH]; intros st.
  - reflexivity.
  - rewrite <- app_comm_cons, !for_each_cons.
    destruct (process_pair ext cs bw t (after_tick st)) as [st' [[]|e]];
      [apply IH|reflexivity].
Qed.

Lemma zip3_triples_of out (pairs : list (string * string)) :
  zip3 (map snd pairs) (map fst pairs)
    (map (fun chip_path => construct_mask_filepath ext out chip_path) (map fst pairs))
  = triples_of ext out pairs.
Proof.
  unfold zip3, triples_of.
  induction pairs as [|[chip label] pairs IH]; [reflexivity|].
  simpl. f_equal. exact IH.
Qed.

Lemma driver_unfold poly chip out st :
  multimasks_from_polygons ext poly chip out cs bw st =
  match get_tq_chip_label_pairs ext chip poly with
  | Raise e =>
      (mkState (files st) (trace st ++ [EvMkdir out]) (first_iteration st), Raise e)
  | Ok [] =>
      (mkState (files st) (trace st ++ [EvMkdir out]) (first_iteration st),
       Raise (ValueError "not enough values to unpack (expected 2, got 0)"))
  | Ok pairs =>
      for_each ext cs bw (triples_of ext out pairs) (at_loop_entry out st)
  end.
Proof.
  unfold multimasks_from_polygons, mbind, M_bind, emit, lift, set_first.
  destruct (get_tq_chip_label_pairs ext chip poly) as [pairs|e]; [|reflexivity].
  destruct pairs as [|p pairs]; [reflexivity|].
  unfold unzip_pairs. rewrite zip3_triples_of. reflexivity.
Qed.

End DriverFacts.

(** ** Zero pairs *)

(** C7. When the resolver finds no chip/label pair the driver raises before
    the loop is entered: unpacking the transposed, empty pair list into
    [chip_paths, label_paths] fails with a [ValueError].  Only the output
    directory has been made; nothing was read, printed or written, and no
    triple was handed out.  The same holds when the resolver itself raises. *)
Theorem C7_zero_pairs_abort ext poly chip out cs bw st :
  (get_tq_chip_label_pairs ext chip poly = Ok [] ->
   exists st' e,
     multimasks_from_polygons ext poly chip out cs bw st = (st', Raise e) /\
     exc_class e = "ValueError" /\
     files st' = files st /\
     trace st' = trace st ++ [EvMkdir out]) /\
  (forall e,
     get_tq_chip_label_pairs ext chip poly = Raise e ->
     exists st',
       multimasks_from_polygons ext poly chip out cs bw st = (st', Raise e) /\
       files st' = files st /\
       trace st' = trace st ++ [EvMkdir out]).
Proof.
  split.
  - intros Hpairs. rewrite driver_unfold, Hpairs.
    eexists _, _. split; [reflexivity|]. simpl. auto.
  - intros e Hpairs. rewrite driver_unfold, Hpairs.
    eexists. split; [reflexivity|]. simpl. auto.
Qed.

Lemma C7_zero_pairs_abort_witness :
  exists st' e,
    multimasks_from_polygons (Demo.ext [] "" false Demo.res01)
      "labels" "chips" "masks" default_contact_spacing default_boundary_width
      (start ∅) = (st', Raise e) /\
    exc_class e = "ValueError" /\
    files st' = ∅ /\
    trace st' = [EvMkdir "masks"].
Proof.
  destruct (C7_zero_pairs_abort (Demo.ext [] "" false Demo.res01)
              "labels" "chips" "masks" default_contact_spacing
              default_boundary_width (start ∅)) as [Hzero _].
  apply Hzero. reflexivity.
Defined.

(** ** Resumption *)

Section Resumption.

Context (ext : Externals) (cs bw : PyNum).

Lemma after_print_files res u st : files (after_print res u st) = files st.
Proof. unfold after_print. destruct (first_iteration st); reflexivity. Qed.

Lemma process_pair_keeps t st st' r p f :
  process_pair ext cs bw t st = (st', r) ->
  files st !! p = Some f -> files st' !! p = Some f.
Proof.
  destruct t as [[json chip] mask]. intros Hrun Hp.
  destruct (files st !! mask) as [g|] eqn:Hm.
  - rewrite process_pair_skip in Hrun by (rewrite Hm; eauto).
    injection Hrun as <- <-. exact Hp.
  - assert (p <> mask) as Hne by congruence.
    rewrite process_pair_eq in Hrun by assumption.
    destruct (prepare_pair ext cs bw json chip) as [x|e].
    + cbv zeta in Hrun.
      destruct (encode_pair ext chip mask x) as [g|e].
      * unfold write_file in Hrun. injection Hrun as <- <-. simpl.
        rewrite after_print_files.
        rewrite lookup_insert_ne; [exact Hp|]. congruence.
      * injection Hrun as <- <-.
        rewrite leave_other by exact Hne.
        rewrite after_print_files. exact Hp.
    + injection Hrun as <- <-. exact Hp.
Qed.

Lemma process_pair_ok_mask t st st' :
  process_pair ext cs bw t st = (st', Ok tt) ->
  is_Some (files st' !! mask_of t).
Proof.
  destruct t as [[json chip] mask]. unfold mask_of. cbn [snd]. intros Hrun.
  destruct (files st !! mask) as [g|] eqn:Hm.
  - rewrite process_pair_skip in Hrun by (rewrite Hm; eauto).
    injection Hrun as <-. rewrite Hm. eauto.
  - rewrite process_pair_eq in Hrun by assumption.
    destruct (prepare_pair ext cs bw json chip) as [x|e]; [|discriminate].
    cbv zeta in Hrun.
    destruct (encode_pair ext chip mask x) as [g|e]; [|discriminate].
    unfold write_file in Hrun. injection Hrun as <-. simpl.
    rewrite lookup_insert_eq. eauto.
Qed.

Lemma for_each_keeps triples st st' r p f :
  for_each ext cs bw triples st = (st', r) ->
  files st !! p = Some f -> files st' !! p = Some f.
Proof.
  revert st. induction triples as [|t rest IH]; intros st Hrun Hp.
  - injection Hrun as <- <-. exact Hp.
  - rewrite for_each_cons in Hrun.
    destruct (process_pair ext cs bw t (after_tick st)) as [st1 [[]|e]] eqn:Hbody.
    + apply (IH st1 Hrun).
      eapply process_pair_keeps; [exact Hbody|exact Hp].
    + injection Hrun as <- <-.
      eapply process_pair_keeps; [exact Hbody|exact Hp].
Qed.

Lemma for_each_ok_masks triples st st' :
  for_each ext cs bw triples st = (st', Ok tt) ->
  Forall (fun t => is_Some (files st' !! mask_of t)) triples.
Proof.
  revert st. induction triples as [|t rest IH]; intros st Hrun.
  - constructor.
  - rewrite for_each_cons in Hrun.
    destruct (process_pair ext cs bw t (after_tick st)) as [st1 [[]|e]] eqn:Hbody;
      [|discriminate].
    constructor; [|exact (IH st1 Hrun)].
    apply process_pair_ok_mask in Hbody as [f Hf].
    exists f. eapply for_each_keeps; [exact Hrun|exact Hf].
Qed.

Lemma for_each_all_skipped triples st :
  Forall (fun t => is_Some (files st !! mask_of t)) triples ->
  for_each ext cs bw triples st =
  (mkState (files st) (trace st ++ repeat EvTick (length triples))
     (first_iteration st), Ok tt).
Proof.
  revert st. induction triples as [|t rest IH]; intros st Hall.
  - destruct st. simpl. rewrite app_nil_r. reflexivity.
  - inversion Hall as [|? ? Ht Hrest]; subst.
    rewrite for_each_cons. destruct t as [[json chip] mask].
    rewrite process_pair_skip by exact Ht.
    rewrite IH by exact Hrest. simpl. rewrite <- app_assoc. reflexivity.
Qed.

End Resumption.

(** C5. Resumption.  A pair whose mask path is already a file is passed
    over: the body returns at once and leaves files, output and flag as they
    were, whatever reading the chip or the label would have given (the
    outcome does not depend on the externals).  No run changes a file that
    existed when it began.  A second run after a completed one, over the
    files the first one left, skips every pair: it ticks once per pair,
    prints and writes nothing, and leaves the files as they are. *)
Theorem C5_resumption ext poly chip out cs bw :
  (forall ext' json chp mask st,
     is_Some (files st !! mask) ->
     process_pair ext' cs bw (json, chp, mask) st = (st, Ok tt)) /\
  (forall fs st' r p f,
     multimasks_from_polygons ext poly chip out cs bw (start fs) = (st', r) ->
     fs !! p = Some f -> files st' !! p = Some f) /\
  (forall fs st1,
     multimasks_from_polygons ext poly chip out cs bw (start fs) = (st1, Ok tt) ->
     exists pairs,
       get_tq_chip_label_pairs ext chip poly = Ok pairs /\
       multimasks_from_polygons ext poly chip out cs bw (start (files st1)) =
       (mkState (files st1) (EvMkdir out :: repeat EvTick (length pairs)) true,
        Ok tt)).
Proof.
  split; [|split].
  - intros ext' json chp mask st. apply process_pair_skip.
  - intros fs st' r p f Hrun Hp. rewrite driver_unfold in Hrun.
    destruct (get_tq_chip_label_pairs ext chip poly) as [[|pr pairs]|e].
    + injection Hrun as <- <-. exact Hp.
    + eapply for_each_keeps; [exact Hrun|exact Hp].
    + injection Hrun as <- <-. exact Hp.
  - intros fs st1 Hrun. rewrite driver_unfold in Hrun. rewrite driver_unfold.
    destruct (get_tq_chip_label_pairs ext chip poly) as [[|pr pairs]|e];
      [discriminate| |discriminate].
    exists (pr :: pairs). split; [reflexivity|].
    apply for_each_ok_masks in Hrun.
    rewrite for_each_all_skipped by exact Hrun.
    unfold triples_of. rewrite length_map. reflexivity.
Qed.

Lemma C5_resumption_witness :
  let ext := Demo.ext Demo.two_pairs "" false Demo.res01 in
  let run1 := multimasks_from_polygons ext "labels" "chips" "masks"
                default_contact_spacing default_boundary_width (start ∅) in
  exists pairs,
    get_tq_chip_label_pairs ext "chips" "labels" = Ok pairs /\
    multimasks_from_polygons ext "labels" "chips" "masks"
      default_contact_spacing default_boundary_width (start (files (fst run1))) =
    (mkState (files (fst run1)) (EvMkdir "masks" :: repeat EvTick (length pairs)) true,
     Ok tt).
Proof.
  intros ext run1.
  destruct (C5_resumption ext "labels" "chips" "masks"
              default_contact_spacing default_boundary_width)
    as (_ & _ & Hsecond).
  apply (Hsecond ∅ (fst run1)).
  vm_compute. reflexivity.
Defined.

(** ** The parameter print *)

Section PrintOnce.

Context (ext : Externals) (cs bw : PyNum).

Lemma prints_app tr1 tr2 : prints (tr1 ++ tr2) = prints tr1 ++ prints tr2.
Proof. apply List.filter_app. Qed.

Lemma prints_report res u : prints (report res u) = report res u.
Proof. destruct u as [[[] b] c]; reflexivity. Qed.

Lemma prints_ticks n : prints (repeat EvTick n) = [].
Proof. induction n; [reflexivity|exact IHn]. Qed.

Lemma report_not_nil res u : report res u <> [].
Proof. destruct u as [[[] b] c]; discriminate. Qed.

(** What a pass of the body does to the flag and to the printed lines: it
    leaves both alone, or the flag was set, the pair was not skipped, its
    preparation went through, and the report of its values was printed. *)
Lemma process_pair_prints json chip mask st st' r :
  process_pair ext cs bw (json, chip, mask) st = (st', r) ->
  (first_iteration st' = first_iteration st /\
   prints (trace st') = prints (trace st) /\
   (first_iteration st = true ->
    is_Some (files st !! mask) \/ is_ok (prepare_pair ext cs bw json chip) = false))
  \/
  (first_iteration st = true /\ first_iteration st' = false /\
   files st !! mask = None /\
   exists x, prepare_pair ext cs bw json chip = Ok x /\
     prints (trace st') = prints (trace st) ++ report (ds_res (snd (fst x))) (snd x)).
Proof.
  intros Hrun.
  destruct (files st !! mask) as [g|] eqn:Hm.
  { rewrite process_pair_skip in Hrun by (rewrite Hm; eauto).
    injection Hrun as <- <-. left. eauto. }
  rewrite process_pair_eq in Hrun by assumption.
  destruct (prepare_pair ext cs bw json chip) as [x|e] eqn:Hx.
  2:{ injection Hrun as <- <-. left. auto. }
  cbv zeta in Hrun.
  assert (exists tail,
             trace st' = trace (after_print (ds_res (snd (fst x))) (snd x) st) ++ tail /\
             prints tail = [] /\
             first_iteration st' =
             first_iteration (after_print (ds_res (snd (fst x))) (snd x) st))
    as (tail & Htr & Htail & Hfirst).
  { destruct (encode_pair ext chip mask x) as [g|e].
    - unfold write_file in Hrun. injection Hrun as <- <-.
      exists [EvWrite mask]. auto.
    - injection Hrun as <- <-. exists [].
      rewrite app_nil_r, leave_trace, leave_first. auto. }
  unfold after_print in Htr, Hfirst.
  destruct (first_iteration st) eqn:Hf; simpl in Htr, Hfirst.
  - right. repeat split; auto. exists x. split; [reflexivity|].
    rewrite Htr, !prints_app, prints_report, Htail, app_nil_r. reflexivity.
  - left. split; [congruence|]. split; [|discriminate].
    rewrite Htr, prints_app, Htail, app_nil_r. reflexivity.
Qed.

Lemma for_each_flag_down triples st st' r :
  first_iteration st = false ->
  for_each ext cs bw triples st = (st', r) ->
  first_iteration st' = false /\ prints (trace st') = prints (trace st).
Proof.
  revert st. induction triples as [|[[json chip] mask] rest IH]; intros st Hf Hrun.
  - injection Hrun as <- <-. auto.
  - rewrite for_each_cons in Hrun.
    destruct (process_pair ext cs bw _ (after_tick st)) as [st1 res1] eqn:Hbody.
    assert (first_iteration st1 = false /\ prints (trace st1) = prints (trace st))
      as [Hf1 Hp1].
    { apply process_pair_prints in Hbody as [(H1 & H2 & _)|(H1 & _)].
      - simpl in H1, H2. rewrite prints_app in H2. simpl in H2.
        rewrite app_nil_r in H2. split; congruence.
      - simpl in H1. congruence. }
    destruct res1 as [[]|e].
    + destruct (IH st1 Hf1 Hrun) as [? ?]. split; congruence.
    + injection Hrun as <- <-. auto.
Qed.

(** Along the loop the printed lines are those at entry, followed by at most
    one report. *)
Lemma for_each_prints triples st st' r :
  first_iteration st = true ->
  for_each ext cs bw triples st = (st', r) ->
  prints (trace st') = prints (trace st) \/
  exists res u, prints (trace st') = prints (trace st) ++ report res u.
Proof.
  revert st. induction triples as [|[[json chip] mask] rest IH]; intros st Hf Hrun.
  - injection Hrun as <- <-. auto.
  - rewrite for_each_cons in Hrun.
    destruct (process_pair ext cs bw _ (after_tick st)) as [st1 res1] eqn:Hbody.
    apply process_pair_prints in Hbody
      as [(H1 & H2 & _)|(_ & H1 & _ & x & _ & H2)];
      simpl in H1, H2; rewrite prints_app in H2; simpl in H2;
      rewrite app_nil_r in H2.
    + destruct res1 as [[]|e].
      * rewrite <- H2. apply (IH st1); congruence.
      * injection Hrun as <- <-. auto.
    + right. exists (ds_res (snd (fst x))), (snd x).
      destruct res1 as [[]|e].
      * destruct (for_each_flag_down _ _ _ _ H1 Hrun) as [_ ->]. exact H2.
      * injection Hrun as <- <-. exact H2.
Qed.

(** The first pair that is not skipped and whose preparation goes through
    prints its report, and that is all the loop prints. *)
Lemma for_each_first_report pre json chip mask post x st st' r :
  first_iteration st = true ->
  Forall (fun t => is_Some (files st !! mask_of t)) pre ->
  files st !! mask = None ->
  prepare_pair ext cs bw json chip = Ok x ->
  for_each ext cs bw (pre ++ (json, chip, mask) :: post) st = (st', r) ->
  prints (trace st') = prints (trace st) ++ report (ds_res (snd (fst x))) (snd x).
Proof.
  intros Hf Hpre Hm Hx Hrun.
  rewrite for_each_app, for_each_all_skipped in Hrun by exact Hpre.
  rewrite for_each_cons in Hrun.
  destruct (process_pair ext cs bw _ _) as [st1 res1] eqn:Hbody.
  apply process_pair_prints in Hbody
    as [(_ & _ & H3)|(_ & H1 & _ & y & Hy & H2)]; simpl in *.
  - destruct (H3 Hf) as [[g Hg]|Hbad].
    + congruence.
    + rewrite Hx in Hbad. discriminate.
  - rewrite Hx in Hy. injection Hy as <-.
    rewrite !prints_app, prints_ticks in H2. simpl in H2.
    rewrite !app_nil_r in H2.
    destruct res1 as [[]|e].
    + destruct (for_each_flag_down _ _ _ _ H1 Hrun) as [_ ->]. exact H2.
    + injection Hrun as <- <-. exact H2.
Qed.

(** When the first pair that is not skipped raises before the print, the
    loop ends there with that exception and has printed nothing. *)
Lemma for_each_first_raises pre json chip mask post e st st' r :
  Forall (fun t => is_Some (files st !! mask_of t)) pre ->
  files st !! mask = None ->
  prepare_pair ext cs bw json chip = Raise e ->
  for_each ext cs bw (pre ++ (json, chip, mask) :: post) st = (st', r) ->
  r = Raise e /\ prints (trace st') = prints (trace st).
Proof.
  intros Hpre Hm Hx Hrun.
  rewrite for_each_app, for_each_all_skipped in Hrun by exact Hpre.
  rewrite for_each_cons in Hrun.
  rewrite process_pair_eq in Hrun by exact Hm.
  rewrite Hx in Hrun. injection Hrun as <- <-.
  split; [reflexivity|]. simpl.
  rewrite !prints_app, prints_ticks. simpl. rewrite !app_nil_r. reflexivity.
Qed.

End PrintOnce.

(** C6 (as the driver is written).  The parameter report (three lines in
    metres, two in pixels) is printed at most once in a run: what a run
    printed is nothing or exactly one report.  A run in which every mask
    already exists prints nothing.  When the first pair that is not skipped
    gets as far as the reconciled widths, the run prints exactly the report
    of that pair's values, whatever happens afterwards.  When that pair
    raises before it gets there, the run ends with its exception and has
    printed nothing. *)
Theorem C6_parameters_printed_once ext poly chip out cs bw fs st' r :
  multimasks_from_polygons ext poly chip out cs bw (start fs) = (st', r) ->
  (prints (trace st') = [] \/ exists res u, prints (trace st') = report res u) /\
  (forall pairs,
     get_tq_chip_label_pairs ext chip poly = Ok pairs ->
     Forall (fun t => is_Some (fs !! mask_of t)) (triples_of ext out pairs) ->
     prints (trace st') = []) /\
  (forall pre p post x,
     get_tq_chip_label_pairs ext chip poly = Ok (pre ++ p :: post) ->
     Forall (fun t => is_Some (fs !! mask_of t)) (triples_of ext out pre) ->
     fs !! construct_mask_filepath ext out (fst p) = None ->
     prepare_pair ext cs bw (snd p) (fst p) = Ok x ->
     prints (trace st') = report (ds_res (snd (fst x))) (snd x)) /\
  (forall pre p post e,
     get_tq_chip_label_pairs ext chip poly = Ok (pre ++ p :: post) ->
     Forall (fun t => is_Some (fs !! mask_of t)) (triples_of ext out pre) ->
     fs !! construct_mask_filepath ext out (fst p) = None ->
     prepare_pair ext cs bw (snd p) (fst p) = Raise e ->
     r = Raise e /\ prints (trace st') = []).
Proof.
  intros Hrun. rewrite driver_unfold in Hrun.
  split; [|split; [|split]].
  - destruct (get_tq_chip_label_pairs ext chip poly) as [[|pr pairs]|e].
    + injection Hrun as <- <-. left. reflexivity.
    + apply for_each_prints in Hrun; [|reflexivity]. exact Hrun.
    + injection Hrun as <- <-. left. reflexivity.
  - intros pairs Hpairs Hall. rewrite Hpairs in Hrun.
    destruct pairs as [|pr pairs].
    + injection Hrun as <- <-. reflexivity.
    + rewrite for_each_all_skipped in Hrun by exact Hall.
      injection Hrun as <- <-. simpl. apply prints_ticks.
  - intros pre p post x Hpairs Hpre Hm Hx. rewrite Hpairs in Hrun.
    assert (for_each ext cs bw (triples_of ext out (pre ++ p :: post))
              (at_loop_entry out (start fs)) = (st', r)) as Hloop.
    { destruct (pre ++ p :: post) eqn:Hl; [|exact Hrun].
      destruct pre; discriminate. }
    unfold triples_of in Hloop. rewrite map_app in Hloop.
    change (map ?f (p :: post)) with (f p :: map f post) in Hloop.
    cbv beta in Hloop.
    assert (first_iteration (at_loop_entry out (start fs)) = true) as Hflag
      by reflexivity.
    exact (for_each_first_report ext cs bw _ _ _ _ _ x _ _ _
             Hflag Hpre Hm Hx Hloop).
  - intros pre p post e Hpairs Hpre Hm Hx. rewrite Hpairs in Hrun.
    assert (for_each ext cs bw (triples_of ext out (pre ++ p :: post))
              (at_loop_entry out (start fs)) = (st', r)) as Hloop.
    { destruct (pre ++ p :: post) eqn:Hl; [|exact Hrun].
      destruct pre; discriminate. }
    unfold triples_of in Hloop. rewrite map_app in Hloop.
    change (map ?f (p :: post)) with (f p :: map f post) in Hloop.
    cbv beta in Hloop.
    exact (for_each_first_raises ext cs bw _ _ _ _ _ e
             (at_loop_entry out (start fs)) _ _ Hpre Hm Hx Hloop).
Qed.

Lemma C6_parameters_printed_once_witness :
  let ext := Demo.ext Demo.two_pairs "" false Demo.res01 in
  let run := multimasks_from_polygons ext "labels" "chips" "masks"
               default_contact_spacing default_boundary_width (start ∅) in
  prints (trace (fst run)) = report Demo.res01 (false, PyInt 5, PyInt 7).
Proof.
  intros ext run.
  destruct (C6_parameters_printed_once ext "labels" "chips" "masks"
              default_contact_spacing default_boundary_width ∅ (fst run) (snd run))
    as (_ & _ & Hfirst & _).
  - symmetry. apply surjective_pairing.
  - apply (Hfirst [] ("a.tif", "a.geojson") [("b.tif", "b.geojson")]
             (2%nat, 2%nat,
              mkGdf [Some (mkGeometry false "POLYGON ((0 0, 1 0, 1 1, 0 0))")]
                (Some "EPSG:4326"),
              Demo.tile Demo.res01,
              (false, PyInt 5, PyInt 7))).
    + reflexivity.
    + constructor.
    + reflexivity.
    + vm_compute. reflexivity.
Defined.

(** The claim as the specification words it fails: the first pair has no
    mask yet, so it is not skipped and the body is entered for it (the one
    tick), but its label cannot be read; the run ends there and has printed
    no parameter line at all. *)
Lemma C6_printed_exactly_once_counterexample :
  let ext := Demo.ext Demo.two_pairs "a.geojson" false Demo.res01 in
  let run := multimasks_from_polygons ext "labels" "chips" "masks"
               default_contact_spacing default_boundary_width (start ∅) in
  files (start ∅) !! construct_mask_filepath ext "masks" "a.tif" = None /\
  snd run = Raise (mkExc "DriverError" "a.geojson") /\
  ticks (trace (fst run)) = [EvTick] /\
  prints (trace (fst run)) = [].
Proof.
  cbv zeta. repeat split; vm_compute; reflexivity.
Qed.

(** ** What a run writes *)

Section Writes.

Context (ext : Externals) (cs bw : PyNum).

Lemma writes_app tr1 tr2 : writes (tr1 ++ tr2) = writes tr1 ++ writes tr2.
Proof. apply List.filter_app. Qed.

Lemma ticks_app tr1 tr2 : ticks (tr1 ++ tr2) = ticks tr1 ++ ticks tr2.
Proof. apply List.filter_app. Qed.

Lemma writes_report res u : writes (report res u) = [].
Proof. destruct u as [[[] b] c]; reflexivity. Qed.

Lemma ticks_report res u : ticks (report res u) = [].
Proof. destruct u as [[[] b] c]; reflexivity. Qed.

Lemma after_print_writes res u st :
  writes (trace (after_print res u st)) = writes (trace st).
Proof.
  unfold after_print. destruct (first_iteration st); [|reflexivity].
  simpl. rewrite writes_app, writes_report. apply app_nil_r.
Qed.

Lemma after_print_ticks res u st :
  ticks (trace (after_print res u st)) = ticks (trace st).
Proof.
  unfold after_print. destruct (first_iteration st); [|reflexivity].
  simpl. rewrite ticks_app, ticks_report. apply app_nil_r.
Qed.

Lemma In_writes p tr : In (EvWrite p) (writes tr) <-> In (EvWrite p) tr.
Proof.
  unfold writes. rewrite List.filter_In. split; [intros [H _]; exact H|].
  intros H. split; [exact H|reflexivity].
Qed.

(** A pass of the body writes nothing and leaves the files alone, or it
    raises after the rasteriser has left its raster at the mask path, where
    there was no file, or it completes and adds exactly one file, the
    encoded mask of the pair, at a path where there was none. *)
Lemma process_pair_effect json chip mask st st' r :
  process_pair ext cs bw (json, chip, mask) st = (st', r) ->
  ticks (trace st') = ticks (trace st) /\
  ((files st' = files st /\ writes (trace st') = writes (trace st))
   \/
   (exists e g,
      r = Raise e /\ files st !! mask = None /\
      writes (trace st') = writes (trace st) /\
      files st' = <[mask := g]> (files st))
   \/
   (r = Ok tt /\ files st !! mask = None /\
    writes (trace st') = writes (trace st) ++ [EvWrite mask] /\
    exists x f,
      prepare_pair ext cs bw json chip = Ok x /\
      encode_pair ext chip mask x = Ok f /\
      files st' = <[mask := f]> (files st))).
Proof.
  intros Hrun.
  destruct (files st !! mask) as [g|] eqn:Hm.
  { rewrite process_pair_skip in Hrun by (rewrite Hm; eauto).
    injection Hrun as <- <-. auto. }
  rewrite process_pair_eq in Hrun by assumption.
  destruct (prepare_pair ext cs bw json chip) as [x|e] eqn:Hx.
  2:{ injection Hrun as <- <-. auto. }
  cbv zeta in Hrun.
  destruct (encode_pair ext chip mask x) as [f|e] eqn:Hf.
  - unfold write_file in Hrun. injection Hrun as <- <-. simpl.
    rewrite ticks_app, after_print_ticks. simpl. rewrite app_nil_r.
    split; [reflexivity|]. right. right.
    rewrite writes_app, after_print_writes, after_print_files. simpl.
    repeat split; auto. exists x, f. auto.
  - injection Hrun as <- <-.
    rewrite leave_trace, after_print_ticks, after_print_writes.
    split; [reflexivity|].
    destruct (left_at_mask ext chip mask x) as [g|]; simpl.
    + right. left. exists e, g. rewrite after_print_files. auto.
    + left. rewrite after_print_files. auto.
Qed.

Lemma for_each_counts triples st st' r :
  for_each ext cs bw triples st = (st', r) ->
  (length (ticks (trace st')) <= length (ticks (trace st)) + length triples)%nat /\
  (r = Ok tt ->
   length (ticks (trace st')) = (length (ticks (trace st)) + length triples)%nat) /\
  (length (writes (trace st')) - length (writes (trace st))
   <= length (ticks (trace st')) - length (ticks (trace st)))%nat /\
  (length (writes (trace st)) <= length (writes (trace st')))%nat /\
  (length (ticks (trace st)) <= length (ticks (trace st')))%nat.
Proof.
  revert st. induction triples as [|[[json chip] mask] rest IH]; intros st Hrun.
  - injection Hrun as <- <-. simpl. repeat split; lia.
  - rewrite for_each_cons in Hrun.
    destruct (process_pair ext cs bw _ (after_tick st)) as [st1 res1] eqn:Hbody.
    apply process_pair_effect in Hbody as [Ht Hw]. simpl in Ht, Hw.
    rewrite ticks_app in Ht. simpl in Ht.
    assert (length (ticks (trace st1)) = S (length (ticks (trace st)))) as Ht'
      by (rewrite Ht, length_app; simpl; lia).
    rewrite writes_app in Hw. simpl in Hw. rewrite app_nil_r in Hw.
    assert (length (writes (trace st1)) = length (writes (trace st)) \/
            length (writes (trace st1)) = S (length (writes (trace st)))) as Hstep.
    { destruct Hw as [(_ & Hw)|[(e & g & _ & _ & Hw & _)|(_ & _ & Hw & _)]].
      - left. rewrite Hw. reflexivity.
      - left. rewrite Hw. reflexivity.
      - right. rewrite Hw, length_app. simpl. lia. }
    destruct res1 as [[]|e].
    + destruct (IH st1 Hrun) as (I1 & I2 & I3 & I4 & I5).
      cbn [length].
      repeat split; [| intros Hok; specialize (I2 Hok) | | |];
        destruct Hstep as [?|?]; lia.
    + injection Hrun as <- <-. cbn [length].
      repeat split; [| discriminate | | |];
        destruct Hstep as [?|?]; lia.
Qed.

(** The file at a path the loop has written (line 165) is the encoded mask
    of one of the pairs, still there when the loop ends. *)
Lemma for_each_written triples st st' r p :
  for_each ext cs bw triples st = (st', r) ->
  In (EvWrite p) (writes (trace st')) ->
  In (EvWrite p) (writes (trace st)) \/
  exists json chip x f,
    In (json, chip, p) triples /\
    prepare_pair ext cs bw json chip = Ok x /\
    encode_pair ext chip p x = Ok f /\
    files st' !! p = Some f.
Proof.
  revert st. induction triples as [|[[json chip] mask] rest IH]; intros st Hrun Hp.
  - injection Hrun as <- <-. auto.
  - rewrite for_each_cons in Hrun.
    destruct (process_pair ext cs bw _ (after_tick st)) as [st1 res1] eqn:Hbody.
    assert (In (EvWrite p) (writes (trace st1)) \/
            exists json chip x f,
              In (json, chip, p) rest /\
              prepare_pair ext cs bw json chip = Ok x /\
              encode_pair ext chip p x = Ok f /\
              files st' !! p = Some f) as Hrest.
    { destruct res1 as [[]|e].
      - apply (IH st1 Hrun Hp).
      - injection Hrun as <- <-. auto. }
    assert (forall f, files st1 !! p = Some f -> files st' !! p = Some f) as Hkeep.
    { intros f Hf. destruct res1 as [[]|e].
      - eapply for_each_keeps; [exact Hrun|exact Hf].
      - injection Hrun as <- <-. exact Hf. }
    destruct Hrest as [H1|(j & c & x & f & Hin & Hx & Hf & Hfile)].
    + apply process_pair_effect in Hbody
        as [_ [(_ & Hw)|[(e & g & _ & _ & Hw & _)|(_ & _ & Hw & x & f & Hx & Hf & Hfiles)]]];
        simpl in Hw; rewrite writes_app in Hw; simpl in Hw;
        rewrite app_nil_r in Hw.
      * left. rewrite <- Hw. exact H1.
      * left. rewrite <- Hw. exact H1.
      * rewrite Hw in H1. apply in_app_or in H1 as [H1|[H1|[]]]; [left; exact H1|].
        injection H1 as ->. right. exists json, chip, x, f.
        split; [left; reflexivity|]. split; [exact Hx|]. split; [exact Hf|].
        apply Hkeep. rewrite Hfiles. apply lookup_insert_eq.
    + right. exists j, c, x, f. split; [right; exact Hin|auto].
Qed.

(** A pass of the body that raises: nothing is written by line 165, the
    pair had no mask, and only its mask path can have changed. *)
Lemma process_pair_raise_files t st st' e :
  process_pair ext cs bw t st = (st', Raise e) ->
  writes (trace st') = writes (trace st) /\
  ticks (trace st') = ticks (trace st) /\
  files st !! mask_of t = None /\
  forall q, q <> mask_of t -> files st' !! q = files st !! q.
Proof.
  destruct t as [[json chip] mask]. unfold mask_of. cbn [snd]. intros Hrun.
  destruct (files st !! mask) as [f|] eqn:Hm.
  { rewrite process_pair_skip in Hrun by (rewrite Hm; eauto). discriminate. }
  apply process_pair_effect in Hrun
    as [Ht [(Hf & Hw)|[(e' & g & _ & _ & Hw & Hf)|(Hok & _)]]].
  - repeat split; auto. intros q _. rewrite Hf. reflexivity.
  - repeat split; auto. intros q Hq. rewrite Hf.
    apply lookup_insert_ne. congruence.
  - discriminate.
Qed.

(** What a pass of the body appends to the trace: the parameter report, if
    the flag was up and the pair got as far as the print, and the write of
    line 165, if the pass completed for a pair that was not skipped. *)
Lemma process_pair_trace json chip mask st st' r :
  process_pair ext cs bw (json, chip, mask) st = (st', r) ->
  exists rep wr,
    trace st' = trace st ++ rep ++ wr /\
    ((rep = [] /\ first_iteration st' = first_iteration st) \/
     (first_iteration st = true /\ first_iteration st' = false /\
      exists res u, rep = report res u)) /\
    (wr = [] \/ (wr = [EvWrite mask] /\ r = Ok tt)).
Proof.
  intros Hrun.
  destruct (files st !! mask) as [g|] eqn:Hm.
  { rewrite process_pair_skip in Hrun by (rewrite Hm; eauto).
    injection Hrun as <- <-. exists [], []. rewrite app_nil_r. auto. }
  rewrite process_pair_eq in Hrun by assumption.
  destruct (prepare_pair ext cs bw json chip) as [x|e] eqn:Hx.
  2:{ injection Hrun as <- <-. exists [], []. rewrite app_nil_r. auto. }
  cbv zeta in Hrun.
  assert (exists rep,
            trace (after_print (ds_res (snd (fst x))) (snd x) st) = trace st ++ rep /\
            ((rep = [] /\
              first_iteration (after_print (ds_res (snd (fst x))) (snd x) st)
              = first_iteration st) \/
             (first_iteration st = true /\
              first_iteration (after_print (ds_res (snd (fst x))) (snd x) st) = false /\
              exists res u, rep = report res u))) as (rep & Htr & Hrep).
  { unfold after_print. destruct (first_iteration st) eqn:Hf.
    - eexists. split; [reflexivity|]. right. eauto.
    - exists []. rewrite app_nil_r. auto. }
  destruct (encode_pair ext chip mask x) as [f|e].
  - unfold write_file in Hrun. injection Hrun as <- <-.
    exists rep, [EvWrite mask]. cbn [trace first_iteration].
    rewrite Htr, <- app_assoc. auto.
  - injection Hrun as <- <-. exists rep, [].
    rewrite leave_trace, leave_first, Htr, app_nil_r. auto.
Qed.

Lemma visible_app tr1 tr2 : visible (tr1 ++ tr2) = visible tr1 ++ visible tr2.
Proof. apply List.filter_app. Qed.

Lemma visible_report res u : visible (report res u) = report res u.
Proof. destruct u as [[[] b] c]; reflexivity. Qed.

Lemma visible_ticks n : visible (repeat EvTick n) = repeat EvTick n.
Proof. induction n; [reflexivity|]. simpl. f_equal. exact IHn. Qed.

(** What a pass of the body shows: nothing, or the parameter report, and then
    the flag is down. *)
Lemma process_pair_visible json chip mask st st' r :
  process_pair ext cs bw (json, chip, mask) st = (st', r) ->
  (visible (trace st') = visible (trace st) /\
   first_iteration st' = first_iteration st) \/
  (first_iteration st = true /\ first_iteration st' = false /\
   exists res u, visible (trace st') = visible (trace st) ++ report res u).
Proof.
  intros Hrun.
  apply process_pair_trace in Hrun as (rep & wr & Htr & Hrep & Hwr).
  assert (visible wr = []) as Hvw
    by (destruct Hwr as [->|[-> _]]; reflexivity).
  rewrite Htr, !visible_app, Hvw, app_nil_r.
  destruct Hrep as [[-> Hf]|(Hf & Hf' & res & u & ->)].
  - left. rewrite app_nil_r. auto.
  - right. rewrite visible_report. eauto.
Qed.

(** Once the flag is down the loop shows one tick per pair reached and
    nothing else. *)
Lemma for_each_visible_down triples st st' r :
  first_iteration st = false ->
  for_each ext cs bw triples st = (st', r) ->
  exists n,
    (n <= length triples)%nat /\
    (r = Ok tt -> n = length triples) /\
    visible (trace st') = visible (trace st) ++ repeat EvTick n.
Proof.
  revert st. induction triples as [|[[json chip] mask] rest IH]; intros st Hf Hrun.
  - injection Hrun as <- <-. exists 0%nat. simpl. rewrite app_nil_r. auto.
  - rewrite for_each_cons in Hrun.
    destruct (process_pair ext cs bw _ (after_tick st)) as [st1 res1] eqn:Hbody.
    apply process_pair_visible in Hbody as [[Hv Hf1]|(Hup & _)];
      [|simpl in Hup; congruence].
    simpl in Hv, Hf1. rewrite visible_app in Hv. simpl in Hv.
    destruct res1 as [[]|e].
    + destruct (IH st1 ltac:(congruence) Hrun) as (n & Hn & Hok & Hvis).
      exists (S n). cbn [length]. split; [lia|]. split; [intros H; rewrite Hok; auto|].
      rewrite Hvis, Hv, <- app_assoc. reflexivity.
    + injection Hrun as <- <-. exists 1%nat. cbn [length].
      split; [lia|]. split; [discriminate|]. exact Hv.
Qed.

(** What the loop shows: a tick per pair reached and, after one of the
    ticks, at most one parameter report. *)
Lemma for_each_visible triples st st' r :
  for_each ext cs bw triples st = (st', r) ->
  exists n m rep,
    visible (trace st') =
      visible (trace st) ++ repeat EvTick n ++ rep ++ repeat EvTick m /\
    (rep = [] \/ exists res u, rep = report res u) /\
    (n + m <= length triples)%nat /\
    (r = Ok tt -> (n + m)%nat = length triples).
Proof.
  revert st. induction triples as [|[[json chip] mask] rest IH]; intros st Hrun.
  - injection Hrun as <- <-. exists 0%nat, 0%nat, []. simpl.
    rewrite app_nil_r. auto.
  - rewrite for_each_cons in Hrun.
    destruct (process_pair ext cs bw _ (after_tick st)) as [st1 res1] eqn:Hbody.
    apply process_pair_visible in Hbody
      as [[Hv Hf1]|(_ & Hdown & res & u & Hv)];
      simpl in Hv; rewrite visible_app in Hv; simpl in Hv.
    + destruct res1 as [[]|e].
      * destruct (IH st1 Hrun) as (n & m & rep & Hvis & Hrep & Hle & Hok).
        exists (S n), m, rep. cbn [length].
        split; [rewrite Hvis, Hv, <- app_assoc; reflexivity|].
        split; [exact Hrep|]. split; [lia|].
        intros H. specialize (Hok H). lia.
      * injection Hrun as <- <-. exists 1%nat, 0%nat, []. cbn [length].
        split; [rewrite Hv; reflexivity|].
        split; [auto|]. split; [lia|discriminate].
    + destruct res1 as [[]|e].
      * destruct (for_each_visible_down _ _ _ _ Hdown Hrun) as (m & Hm & Hok & Hvis).
        exists 1%nat, m, (report res u). cbn [length].
        split; [rewrite Hvis, Hv, <- !app_assoc; reflexivity|].
        split; [eauto|]. split; [lia|].
        intros H. specialize (Hok H). lia.
      * injection Hrun as <- <-. exists 1%nat, 0%nat, (report res u). cbn [length].
        split; [rewrite Hv, <- app_assoc; simpl; rewrite ?app_nil_r; reflexivity|].
        split; [eauto|]. split; [lia|discriminate].
Qed.

End Writes.

(** ** A failing pair *)

(** C1 (as the driver is written).  The loop has no handler: when the body
    raises for one pair, after the pairs before it went through, the
    exception leaves [multimasks_from_polygons] as it is and the run stops
    in the state the failing body left.  All the failing pass has shown is
    its progress tick and, if it was the first to get that far, the
    parameter report: nothing about the failure.  Line 165 has not written
    that pair's mask, the pair had no mask before, every path other than its
    mask path is as the pairs before it left it, and the failing pair is the
    last one the loop has reached: no pair after it is processed. *)
Theorem C1_failure_aborts_run ext poly chip out cs bw fs pre p post st1 st2 e :
  get_tq_chip_label_pairs ext chip poly = Ok (pre ++ p :: post) ->
  for_each ext cs bw (triples_of ext out pre) (at_loop_entry out (start fs))
    = (st1, Ok tt) ->
  for_each ext cs bw (triples_of ext out [p]) st1 = (st2, Raise e) ->
  multimasks_from_polygons ext poly chip out cs bw (start fs) = (st2, Raise e) /\
  (exists rep,
     trace st2 = trace st1 ++ EvTick :: rep /\
     (rep = [] \/ exists res u, rep = report res u)) /\
  writes (trace st2) = writes (trace st1) /\
  files st1 !! construct_mask_filepath ext out (fst p) = None /\
  (forall q, q <> construct_mask_filepath ext out (fst p) ->
             files st2 !! q = files st1 !! q) /\
  length (ticks (trace st2)) = S (length pre).
Proof.
  intros Hpairs Hpre Hp.
  rewrite driver_unfold, Hpairs.
  assert (for_each ext cs bw (triples_of ext out (pre ++ p :: post))
            (at_loop_entry out (start fs)) = (st2, Raise e)) as Hrun.
  { unfold triples_of. rewrite map_app. rewrite for_each_app.
    fold (triples_of ext out pre). rewrite Hpre.
    change (map ?f (p :: post)) with (f p :: map f post).
    rewrite for_each_cons.
    unfold triples_of in Hp. cbn [map] in Hp. rewrite for_each_cons in Hp.
    destruct (process_pair ext cs bw _ (after_tick st1)) as [st' [[]|e']].
    - discriminate Hp.
    - exact Hp. }
  split.
  { destruct (pre ++ p :: post) eqn:Hl; [|exact Hrun].
    destruct pre; discriminate. }
  apply for_each_counts in Hpre as (_ & Hticks & _).
  specialize (Hticks eq_refl). unfold triples_of in Hticks.
  rewrite length_map in Hticks. simpl in Hticks.
  unfold triples_of in Hp. cbn [map] in Hp. rewrite for_each_cons in Hp.
  destruct (process_pair ext cs bw _ (after_tick st1)) as [st' [[]|e']] eqn:Hbody.
  - discriminate Hp.
  - injection Hp as <- <-.
    pose proof (process_pair_trace _ _ _ _ _ _ _ _ _ Hbody)
      as (rep & wr & Htr & Hrep & Hwr).
    apply process_pair_raise_files in Hbody as (Hw & Ht & Hnone & Hother).
    simpl in Hw, Ht, Hnone, Hother. unfold mask_of in Hnone, Hother.
    simpl in Hnone, Hother.
    rewrite writes_app in Hw. simpl in Hw. rewrite app_nil_r in Hw.
    rewrite ticks_app in Ht. simpl in Ht.
    split.
    { exists rep. destruct Hwr as [->|[_ Hok]]; [|discriminate Hok].
      simpl in Htr. rewrite app_nil_r, <- app_assoc in Htr.
      split; [exact Htr|].
      destruct Hrep as [[-> _]|(_ & _ & res & u & ->)]; eauto. }
    repeat split; auto.
    rewrite Ht, length_app, Hticks. simpl. lia.
Qed.

Lemma C1_failure_aborts_run_witness :
  let ext := Demo.ext_late Demo.two_pairs "masks/b.tif.mask.tif" false Demo.res01 in
  let run := multimasks_from_polygons ext "labels" "chips" "masks"
               default_contact_spacing default_boundary_width (start ∅) in
  let st1 := fst (for_each ext default_contact_spacing default_boundary_width
                    (triples_of ext "masks" [("a.tif", "a.geojson")])
                    (at_loop_entry "masks" (start ∅))) in
  run = (fst run, Raise (mkExc "RasterioIOError" "masks/b.tif.mask.tif")) /\
  (exists rep,
     trace (fst run) = trace st1 ++ EvTick :: rep /\
     (rep = [] \/ exists res u, rep = report res u)) /\
  writes (trace (fst run)) = writes (trace st1) /\
  files st1 !! "masks/b.tif.mask.tif" = None /\
  (forall q, q <> "masks/b.tif.mask.tif" -> files (fst run) !! q = files st1 !! q) /\
  length (ticks (trace (fst run))) = 2%nat.
Proof.
  intros ext run st1.
  apply (C1_failure_aborts_run ext
           "labels" "chips" "masks" default_contact_spacing default_boundary_width
           ∅ [("a.tif", "a.geojson")] ("b.tif", "b.geojson") []).
  - reflexivity.
  - vm_compute. reflexivity.
  - vm_compute. reflexivity.
Defined.

(** The claim as the specification words it fails: of two pairs, the first
    cannot be read and the second can.  The run ends with the first pair's
    exception after one tick, and the second pair's mask, which the loop
    would have written had it been reached, is not there. *)
Lemma C1_failure_isolation_counterexample :
  let ext := Demo.ext Demo.two_pairs "a.geojson" false Demo.res01 in
  let run := multimasks_from_polygons ext "labels" "chips" "masks"
               default_contact_spacing default_boundary_width (start ∅) in
  snd run = Raise (mkExc "DriverError" "a.geojson") /\
  ticks (trace (fst run)) = [EvTick] /\
  files (fst run) !! "masks/b.tif.mask.tif" = None /\
  exists st',
    for_each ext default_contact_spacing default_boundary_width
      (triples_of ext "masks" [("b.tif", "b.geojson")])
      (at_loop_entry "masks" (start ∅)) = (st', Ok tt) /\
    is_Some (files st' !! "masks/b.tif.mask.tif").
Proof.
  cbv zeta. split; [vm_compute; reflexivity|].
  split; [vm_compute; reflexivity|].
  split; [vm_compute; reflexivity|].
  eexists. split; [vm_compute; reflexivity|].
  vm_compute. eauto.
Qed.

(** A failure after the rasteriser has returned: opening the first mask for
    writing raises.  The run ends there without a write of line 165, yet the
    rasteriser's three-band raster is at the first mask path; a second run
    over the files the first left takes that pair for done, skips it, writes
    the second mask and completes. *)
Example late_failure_leaves_raster :
  let ext := Demo.ext_late Demo.two_pairs "masks/a.tif.mask.tif" false Demo.res01 in
  let run := multimasks_from_polygons ext "labels" "chips" "masks"
               default_contact_spacing default_boundary_width (start ∅) in
  let rerun := multimasks_from_polygons ext "labels" "chips" "masks"
                 default_contact_spacing default_boundary_width
                 (start (files (fst run))) in
  snd run = Raise (mkExc "RasterioIOError" "masks/a.tif.mask.tif") /\
  writes (trace (fst run)) = [] /\
  files (fst run) !! "masks/a.tif.mask.tif"
  = Some (Demo.onehot_file Demo.chip_meta (2%nat, 2%nat)) /\
  snd rerun = Ok tt /\
  writes (trace (fst rerun)) = [EvWrite "masks/b.tif.mask.tif"] /\
  files (fst rerun) !! "masks/a.tif.mask.tif"
  = Some (Demo.onehot_file Demo.chip_meta (2%nat, 2%nat)).
Proof.
  cbv zeta. repeat split; vm_compute; reflexivity.
Qed.

(** ** What a run reports *)

(** C8 (as the driver is written).  The driver has no [return] and keeps no
    counters: a run that completes yields [None], and all a run shows is one
    progress tick per pair reached, the same for a pair that is written and
    one that is skipped, with at most one parameter report after one of the
    ticks.  On every run, also one that an exception cuts short, there are
    at most as many ticks as pairs (exactly as many when the run completes)
    and no more writes than ticks. *)
Theorem C8_no_counts_reported ext poly chip out cs bw fs st' r pairs :
  get_tq_chip_label_pairs ext chip poly = Ok pairs ->
  multimasks_from_polygons ext poly chip out cs bw (start fs) = (st', r) ->
  (is_ok r = true -> r = Ok tt) /\
  (exists n m rep,
     visible (trace st') = repeat EvTick n ++ rep ++ repeat EvTick m /\
     (rep = [] \/ exists res u, rep = report res u) /\
     (n + m <= length pairs)%nat /\
     (r = Ok tt -> (n + m)%nat = length pairs)) /\
  (length (ticks (trace st')) <= length pairs)%nat /\
  (r = Ok tt -> length (ticks (trace st')) = length pairs) /\
  (length (writes (trace st')) <= length (ticks (trace st')))%nat.
Proof.
  intros Hpairs Hrun. rewrite driver_unfold, Hpairs in Hrun.
  split; [destruct r as [[]|e]; [reflexivity|discriminate]|].
  destruct pairs as [|pr pairs].
  - injection Hrun as <- <-. simpl. split.
    + exists 0%nat, 0%nat, []. simpl. split; [reflexivity|].
      split; [auto|]. split; [lia|discriminate].
    + repeat split; try lia; try discriminate.
  - split.
    { destruct (for_each_visible _ _ _ _ _ _ _ Hrun)
        as (n & m & rep & Hvis & Hrep & Hle & Hok).
      unfold triples_of in Hle, Hok. rewrite length_map in Hle, Hok.
      exists n, m, rep. auto. }
    apply for_each_counts in Hrun as (I1 & I2 & I3 & I4 & I5).
    unfold triples_of in I1, I2. rewrite length_map in I1, I2.
    change (trace (at_loop_entry out (start fs))) with [EvMkdir out] in *.
    change (ticks [EvMkdir out]) with (@nil Event) in *.
    change (writes [EvMkdir out]) with (@nil Event) in *.
    cbn [length] in *.
    repeat split; [| intros Hok; specialize (I2 Hok) |]; lia.
Qed.

Lemma C8_no_counts_reported_witness :
  let ext := Demo.ext Demo.two_pairs "" false Demo.res01 in
  let run := multimasks_from_polygons ext "labels" "chips" "masks"
               default_contact_spacing default_boundary_width (start ∅) in
  (length (ticks (trace (fst run))) <= 2)%nat /\
  (length (writes (trace (fst run))) <= length (ticks (trace (fst run))))%nat.
Proof.
  intros ext run.
  destruct (C8_no_counts_reported ext "labels" "chips" "masks"
              default_contact_spacing default_boundary_width ∅
              (fst run) (snd run) Demo.two_pairs)
    as (_ & _ & Hticks & _ & Hwrites).
  - reflexivity.
  - symmetry. apply surjective_pairing.
  - auto.
Defined.

(** The claim as the specification words it fails: two runs over the same
    two pairs, one into an empty directory and one into a directory that
    already holds the second mask, give back the same value and show the
    same ticks and printed lines, yet the first wrote two masks and skipped
    none and the second wrote one and skipped one. *)
Lemma C8_counts_counterexample :
  let ext := Demo.ext Demo.two_pairs "" false Demo.res01 in
  let old := mkRaster Demo.chip_meta Demo.onehot in
  let run_a := multimasks_from_polygons ext "labels" "chips" "masks"
                 default_contact_spacing default_boundary_width (start ∅) in
  let run_b := multimasks_from_polygons ext "labels" "chips" "masks"
                 default_contact_spacing default_boundary_width
                 (start (<["masks/b.tif.mask.tif" := old]> ∅)) in
  snd run_a = snd run_b /\
  visible (trace (fst run_a)) = visible (trace (fst run_b)) /\
  writes (trace (fst run_a)) =
    [EvWrite "masks/a.tif.mask.tif"; EvWrite "masks/b.tif.mask.tif"] /\
  writes (trace (fst run_b)) = [EvWrite "masks/a.tif.mask.tif"].
Proof.
  cbv zeta. repeat split; vm_compute; reflexivity.
Qed.

(** ** The written mask *)

Section Layout.

Context (ext : Externals) (cs bw : PyNum).

Lemma sparse_shape onehot h w c :
  shape3 onehot = (h, w, c) ->
  shape3 (to_channels_first (multimask_to_sparse_multimask onehot)) = (1%nat, h, w).
Proof.
  intros Hs. unfold multimask_to_sparse_multimask, to_channels_first.
  rewrite Hs. reflexivity.
Qed.

Lemma mask_meta_lookup src_meta sparse :
  fst (fst (shape3 sparse)) = 1%nat ->
  mask_meta src_meta sparse !! "count" = Some (MInt 1) /\
  mask_meta src_meta sparse !! "dtype" = Some (MStr "uint8") /\
  mask_meta src_meta sparse !! "nodata" = Some MNone /\
  forall k, k <> "count" -> k <> "dtype" -> k <> "nodata" ->
            mask_meta src_meta sparse !! k = src_meta !! k.
Proof.
  intros Hc. unfold mask_meta. cbv zeta. rewrite Hc.
  repeat split.
  - rewrite !lookup_insert_ne by discriminate. apply lookup_insert_eq.
  - rewrite lookup_insert_ne by discriminate. apply lookup_insert_eq.
  - apply lookup_insert_eq.
  - intros k H1 H2 H3. rewrite !lookup_insert_ne by congruence. reflexivity.
Qed.

(** The chip a prepared pair was made from: its header gave the shape, and
    it is the reference image. *)
Lemma prepare_pair_chip json chip shape gdf ref units :
  prepare_pair ext cs bw json chip = Ok (shape, gdf, ref, units) ->
  rio_open ext chip = Ok ref /\ shape = ds_shape ref.
Proof.
  unfold prepare_pair, load_pair, get_rasterio_shape_and_transform.
  unfold mbind, Result_bind.
  destruct (rio_open ext chip) as [src|e]; [|discriminate].
  destruct (read_file ext json) as [raw|e]; [|discriminate].
  destruct (decide _) as [Hne|Heq].
  - destruct (to_crs ext _ _) as [g|e]; [|discriminate].
    destruct (crs_is_metric ext g) as [m|e]; [|discriminate].
    destruct (reconcile_units _ _ _ _) as [u|e]; [|discriminate].
    intros [= <- <- <- <-]. auto.
  - destruct (crs_is_metric ext _) as [m|e]; [|discriminate].
    destruct (reconcile_units _ _ _ _) as [u|e]; [|discriminate].
    intros [= <- <- <- <-]. auto.
Qed.

Lemma encode_pair_layout json chip mask x f :
  prepare_pair ext cs bw json chip = Ok x ->
  encode_pair ext chip mask x = Ok f ->
  exists src onehot,
    rio_open ext chip = Ok src /\
    snd (df_to_px_mask ext (explode ext (snd (fst (fst x)))) mask (ds_shape src) src
           (snd (fst (snd x))) (snd (snd x)) (fst (fst (snd x)))) = Ok onehot /\
    shape3 (rf_bands f) =
      (1%nat, fst (fst (shape3 onehot)), snd (fst (shape3 onehot))) /\
    rf_meta f !! "count" = Some (MInt 1) /\
    rf_meta f !! "dtype" = Some (MStr "uint8") /\
    rf_meta f !! "nodata" = Some MNone /\
    forall k, k <> "count" -> k <> "dtype" -> k <> "nodata" ->
              rf_meta f !! k = ds_meta src !! k.
Proof.
  destruct x as [[[shape gdf] ref] [[meters b] c]]. intros Hx.
  apply prepare_pair_chip in Hx as [Hopen ->].
  unfold encode_pair, rasterise_pair, finish_pair.
  unfold mbind, Result_bind. rewrite Hopen. cbn [fst snd].
  destruct (df_to_px_mask ext (explode ext gdf) mask (ds_shape ref) ref b c meters)
    as [left [onehot|e]] eqn:Hdf; cbn [snd]; [|discriminate].
  destruct (rio_create ext mask _) as [left' [[]|e]]; cbn [snd]; [|discriminate].
  intros [= <-]. simpl.
  destruct (shape3 onehot) as [[h w] ch] eqn:Hs.
  pose proof (sparse_shape onehot h w ch Hs) as Hshape.
  exists ref, onehot. split; [reflexivity|]. split; [rewrite Hdf; reflexivity|].
  rewrite Hs. split; [exact Hshape|].
  apply mask_meta_lookup. rewrite Hshape. reflexivity.
Qed.

End Layout.

(** C9. Every mask the encoder writes (line 165) holds one band in
    channel-first layout, shape [(1, H, W)] for the [(H, W)] of the chip it
    was made from (the rasteriser answering with an array of the shape it
    is asked for), and carries the profile of that chip with [count] set to
    the number of bands written, which is 1, [dtype] set to [uint8] and
    [nodata] set to [None]; all other entries of the profile are the
    chip's.  The file is there when the run ends. *)
Theorem C9_mask_layout ext poly chip out cs bw fs st' r p :
  rasteriser_keeps_shape ext ->
  multimasks_from_polygons ext poly chip out cs bw (start fs) = (st', r) ->
  In (EvWrite p) (trace st') ->
  exists f chip_path src,
    files st' !! p = Some f /\
    p = construct_mask_filepath ext out chip_path /\
    rio_open ext chip_path = Ok src /\
    shape3 (rf_bands f) = (1%nat, fst (ds_shape src), snd (ds_shape src)) /\
    rf_meta f !! "count"
    = Some (MInt (Z.of_nat (fst (fst (shape3 (rf_bands f)))))) /\
    rf_meta f !! "count" = Some (MInt 1) /\
    rf_meta f !! "dtype" = Some (MStr "uint8") /\
    rf_meta f !! "nodata" = Some MNone /\
    forall k, k <> "count" -> k <> "dtype" -> k <> "nodata" ->
              rf_meta f !! k = ds_meta src !! k.
Proof.
  intros Hshape Hrun Hw. rewrite driver_unfold in Hrun.
  destruct (get_tq_chip_label_pairs ext chip poly) as [[|pr pairs]|e].
  - injection Hrun as <- <-. simpl in Hw.
    destruct Hw as [Hw|[]]. discriminate.
  - apply In_writes in Hw.
    destruct (for_each_written _ _ _ _ _ _ _ _ Hrun Hw)
      as [Hold|(json & chp & x & f & Hin & Hx & Henc & Hfile)].
    + simpl in Hold. destruct Hold.
    + unfold triples_of in Hin. apply in_map_iff in Hin as ([c l] & Heq & _).
      injection Heq as <- <- <-.
      destruct (encode_pair_layout _ _ _ _ _ _ _ f Hx Henc)
        as (src & onehot & Hopen & Hras & Hbands & Hmeta).
      apply Hshape in Hras.
      exists f, c, src. split; [exact Hfile|]. split; [reflexivity|].
      split; [exact Hopen|]. split; [rewrite Hbands, Hras; reflexivity|].
      split; [|exact Hmeta].
      rewrite Hbands. exact (proj1 Hmeta).
  - injection Hrun as <- <-. simpl in Hw.
    destruct Hw as [Hw|[]]. discriminate.
Qed.

Lemma C9_mask_layout_witness :
  let ext := Demo.ext Demo.two_pairs "" false Demo.res01 in
  let run := multimasks_from_polygons ext "labels" "chips" "masks"
               default_contact_spacing default_boundary_width (start ∅) in
  exists f chip_path src,
    files (fst run) !! "masks/a.tif.mask.tif" = Some f /\
    "masks/a.tif.mask.tif" = construct_mask_filepath ext "masks" chip_path /\
    rio_open ext chip_path = Ok src /\
    shape3 (rf_bands f) = (1%nat, fst (ds_shape src), snd (ds_shape src)) /\
    rf_meta f !! "count"
    = Some (MInt (Z.of_nat (fst (fst (shape3 (rf_bands f)))))) /\
    rf_meta f !! "count" = Some (MInt 1) /\
    rf_meta f !! "dtype" = Some (MStr "uint8") /\
    rf_meta f !! "nodata" = Some MNone /\
    forall k, k <> "count" -> k <> "dtype" -> k <> "nodata" ->
              rf_meta f !! k = ds_meta src !! k.
Proof.
  intros ext run.
  apply (C9_mask_layout ext "labels" "chips" "masks"
           default_contact_spacing default_boundary_width ∅
           (fst run) (snd run) "masks/a.tif.mask.tif").
  - intros gdf out_file [h w] reference_im b c meters onehot [= <-]. reflexivity.
  - symmetry. apply surjective_pairing.
  - apply (proj1 (In_writes _ _)). vm_compute. left. reflexivity.
Defined.

(** ** Thresholding *)

Section Threshold.

Lemma key_lt_irrefl k : ~ key_lt k k.
Proof. destruct k as [[a b] c]. unfold key_lt. lia. Qed.

Lemma key_lt_trans k1 k2 k3 : key_lt k1 k2 -> key_lt k2 k3 -> key_lt k1 k3.
Proof.
  destruct k1 as [[a1 b1] c1], k2 as [[a2 b2] c2], k3 as [[a3 b3] c3].
  unfold key_lt. lia.
Qed.

Lemma key_total k1 k2 : key_lt k1 k2 \/ k1 = k2 \/ key_lt k2 k1.
Proof.
  destruct k1 as [[a1 b1] c1], k2 as [[a2 b2] c2]. unfold key_lt.
  destruct (Z.lt_total a1 a2) as [?|[?|?]];
    destruct (Z.lt_total b1 b2) as [?|[?|?]];
    destruct (Z.lt_total c1 c2) as [?|[?|?]]; subst; auto; lia.
Qed.

Lemma flt_false_of_feq c v : feq v c = true -> flt c v = false.
Proof.
  intros Heq. destruct (flt c v) eqn:Hlt; [|reflexivity].
  apply flt_key in Hlt as (kc & kv & Hc & Hv & Hlt).
  apply feq_key in Heq as (kv' & kc' & Hv' & Hc' & ->).
  rewrite Hc in Hc'. rewrite Hv in Hv'.
  injection Hc' as ->. injection Hv' as ->.
  exfalso. exact (key_lt_irrefl _ Hlt).
Qed.

Lemma fkey_at_least_one x :
  at_least_one x ->
  exists k, fkey x = Some k /\ (key_lt (1, -52, 2 ^ 52) k \/ k = (1, -52, 2 ^ 52)).
Proof.
  destruct x as [s|s| |s m e]; simpl; try contradiction.
  - intros ->. eexists. split; [reflexivity|]. left. unfold key_lt. lia.
  - intros (-> & Hm & He). eexists. split; [reflexivity|].
    unfold key_lt.
    destruct (Z.eq_dec e (-52)) as [->|?];
      [destruct (Z.eq_dec (Z.pos m) (2 ^ 52)) as [->|?]|]; auto; left; lia.
Qed.

Lemma fkey_one : fkey (PyFloat.of_Z 1) = Some (1, -52, 2 ^ 52).
Proof. reflexivity. Qed.

Lemma fkey_zero : fkey (PyFloat.of_Z 0) = Some (0, 0, 0).
Proof. reflexivity. Qed.

(** For a confidence in [[0, 1)] the comparison with a class index, made on
    floats, is the comparison of the index with zero. *)
Lemma where_index_gt_unit c (k : nat) :
  fle (PyFloat.of_Z 0) c = true ->
  flt c (PyFloat.of_Z 1) = true ->
  where_index_gt c k = if (1 <=? k)%nat then 1 else 0.
Proof.
  intros H0 H1. unfold where_index_gt.
  apply fle_key in H0 as (k0 & kc & Hk0 & Hkc & H0).
  rewrite fkey_zero in Hk0. injection Hk0 as <-.
  apply flt_key in H1 as (kc' & k1 & Hkc' & Hk1 & H1).
  rewrite fkey_one in Hk1. injection Hk1 as <-.
  rewrite Hkc in Hkc'. injection Hkc' as <-.
  destruct k as [|k].
  - change (Z.of_nat 0) with 0. cbn [Nat.leb].
    destruct (flt c (PyFloat.of_Z 0)) eqn:Hlt; [|reflexivity].
    apply flt_key in Hlt as (kc' & k0 & Hkc' & Hk0 & Hlt).
    rewrite fkey_zero in Hk0. injection Hk0 as <-.
    rewrite Hkc in Hkc'. injection Hkc' as <-.
    exfalso. destruct H0 as [H0| <-].
    + exact (key_lt_irrefl _ (key_lt_trans _ _ _ H0 Hlt)).
    + exact (key_lt_irrefl _ Hlt).
  - cbn [Nat.leb].
    destruct (Z.of_nat (S k)) as [|p|p] eqn:Hp; try lia.
    destruct (fkey_at_least_one _ (of_Z_pos_big p)) as (kp & Hkp & Hge).
    assert (flt c (PyFloat.of_Z (Z.pos p)) = true) as ->; [|reflexivity].
    apply flt_key. exists kc, kp. split; [exact Hkc|]. split; [exact Hkp|].
    destruct Hge as [Hge| ->]; [exact (key_lt_trans _ _ _ H1 Hge)|exact H1].
Qed.

End Threshold.

(** ** The masks the dispatcher writes *)

Section Written.

Context (ext : PredictExternals).

Lemma written_by_refl Q st : written_by Q st st.
Proof. intros p m H. left. exact H. Qed.

Lemma written_by_trans Q st1 st2 st3 :
  written_by Q st1 st2 -> written_by Q st2 st3 -> written_by Q st1 st3.
Proof.
  intros H12 H23 p m H. destruct (H23 p m H) as [H2|HQ]; [|right; exact HQ].
  exact (H12 p m H2).
Qed.

Lemma save_mask_written (Q : list Z -> Prop) mask path st :
  Q mask -> written_by Q st (fst (save_mask mask path st)).
Proof.
  intros HQ p m. unfold save_mask. simpl.
  destruct (decide (path = p)) as [->|Hne].
  - rewrite lookup_insert_eq. intros [= <-]. right. exact HQ.
  - rewrite lookup_insert_ne by exact Hne. auto.
Qed.

Lemma for_range_written {A} (Q : list Z -> Prop) (body : A -> P unit) items :
  (forall a st st' r, In a items -> body a st = (st', r) -> written_by Q st st') ->
  forall st st' r, for_range body items st = (st', r) -> written_by Q st st'.
Proof.
  induction items as [|a items IH]; intros Hbody st st' r Hrun.
  - injection Hrun as <- <-. apply written_by_refl.
  - cbn [for_range] in Hrun. unfold mbind, P_bind in Hrun.
    destruct (body a st) as [st1 [[]|e]] eqn:Ha.
    + eapply written_by_trans.
      * eapply Hbody; [left; reflexivity|exact Ha].
      * eapply IH; [|exact Hrun]. intros b s s' r' Hin. apply Hbody.
        right. exact Hin.
    + injection Hrun as <- <-. eapply Hbody; [left; reflexivity|exact Ha].
Qed.

Lemma index_In {A} (l : list A) i a : index l i = Ok a -> In a l.
Proof.
  unfold index. destruct (l !! i) as [b|] eqn:Hl; [|discriminate].
  intros [= <-]. apply list_elem_of_In. eapply list_elem_of_lookup_2. exact Hl.
Qed.

Lemma save_batch_written (Q : list Z -> Prop) out preds batch :
  (forall m, In m preds -> Q m) ->
  forall idx st st' r,
    save_batch ext out preds idx batch st = (st', r) -> written_by Q st st'.
Proof.
  intros HQ. induction batch as [|path rest IH]; intros idx st st' r Hrun.
  - injection Hrun as <- <-. apply written_by_refl.
  - cbn [save_batch] in Hrun. unfold mbind, P_bind, plift in Hrun.
    destruct (index preds idx) as [mask|e] eqn:Hi.
    + assert (Q mask) as Hmask by (apply HQ; eapply index_In; exact Hi).
      pose proof (save_mask_written Q mask (mask_png ext out path) st Hmask) as Hs.
      unfold save_mask in *. simpl in *.
      eapply written_by_trans; [exact Hs|]. eapply IH. exact Hrun.
    + injection Hrun as <- <-. apply written_by_refl.
Qed.

Lemma keras_batch_written f paths out c i st st' r :
  keras_batch ext f paths out c i st = (st', r) ->
  written_by (dense_mask f c) st st'.
Proof.
  unfold keras_batch, mbind, P_bind, plift.
  destruct (open_images ext _) as [images|e]; [|intros [= <- <-]; apply written_by_refl].
  destruct (reshape_images images) as [images'|e];
    [|intros [= <- <-]; apply written_by_refl].
  destruct (f images') as [scores|e] eqn:Hf;
    [|intros [= <- <-]; apply written_by_refl].
  destruct (argmax_last_axis scores) as [indices|e] eqn:Ha;
    [|intros [= <- <-]; apply written_by_refl].
  apply save_batch_written.
  intros m Hm. apply in_map_iff in Hm as (row & <- & Hrow).
  exists images', scores, indices, row. auto.
Qed.

Lemma dense_written f paths out c st st' r :
  predict_dispatch ext (KerasModel f) paths out c st = (st', r) ->
  written_by (dense_mask f c) st st'.
Proof.
  cbn [predict_dispatch]. apply for_range_written.
  intros i s s' r' _. apply keras_batch_written.
Qed.

End Written.

(** ** The maximum over the instance masks *)

Section MaxOverMasks.

Lemma fkey_not_nan x : is_nan x = false -> exists k, fkey x = Some k.
Proof. destruct x as [[]|[]| |[] m e]; simpl; try discriminate; eauto. Qed.

Lemma fle_refl x : is_nan x = false -> fle x x = true.
Proof.
  intros Hx. destruct (fkey_not_nan x Hx) as [k Hk].
  apply fle_key. exists k, k. auto.
Qed.

Lemma fle_trans x y z : fle x y = true -> fle y z = true -> fle x z = true.
Proof.
  intros Hxy Hyz.
  apply fle_key in Hxy as (kx & ky & Hkx & Hky & Hxy).
  apply fle_key in Hyz as (ky' & kz & Hky' & Hkz & Hyz).
  rewrite Hky in Hky'. injection Hky' as <-.
  apply fle_key. exists kx, kz. split; [exact Hkx|]. split; [exact Hkz|].
  destruct Hxy as [Hxy| ->]; [|exact Hyz].
  destruct Hyz as [Hyz| <-]; [|left; exact Hxy].
  left. exact (key_lt_trans _ _ _ Hxy Hyz).
Qed.

Lemma is_nan_fmax a b : is_nan (fmax a b) = is_nan a || is_nan b.
Proof.
  unfold fmax. destruct (is_nan a) eqn:Ha; [exact Ha|].
  destruct (is_nan b) eqn:Hb; [exact Hb|].
  destruct (flt a b); simpl; assumption.
Qed.

Lemma fmax_bounds a b :
  is_nan a = false -> is_nan b = false ->
  (fmax a b = a \/ fmax a b = b) /\
  fle a (fmax a b) = true /\ fle b (fmax a b) = true.
Proof.
  intros Ha Hb. unfold fmax. rewrite Ha, Hb.
  destruct (fkey_not_nan a Ha) as [ka Hka].
  destruct (fkey_not_nan b Hb) as [kb Hkb].
  destruct (flt a b) eqn:Hlt.
  - split; [right; reflexivity|]. split; [|apply fle_refl; exact Hb].
    apply flt_key in Hlt as (ka' & kb' & Hka' & Hkb' & Hlt).
    apply fle_key. exists ka', kb'. auto.
  - split; [left; reflexivity|]. split; [apply fle_refl; exact Ha|].
    apply fle_key. exists kb, ka. split; [exact Hkb|]. split; [exact Hka|].
    destruct (key_total ka kb) as [Hab|[->|Hba]]; auto.
    assert (flt a b = true) as Habs
      by (apply flt_key; exists ka, kb; auto).
    congruence.
Qed.

Lemma foldl_fmax_max ys x0 : is_max_of (foldl fmax x0 ys) (x0 :: ys).
Proof.
  revert x0. induction ys as [|y ys IH]; intros x0.
  - unfold is_max_of. simpl. rewrite orb_false_r.
    destruct (is_nan x0) eqn:Hx; [reflexivity|].
    split; [left; reflexivity|]. constructor; [|constructor].
    apply fle_refl. exact Hx.
  - cbn [foldl]. specialize (IH (fmax x0 y)).
    unfold is_max_of in *. cbn [existsb] in *.
    rewrite is_nan_fmax in IH. rewrite orb_assoc.
    destruct (is_nan x0 || is_nan y) eqn:Hn; [exact IH|].
    apply orb_false_iff in Hn as [Hx Hy]. cbn [orb] in IH.
    destruct (existsb is_nan ys); [exact IH|].
    destruct IH as [Hin Hall].
    destruct (fmax_bounds x0 y Hx Hy) as (Hsel & Hlx & Hly).
    inversion Hall as [|? ? Hm Hrest]; subst.
    split.
    + destruct Hin as [Hin|Hin].
      * rewrite <- Hin. destruct Hsel as [->| ->]; simpl; auto.
      * right. right. exact Hin.
    + constructor; [exact (fle_trans _ _ _ Hlx Hm)|].
      constructor; [exact (fle_trans _ _ _ Hly Hm)|exact Hrest].
Qed.

Lemma foldl_zip_lookup ms (m : list pyfloat) j x :
  foldl (zip_with fmax) m ms !! j = Some x ->
  exists x0 col, m !! j = Some x0 /\ column j ms col /\ x = foldl fmax x0 col.
Proof.
  revert m. induction ms as [|m1 ms IH]; intros m Hx.
  - exists x, []. split; [exact Hx|]. split; [constructor|reflexivity].
  - cbn [foldl] in Hx. apply IH in Hx as (x0' & col' & Hz & Hcol & ->).
    apply lookup_zip_with_Some in Hz as (a & b & -> & Ha & Hb).
    exists a, (b :: col'). split; [exact Ha|]. split; [|reflexivity].
    constructor; assumption.
Qed.

Lemma max_dim0_pixel r v j x :
  max_dim0 r = Ok v -> v !! j = Some x ->
  exists stack col, masks r = Some stack /\ column j stack col /\ is_max_of x col.
Proof.
  unfold max_dim0. destruct (masks r) as [[|m ms]|]; try discriminate.
  intros [= <-] Hx.
  apply foldl_zip_lookup in Hx as (x0 & col & Hm & Hcol & ->).
  exists (m :: ms), (x0 :: col). split; [reflexivity|].
  split; [constructor; assumption|apply foldl_fmax_max].
Qed.

End MaxOverMasks.

Section WrittenStream.

Context (ext : PredictExternals).

Lemma fastsam_step_written results paths out c i drawn st st' r :
  In drawn results ->
  fastsam_step ext paths out c (i, drawn) st = (st', r) ->
  written_by (sam_mask results c) st st'.
Proof.
  intros Hin. unfold fastsam_step, mbind, P_bind, plift.
  destruct drawn as [res|e]; [|intros [= <- <-]; apply written_by_refl].
  destruct (max_dim0 res) as [v|e] eqn:Hv;
    [|intros [= <- <-]; apply written_by_refl].
  destruct (index paths i) as [path|e];
    [|intros [= <- <-]; apply written_by_refl].
  intros Hsave.
  pose proof (save_mask_written (sam_mask results c)
                (map (where_value_gt c) v) (mask_png ext out path) st) as Hs.
  rewrite Hsave in Hs. apply Hs.
  destruct (masks res) as [stack|] eqn:Hm.
  - exists res, stack, v. repeat split; auto.
    intros j x Hx.
    destruct (max_dim0_pixel res v j x Hv Hx) as (stack' & col & Hm' & Hcol & Hmax).
    rewrite Hm in Hm'. injection Hm' as <-. eauto.
  - unfold max_dim0 in Hv. rewrite Hm in Hv. discriminate.
Qed.

Lemma In_imap_pair {A} (l : list A) i a :
  In (i, a) (imap (fun i r => (i, r)) l) -> In a l.
Proof.
  intros Hin. apply list_elem_of_In, list_elem_of_lookup in Hin as [k Hk].
  rewrite list_lookup_imap in Hk.
  destruct (l !! k) as [b|] eqn:Hl; [|discriminate].
  injection Hk as <- <-.
  apply list_elem_of_In. eapply list_elem_of_lookup_2. exact Hl.
Qed.

Lemma stream_written call paths out c st st' r :
  predict_dispatch ext (FastSAMModel call) paths out c st = (st', r) ->
  written_by (sam_mask (call paths) c) st st'.
Proof.
  cbn [predict_dispatch]. apply for_range_written.
  intros [i drawn] s s' r' Hin.
  apply fastsam_step_written. exact (In_imap_pair _ _ _ Hin).
Qed.

End WrittenStream.

(** ** Batching *)

Section Batching.

Lemma chunks_concat {A} (n : nat) (l : list A) (k : nat) :
  (length l <= n * k)%nat ->
  concat (map (fun i => take n (drop (n * i) l)) (seq 0 k)) = l.
Proof.
  revert l. induction k as [|k IH]; intros l Hlen.
  - destruct l; simpl in *; [reflexivity|lia].
  - cbn [seq map concat]. rewrite <- seq_shift, map_map.
    rewrite Nat.mul_0_r, drop_0.
    rewrite (map_ext _ (fun i => take n (drop (n * i) (drop n l)))).
    + rewrite IH by (rewrite length_drop; lia). apply take_drop.
    + intros i. rewrite drop_drop. do 2 f_equal. lia.
Qed.

Lemma batches_concat (image_paths : list string) :
  concat (batches image_paths) = image_paths.
Proof.
  unfold batches. apply chunks_concat. unfold BATCH_SIZE.
  pose proof (Nat.div_mod_eq (length image_paths + 8 - 1) 8).
  pose proof (Nat.mod_upper_bound (length image_paths + 8 - 1) 8).
  lia.
Qed.

Lemma batches_size (image_paths : list string) :
  Forall (fun b => (length b <= BATCH_SIZE)%nat) (batches image_paths).
Proof.
  unfold batches. apply Forall_forall. intros b Hb.
  apply list_elem_of_In, in_map_iff in Hb as (i & <- & _).
  rewrite length_take. lia.
Qed.

End Batching.

(** ** Models the dispatcher refuses *)

Section Refused.

Context (ext : PredictExternals).

Lemma predict_raises_in_dispatch ckpt inp out c st model e :
  initialize_model ext ckpt = Ok model ->
  (forall paths s, predict_dispatch ext model paths out c s = (s, Raise e)) ->
  exists st',
    predict ext ckpt inp out c st = (st', Raise e) /\ pfiles st' = pfiles st.
Proof.
  intros Hinit Hdisp. unfold predict, mbind, P_bind, pprint, plift.
  rewrite Hinit, Hdisp. eexists. split; reflexivity.
Qed.

End Refused.

(** ** The mask each image gets *)

Section Content.

Context (ext : PredictExternals).

Lemma for_range_cons {A} (body : A -> P unit) a rest st :
  for_range body (a :: rest) st =
  match body a st with
  | (st1, Ok _) => for_range body rest st1
  | (st1, Raise e) => (st1, Raise e)
  end.
Proof. reflexivity. Qed.

Lemma for_range_split {A} (body : A -> P unit) pre a post st st' :
  for_range body (pre ++ a :: post) st = (st', Ok tt) ->
  exists s1 s2,
    for_range body pre st = (s1, Ok tt) /\
    body a s1 = (s2, Ok tt) /\
    for_range body post s2 = (st', Ok tt).
Proof.
  revert st. induction pre as [|b pre IH]; intros st Hrun.
  - change ([] ++ a :: post) with (a :: post) in Hrun.
    rewrite for_range_cons in Hrun.
    destruct (body a st) as [s2 [[]|e]] eqn:Ha; [|discriminate].
    exists st, s2. auto.
  - change ((b :: pre) ++ a :: post) with (b :: (pre ++ a :: post)) in Hrun.
    rewrite for_range_cons in Hrun. rewrite for_range_cons.
    destruct (body b st) as [sb [[]|e]] eqn:Hb; [|discriminate].
    exact (IH sb Hrun).
Qed.

Lemma for_range_leaves {A} (body : A -> P unit) items p :
  (forall a s s' r, In a items -> body a s = (s', r) ->
                    pfiles s' !! p = pfiles s !! p) ->
  forall st st' r,
    for_range body items st = (st', r) -> pfiles st' !! p = pfiles st !! p.
Proof.
  induction items as [|a items IH]; intros Hbody st st' r Hrun.
  - injection Hrun as <- <-. reflexivity.
  - rewrite for_range_cons in Hrun.
    destruct (body a st) as [s1 [[]|e]] eqn:Ha.
    + rewrite (IH (fun b s s' r' Hin => Hbody b s s' r' (or_intror Hin)) _ _ _ Hrun).
      exact (Hbody a st s1 _ (or_introl eq_refl) Ha).
    + injection Hrun as <- <-.
      exact (Hbody a st s1 _ (or_introl eq_refl) Ha).
Qed.

Lemma index_lookup {A} (l : list A) i a : index l i = Ok a -> l !! i = Some a.
Proof. unfold index. destruct (l !! i); [intros [= <-]; reflexivity|discriminate]. Qed.

Lemma save_batch_cons out preds idx path rest st :
  save_batch ext out preds idx (path :: rest) st =
  match index preds idx with
  | Ok mask =>
      save_batch ext out preds (S idx) rest
        (mkPState (<[mask_png ext out path := mask]> (pfiles st)) (pout st))
  | Raise e => (st, Raise e)
  end.
Proof.
  cbn [save_batch]. unfold mbind, P_bind, plift, save_mask.
  destruct (index preds idx); reflexivity.
Qed.

Lemma save_batch_leaves out preds batch p :
  (forall path, In path batch -> mask_png ext out path <> p) ->
  forall idx st st' r,
    save_batch ext out preds idx batch st = (st', r) ->
    pfiles st' !! p = pfiles st !! p.
Proof.
  induction batch as [|path rest IH]; intros Hne idx st st' r Hrun.
  - injection Hrun as <- <-. reflexivity.
  - rewrite save_batch_cons in Hrun.
    destruct (index preds idx) as [mask|e].
    + rewrite (IH (fun q Hin => Hne q (or_intror Hin)) _ _ _ _ Hrun). simpl.
      apply lookup_insert_ne. apply Hne. left. reflexivity.
    + injection Hrun as <- <-. reflexivity.
Qed.

(** A batch that is saved through has a mask for every path, and the file
    of a path is that mask unless a later path of the batch has the same
    output name. *)
Lemma save_batch_content out preds batch :
  forall idx st st' k path,
    save_batch ext out preds idx batch st = (st', Ok tt) ->
    batch !! k = Some path ->
    exists mask,
      preds !! (idx + k)%nat = Some mask /\
      ((forall k' path', (k < k')%nat -> batch !! k' = Some path' ->
                         mask_png ext out path' <> mask_png ext out path) ->
       pfiles st' !! mask_png ext out path = Some mask).
Proof.
  induction batch as [|first rest IH]; intros idx st st' k path Hrun Hk.
  - discriminate.
  - rewrite save_batch_cons in Hrun.
    destruct (index preds idx) as [mask|e] eqn:Hi; [|discriminate].
    destruct k as [|k].
    + injection Hk as ->. exists mask. rewrite Nat.add_0_r.
      split; [exact (index_lookup _ _ _ Hi)|].
      intros Hlater.
      assert (forall q, In q rest ->
                        mask_png ext out q <> mask_png ext out path) as Hne.
      { intros q Hin.
        apply list_elem_of_In, list_elem_of_lookup in Hin as [k' Hk'].
        apply (Hlater (S k') q); [lia|exact Hk']. }
      rewrite (save_batch_leaves out preds rest _ Hne _ _ _ _ Hrun).
      simpl. apply lookup_insert_eq.
    + destruct (IH (S idx) _ st' k path Hrun Hk) as (m & Hm & Hfile).
      exists m. split; [rewrite <- Hm; f_equal; lia|].
      intros Hlater. apply Hfile. intros k' path' Hlt Hk'.
      apply (Hlater (S k') path'); [lia|exact Hk'].
Qed.

Lemma keras_batch_steps f paths out c i st st' :
  keras_batch ext f paths out c i st = (st', Ok tt) ->
  exists images images' scores indices,
    open_images ext (take BATCH_SIZE (drop (BATCH_SIZE * i) paths)) = Ok images /\
    reshape_images images = Ok images' /\
    f images' = Ok scores /\
    argmax_last_axis scores = Ok indices /\
    save_batch ext out (map (map (where_index_gt c)) indices) 0
      (take BATCH_SIZE (drop (BATCH_SIZE * i) paths)) st = (st', Ok tt).
Proof.
  unfold keras_batch, mbind, P_bind, plift.
  destruct (open_images ext _) as [images|e]; [|discriminate].
  destruct (reshape_images images) as [images'|e] eqn:Hr; [|discriminate].
  destruct (f images') as [scores|e] eqn:Hf; [|discriminate].
  destruct (argmax_last_axis scores) as [indices|e] eqn:Ha; [|discriminate].
  intros Hsave. exists images, images', scores, indices. auto.
Qed.

Lemma keras_batch_leaves f paths out c i p st st' r :
  (forall path, In path (take BATCH_SIZE (drop (BATCH_SIZE * i) paths)) ->
                mask_png ext out path <> p) ->
  keras_batch ext f paths out c i st = (st', r) ->
  pfiles st' !! p = pfiles st !! p.
Proof.
  intros Hne. unfold keras_batch, mbind, P_bind, plift.
  destruct (open_images ext _) as [images|e]; [|intros [= <- <-]; reflexivity].
  destruct (reshape_images images) as [images'|e]; [|intros [= <- <-]; reflexivity].
  destruct (f images') as [scores|e]; [|intros [= <- <-]; reflexivity].
  destruct (argmax_last_axis scores) as [indices|e]; [|intros [= <- <-]; reflexivity].
  apply save_batch_leaves. exact Hne.
Qed.

Lemma batch_lookup (paths : list string) i k :
  (k < BATCH_SIZE)%nat ->
  take BATCH_SIZE (drop (BATCH_SIZE * i) paths) !! k
  = paths !! (BATCH_SIZE * i + k)%nat.
Proof.
  intros Hk. rewrite lookup_take_lt by exact Hk. apply lookup_drop.
Qed.

(** The batched loop, when it completes: the image at position [g] of the
    paths was opened with its batch, the model scored the batch, and the
    file under the image's output name is row [g mod 8] of the arg-max
    indices of that batch, thresholded, unless a later image has the same
    output name. *)
Lemma dense_content f paths out c st st' g path :
  predict_dispatch ext (KerasModel f) paths out c st = (st', Ok tt) ->
  paths !! g = Some path ->
  exists images images' scores indices row,
    open_images ext
      (take BATCH_SIZE (drop (BATCH_SIZE * (g / BATCH_SIZE)) paths)) = Ok images /\
    reshape_images images = Ok images' /\
    f images' = Ok scores /\
    argmax_last_axis scores = Ok indices /\
    indices !! (g mod BATCH_SIZE)%nat = Some row /\
    ((forall g' path', (g < g')%nat -> paths !! g' = Some path' ->
                       mask_png ext out path' <> mask_png ext out path) ->
     pfiles st' !! mask_png ext out path = Some (map (where_index_gt c) row)).
Proof.
  cbn [predict_dispatch]. intros Hrun Hg.
  pose proof (lookup_lt_Some _ _ _ Hg) as Hlen.
  pose proof (Nat.div_mod_eq g BATCH_SIZE) as Hdm.
  assert (g mod BATCH_SIZE < BATCH_SIZE)%nat as Hmod
    by (apply Nat.mod_upper_bound; discriminate).
  set (i := (g / BATCH_SIZE)%nat) in *.
  set (k := (g mod BATCH_SIZE)%nat) in *.
  set (n := ((length paths + BATCH_SIZE - 1) / BATCH_SIZE)%nat) in *.
  assert (i < n)%nat as Hi.
  { subst n.
    pose proof (Nat.div_mod_eq (length paths + BATCH_SIZE - 1) BATCH_SIZE) as Hd.
    pose proof (Nat.mod_upper_bound (length paths + BATCH_SIZE - 1) BATCH_SIZE) as Hu.
    unfold BATCH_SIZE in *. nia. }
  assert (seq 0 n = seq 0 i ++ i :: seq (S i) (n - S i)) as Hseq.
  { replace n with (i + S (n - S i))%nat at 1 by lia.
    rewrite seq_app. reflexivity. }
  rewrite Hseq in Hrun.
  apply for_range_split in Hrun as (s1 & s2 & _ & Hbatch & Hpost).
  apply keras_batch_steps in Hbatch
    as (images & images' & scores & indices & Ho & Hr & Hf & Ha & Hsave).
  assert (take BATCH_SIZE (drop (BATCH_SIZE * i) paths) !! k = Some path) as Hk.
  { rewrite batch_lookup by exact Hmod. rewrite <- Hdm. exact Hg. }
  destruct (save_batch_content _ _ _ _ _ _ _ _ Hsave Hk) as (mask & Hmask & Hfile).
  change (0 + k)%nat with k in Hmask.
  change (map (map (where_index_gt c)) indices)
    with (fmap (M := list) (map (where_index_gt c)) indices) in Hmask.
  rewrite list_lookup_fmap in Hmask.
  destruct (indices !! k) as [row|] eqn:Hrow; [|discriminate].
  injection Hmask as <-.
  exists images, images', scores, indices, row.
  repeat (split; [assumption|]).
  intros Hlater.
  assert (forall j s s' r, In j (seq (S i) (n - S i)) ->
            keras_batch ext f paths out c j s = (s', r) ->
            pfiles s' !! mask_png ext out path = pfiles s !! mask_png ext out path)
    as Hrest.
  { intros j s s' r Hin.
    apply list_elem_of_In, list_elem_of_lookup in Hin as [m Hm].
    apply lookup_seq in Hm as [-> Hm].
    apply keras_batch_leaves. intros path' Hin'.
    apply list_elem_of_In, list_elem_of_lookup in Hin' as [k' Hk'].
    apply lookup_take_Some in Hk' as [Hk' Hk8]. rewrite lookup_drop in Hk'.
    refine (Hlater _ path' _ Hk'). unfold BATCH_SIZE in *. lia. }
  rewrite (for_range_leaves _ _ _ Hrest _ _ _ Hpost).
  apply Hfile. intros k' path' Hlt Hk'.
  apply lookup_take_Some in Hk' as [Hk' Hk8]. rewrite lookup_drop in Hk'.
  refine (Hlater _ path' _ Hk'). unfold BATCH_SIZE in *. lia.
Qed.

Lemma fastsam_step_content paths out c i drawn st st' :
  fastsam_step ext paths out c (i, drawn) st = (st', Ok tt) ->
  exists r v path,
    drawn = Ok r /\ max_dim0 r = Ok v /\ paths !! i = Some path /\
    pfiles st' !! mask_png ext out path = Some (map (where_value_gt c) v).
Proof.
  unfold fastsam_step, mbind, P_bind, plift, save_mask.
  destruct drawn as [r|e]; [|discriminate].
  destruct (max_dim0 r) as [v|e] eqn:Hv; [|discriminate].
  destruct (index paths i) as [path|e] eqn:Hi; [|discriminate].
  intros [= <-]. exists r, v, path. simpl.
  split; [reflexivity|]. split; [exact Hv|].
  split; [exact (index_lookup _ _ _ Hi)|]. apply lookup_insert_eq.
Qed.

Lemma fastsam_step_leaves paths out c i drawn p st st' r :
  (forall path, paths !! i = Some path -> mask_png ext out path <> p) ->
  fastsam_step ext paths out c (i, drawn) st = (st', r) ->
  pfiles st' !! p = pfiles st !! p.
Proof.
  intros Hne. unfold fastsam_step, mbind, P_bind, plift, save_mask.
  destruct drawn as [res|e]; [|intros [= <- <-]; reflexivity].
  destruct (max_dim0 res) as [v|e]; [|intros [= <- <-]; reflexivity].
  destruct (index paths i) as [path|e] eqn:Hi; [|intros [= <- <-]; reflexivity].
  intros [= <- <-]. simpl. apply lookup_insert_ne. apply Hne.
  exact (index_lookup _ _ _ Hi).
Qed.

(** The streamed loop, when it completes: result [i] was drawn without an
    exception, it has instance masks, there is an image path [i], and the
    file under that image's output name is the entrywise maximum over the
    instance masks, thresholded, unless a later result goes to the same
    output name. *)
Lemma stream_content call paths out c st st' i drawn :
  predict_dispatch ext (FastSAMModel call) paths out c st = (st', Ok tt) ->
  call paths !! i = Some drawn ->
  exists r v path,
    drawn = Ok r /\ max_dim0 r = Ok v /\ paths !! i = Some path /\
    ((forall i' path', (i < i')%nat -> (i' < length (call paths))%nat ->
                       paths !! i' = Some path' ->
                       mask_png ext out path' <> mask_png ext out path) ->
     pfiles st' !! mask_png ext out path = Some (map (where_value_gt c) v)).
Proof.
  cbn [predict_dispatch]. intros Hrun Hi.
  set (items := imap (fun i r => (i, r)) (call paths)) in *.
  assert (items !! i = Some (i, drawn)) as Hitem.
  { subst items. rewrite list_lookup_imap, Hi. reflexivity. }
  rewrite <- (take_drop_middle _ _ _ Hitem) in Hrun.
  apply for_range_split in Hrun as (s1 & s2 & _ & Hstep & Hpost).
  apply fastsam_step_content in Hstep as (r & v & path & Hd & Hv & Hp & Hfile).
  exists r, v, path. repeat (split; [assumption|]).
  intros Hlater.
  assert (forall a s s' r', In a (drop (S i) items) ->
            fastsam_step ext paths out c a s = (s', r') ->
            pfiles s' !! mask_png ext out path = pfiles s !! mask_png ext out path)
    as Hrest.
  { intros [j d] s s' r' Hin.
    apply list_elem_of_In, list_elem_of_lookup in Hin as [m Hm].
    rewrite lookup_drop in Hm. subst items.
    apply list_lookup_imap_Some in Hm as (y & Hy & [= -> ->]).
    apply fastsam_step_leaves. intros path' Hp'.
    refine (Hlater _ path' _ (lookup_lt_Some _ _ _ Hy) Hp'). lia. }
  rewrite (for_range_leaves _ _ _ Hrest _ _ _ Hpost).
  exact Hfile.
Qed.

End Content.

(** C3. The dispatch of [predict] has four branches, one per class of
    model.  A keras model goes through the batched loop: the image paths are
    cut into batches of at most eight that together are all the paths, every
    mask written is a thresholded row of arg-max class indices, and when the
    loop completes the image at position [g] has, under its output name, row
    [g mod 8] of the thresholded arg-max indices the model gave for its
    batch (unless a later image has the same output name).  A YOLO model
    makes [predict] raise [NotImplementedError] and write nothing.  A FastSAM
    model goes through the streamed loop: every mask written is the
    thresholded entrywise maximum over the instance masks of one result, and
    when the loop completes every result [i] has instance masks and the
    image [i] has, under its output name, their thresholded entrywise
    maximum (unless a later result goes to the same output name).  Any other
    model makes [predict] raise the [RuntimeError] "Loaded model is not
    supported" and write nothing. *)
Theorem C3_modality_dispatch ext ckpt inp out c st :
  (forall f paths,
     predict_dispatch ext (KerasModel f) paths out c =
     for_range (keras_batch ext f paths out c) (seq 0 (length (batches paths))) /\
     concat (batches paths) = paths /\
     Forall (fun b => (length b <= BATCH_SIZE)%nat) (batches paths) /\
     (forall s s' r,
        predict_dispatch ext (KerasModel f) paths out c s = (s', r) ->
        written_by (dense_mask f c) s s') /\
     (forall s s' g path,
        predict_dispatch ext (KerasModel f) paths out c s = (s', Ok tt) ->
        paths !! g = Some path ->
        exists images images' scores indices row,
          open_images ext
            (take BATCH_SIZE (drop (BATCH_SIZE * (g / BATCH_SIZE)) paths))
          = Ok images /\
          reshape_images images = Ok images' /\
          f images' = Ok scores /\
          argmax_last_axis scores = Ok indices /\
          indices !! (g mod BATCH_SIZE)%nat = Some row /\
          ((forall g' path', (g < g')%nat -> paths !! g' = Some path' ->
                             mask_png ext out path' <> mask_png ext out path) ->
           pfiles s' !! mask_png ext out path
           = Some (map (where_index_gt c) row)))) /\
  (initialize_model ext ckpt = Ok YOLOModel ->
   exists st',
     predict ext ckpt inp out c st = (st', Raise NotImplementedError) /\
     pfiles st' = pfiles st) /\
  (forall call paths,
     (forall s s' r,
        predict_dispatch ext (FastSAMModel call) paths out c s = (s', r) ->
        written_by (sam_mask (call paths) c) s s') /\
     (forall s s' i drawn,
        predict_dispatch ext (FastSAMModel call) paths out c s = (s', Ok tt) ->
        call paths !! i = Some drawn ->
        exists r v path,
          drawn = Ok r /\ max_dim0 r = Ok v /\ paths !! i = Some path /\
          (forall j x, v !! j = Some x ->
             exists stack col,
               masks r = Some stack /\ column j stack col /\ is_max_of x col) /\
          ((forall i' path', (i < i')%nat -> (i' < length (call paths))%nat ->
                             paths !! i' = Some path' ->
                             mask_png ext out path' <> mask_png ext out path) ->
           pfiles s' !! mask_png ext out path
           = Some (map (where_value_gt c) v)))) /\
  (forall name,
     initialize_model ext ckpt = Ok (OtherModel name) ->
     exists st',
       predict ext ckpt inp out c st =
       (st', Raise (RuntimeError "Loaded model is not supported")) /\
       pfiles st' = pfiles st).
Proof.
  split; [|split; [|split]].
  - intros f paths. split.
    + cbn [predict_dispatch]. unfold batches. rewrite length_map, length_seq.
      reflexivity.
    + split; [apply batches_concat|]. split; [apply batches_size|].
      split.
      * intros s s' r. apply dense_written.
      * intros s s' g path. apply dense_content.
  - intros Hinit. eapply predict_raises_in_dispatch; [exact Hinit|reflexivity].
  - intros call paths. split.
    + intros s s' r. apply stream_written.
    + intros s s' i drawn Hrun Hi.
      destruct (stream_content ext call paths out c s s' i drawn Hrun Hi)
        as (r & v & path & Hd & Hv & Hp & Hfile).
      exists r, v, path. repeat (split; [assumption|]).
      split; [|exact Hfile].
      intros j x Hx. exact (max_dim0_pixel r v j x Hv Hx).
  - intros name Hinit.
    eapply predict_raises_in_dispatch; [exact Hinit|reflexivity].
Qed.

Lemma C3_modality_dispatch_witness :
  let dense_ext := DemoPredict.ext DemoPredict.dense in
  let sam_ext := DemoPredict.ext DemoPredict.promptable in
  let paths := ["in/a.png"; "in/b.png"] in
  let dense_run := predict_dispatch dense_ext DemoPredict.dense paths "out"
                     (lit 5 10) DemoPredict.begin in
  let sam_run := predict_dispatch sam_ext DemoPredict.promptable paths "out"
                   (lit 5 10) DemoPredict.begin in
  (exists st',
     predict (DemoPredict.ext YOLOModel) "ckpt" "in" "out" (lit 5 10)
       DemoPredict.begin = (st', Raise NotImplementedError) /\
     pfiles st' = ∅) /\
  (exists st',
     predict (DemoPredict.ext (OtherModel "Tree")) "ckpt" "in" "out" (lit 5 10)
       DemoPredict.begin
     = (st', Raise (RuntimeError "Loaded model is not supported")) /\
     pfiles st' = ∅) /\
  written_by (sam_mask DemoPredict.stream (lit 5 10)) DemoPredict.begin
    (fst sam_run) /\
  written_by (dense_mask (fun _ => Ok DemoPredict.scores) (lit 5 10))
    DemoPredict.begin (fst dense_run) /\
  (exists images images' scores indices row,
     open_images dense_ext
       (take BATCH_SIZE (drop (BATCH_SIZE * (1 / BATCH_SIZE)) paths)) = Ok images /\
     reshape_images images = Ok images' /\
     Ok DemoPredict.scores = Ok scores /\
     argmax_last_axis scores = Ok indices /\
     indices !! (1 mod BATCH_SIZE)%nat = Some row /\
     ((forall g' path', (1 < g')%nat -> paths !! g' = Some path' ->
                        mask_png dense_ext "out" path'
                        <> mask_png dense_ext "out" "in/b.png") ->
      pfiles (fst dense_run) !! mask_png dense_ext "out" "in/b.png"
      = Some (map (where_index_gt (lit 5 10)) row))) /\
  (exists r v path,
     Ok (mkSamResult (Some [[DemoPredict.one; DemoPredict.zero];
                            [DemoPredict.zero; DemoPredict.zero]])) = Ok r /\
     max_dim0 r = Ok v /\ paths !! 0%nat = Some path /\
     (forall j x, v !! j = Some x ->
        exists stack col,
          masks r = Some stack /\ column j stack col /\ is_max_of x col) /\
     ((forall i' path', (0 < i')%nat -> (i' < length DemoPredict.stream)%nat ->
                        paths !! i' = Some path' ->
                        mask_png sam_ext "out" path' <> mask_png sam_ext "out" path) ->
      pfiles (fst sam_run) !! mask_png sam_ext "out" path
      = Some (map (where_value_gt (lit 5 10)) v))).
Proof.
  intros dense_ext sam_ext paths dense_run sam_run.
  split; [|split; [|split; [|split; [|split]]]].
  - destruct (C3_modality_dispatch (DemoPredict.ext YOLOModel)
                "ckpt" "in" "out" (lit 5 10) DemoPredict.begin)
      as (_ & Hyolo & _).
    apply Hyolo. reflexivity.
  - destruct (C3_modality_dispatch (DemoPredict.ext (OtherModel "Tree"))
                "ckpt" "in" "out" (lit 5 10) DemoPredict.begin)
      as (_ & _ & _ & Hother).
    apply (Hother "Tree"). reflexivity.
  - destruct (C3_modality_dispatch sam_ext
                "ckpt" "in" "out" (lit 5 10) DemoPredict.begin)
      as (_ & _ & Hsam & _).
    destruct (Hsam (fun _ => DemoPredict.stream) paths) as [Hwritten _].
    eapply Hwritten. apply surjective_pairing.
  - destruct (C3_modality_dispatch dense_ext
                "ckpt" "in" "out" (lit 5 10) DemoPredict.begin)
      as (Hdense & _).
    destruct (Hdense (fun _ => Ok DemoPredict.scores) paths)
      as (_ & _ & _ & Hwritten & _).
    eapply Hwritten. apply surjective_pairing.
  - destruct (C3_modality_dispatch dense_ext
                "ckpt" "in" "out" (lit 5 10) DemoPredict.begin)
      as (Hdense & _).
    destruct (Hdense (fun _ => Ok DemoPredict.scores) paths)
      as (_ & _ & _ & _ & Hcontent).
    apply (Hcontent DemoPredict.begin (fst dense_run) 1%nat "in/b.png").
    + vm_compute. reflexivity.
    + reflexivity.
  - destruct (C3_modality_dispatch sam_ext
                "ckpt" "in" "out" (lit 5 10) DemoPredict.begin)
      as (_ & _ & Hsam & _).
    destruct (Hsam (fun _ => DemoPredict.stream) paths) as [_ Hcontent].
    apply (Hcontent DemoPredict.begin (fst sam_run) 0%nat).
    + vm_compute. reflexivity.
    + reflexivity.
Defined.

Example dense_run_masks :
  pfiles (fst (predict_dispatch (DemoPredict.ext DemoPredict.dense)
                 DemoPredict.dense ["in/a.png"; "in/b.png"] "out" (lit 5 10)
                 DemoPredict.begin))
  = <["out/a.png" := [1; 0]]> (<["out/b.png" := [0; 1]]> ∅).
Proof. vm_compute. reflexivity. Qed.

Example stream_run_masks :
  pfiles (fst (predict_dispatch (DemoPredict.ext DemoPredict.promptable)
                 DemoPredict.promptable ["in/a.png"; "in/b.png"] "out" (lit 5 10)
                 DemoPredict.begin))
  = <["out/a.png" := [1; 0]]> (<["out/b.png" := [0; 1]]> ∅).
Proof. vm_compute. reflexivity. Qed.

(** C4 (as the dispatcher is written).  Both thresholds are strict
    comparisons.  In the batched path the class index, taken as a float, is
    compared with the confidence: an index equal to it gives 0, one above it
    gives 1.  In the streamed path the comparison is made in the [float32]
    of the mask tensor, with the confidence rounded to it: a value equal to
    the rounded confidence gives 0 and a value above the rounded confidence
    gives 1; for a confidence that [float32] holds exactly this is the
    confidence itself.  And these comparisons are what the two paths write:
    every mask the streamed path writes is [where_value_gt confidence]
    mapped over the maxima, every mask the batched path writes is
    [where_index_gt confidence] mapped over a row of indices. *)
Theorem C4_strict_threshold c :
  (forall v, feq v (to_float32 c) = true -> where_value_gt c v = 0) /\
  (forall v, flt (to_float32 c) v = true -> where_value_gt c v = 1) /\
  (to_float32 c = c ->
   forall v, (feq v c = true -> where_value_gt c v = 0) /\
             (flt c v = true -> where_value_gt c v = 1)) /\
  (forall k : nat,
     feq (PyFloat.of_Z (Z.of_nat k)) c = true -> where_index_gt c k = 0) /\
  (forall k : nat,
     flt c (PyFloat.of_Z (Z.of_nat k)) = true -> where_index_gt c k = 1) /\
  (forall ext call paths out s s' r,
     predict_dispatch ext (FastSAMModel call) paths out c s = (s', r) ->
     written_by (sam_mask (call paths) c) s s') /\
  (forall ext f paths out s s' r,
     predict_dispatch ext (KerasModel f) paths out c s = (s', r) ->
     written_by (dense_mask f c) s s').
Proof.
  unfold where_value_gt, where_index_gt.
  split; [|split; [|split; [|split; [|split; [|split]]]]].
  - intros v Heq. rewrite (flt_false_of_feq _ _ Heq). reflexivity.
  - intros v ->. reflexivity.
  - intros -> v. split.
    + intros Heq. rewrite (flt_false_of_feq _ _ Heq). reflexivity.
    + intros ->. reflexivity.
  - intros k Heq. rewrite (flt_false_of_feq _ _ Heq). reflexivity.
  - intros k ->. reflexivity.
  - intros ext call paths out s s' r. apply stream_written.
  - intros ext f paths out s s' r. apply dense_written.
Qed.

Lemma C4_strict_threshold_witness :
  where_value_gt (lit 5 10) (lit 5 10) = 0 /\
  where_value_gt (lit 5 10) (lit 75 100) = 1 /\
  where_value_gt (lit 1 10) (to_float32 (lit 1 10)) = 0 /\
  where_value_gt (lit 1 10) (PyFloat.of_Z 1) = 1 /\
  where_index_gt (PyFloat.of_Z 1) 1 = 0 /\
  where_index_gt (PyFloat.of_Z 1) 2 = 1 /\
  written_by (sam_mask DemoPredict.stream (lit 5 10)) DemoPredict.begin
    (fst (predict_dispatch (DemoPredict.ext DemoPredict.promptable)
            DemoPredict.promptable ["in/a.png"; "in/b.png"] "out" (lit 5 10)
            DemoPredict.begin)) /\
  written_by (dense_mask (fun _ => Ok DemoPredict.scores) (PyFloat.of_Z 1))
    DemoPredict.begin
    (fst (predict_dispatch (DemoPredict.ext DemoPredict.dense)
            DemoPredict.dense ["in/a.png"; "in/b.png"] "out" (PyFloat.of_Z 1)
            DemoPredict.begin)).
Proof.
  destruct (C4_strict_threshold (lit 5 10)) as (_ & _ & Hexact & _ & _ & Hsam & _).
  destruct (C4_strict_threshold (lit 1 10)) as (Heq & Hgt & _).
  destruct (C4_strict_threshold (PyFloat.of_Z 1))
    as (_ & _ & _ & Hieq & Higt & _ & Hdense).
  split; [apply Hexact; vm_compute; reflexivity|].
  split; [apply Hexact; vm_compute; reflexivity|].
  split; [apply Heq; vm_compute; reflexivity|].
  split; [apply Hgt; vm_compute; reflexivity|].
  split; [apply (Hieq 1%nat); vm_compute; reflexivity|].
  split; [apply (Higt 2%nat); vm_compute; reflexivity|].
  split.
  - eapply (Hsam (DemoPredict.ext DemoPredict.promptable)
              (fun _ => DemoPredict.stream)).
    apply surjective_pairing.
  - eapply (Hdense (DemoPredict.ext DemoPredict.dense)
              (fun _ => Ok DemoPredict.scores)).
    apply surjective_pairing.
Defined.

(** The claim as the specification words it fails in the streamed path: a
    mask value of one is strictly above a confidence of 0.99999999, yet it
    is classified 0, because the confidence is one once rounded to
    [float32]; and the masks of a whole run at that confidence are all
    zero.  Likewise the [float32] nearest to 0.1 lies strictly above 0.1 and
    is classified 0 at a confidence of 0.1. *)
Lemma C4_strictly_above_counterexample :
  let c := lit 99999999 100000000 in
  flt c DemoPredict.one = true /\
  where_value_gt c DemoPredict.one = 0 /\
  pfiles (fst (predict_dispatch (DemoPredict.ext DemoPredict.promptable)
                 DemoPredict.promptable ["in/a.png"; "in/b.png"] "out" c
                 DemoPredict.begin))
  = <["out/a.png" := [0; 0]]> (<["out/b.png" := [0; 0]]> ∅) /\
  flt (lit 1 10) (to_float32 (lit 1 10)) = true /\
  where_value_gt (lit 1 10) (to_float32 (lit 1 10)) = 0.
Proof.
  cbv zeta. repeat split; vm_compute; reflexivity.
Qed.

(** ** The dense path and the confidence *)

Section DenseConfidence.

Context (ext : PredictExternals).

Lemma for_range_ext {A} (body1 body2 : A -> P unit) items st :
  (forall a s, body1 a s = body2 a s) ->
  for_range body1 items st = for_range body2 items st.
Proof.
  intros Hext. revert st. induction items as [|a items IH]; intros st.
  - reflexivity.
  - cbn [for_range]. unfold mbind, P_bind. rewrite Hext.
    destruct (body2 a st) as [st1 [[]|e]]; [apply IH|reflexivity].
Qed.

Lemma keras_batch_ext f paths out c c' i st :
  (forall k, where_index_gt c k = where_index_gt c' k) ->
  keras_batch ext f paths out c i st = keras_batch ext f paths out c' i st.
Proof.
  intros Hext. unfold keras_batch, mbind, P_bind, plift.
  destruct (open_images ext _) as [images|e]; [|reflexivity].
  destruct (reshape_images images) as [images'|e]; [|reflexivity].
  destruct (f images') as [scores|e]; [|reflexivity].
  destruct (argmax_last_axis scores) as [indices|e]; [|reflexivity].
  rewrite (map_ext _ (map (where_index_gt c'))); [reflexivity|].
  intros row. apply map_ext. exact Hext.
Qed.

Lemma dense_dispatch_ext f paths out c c' st :
  (forall k, where_index_gt c k = where_index_gt c' k) ->
  predict_dispatch ext (KerasModel f) paths out c st =
  predict_dispatch ext (KerasModel f) paths out c' st.
Proof.
  intros Hext. cbn [predict_dispatch]. apply for_range_ext.
  intros i s. apply keras_batch_ext. exact Hext.
Qed.

Lemma predict_dense_ext ckpt inp out c c' st f :
  initialize_model ext ckpt = Ok (KerasModel f) ->
  (forall k, where_index_gt c k = where_index_gt c' k) ->
  pfiles (fst (predict ext ckpt inp out c st)) =
  pfiles (fst (predict ext ckpt inp out c' st)) /\
  snd (predict ext ckpt inp out c st) = snd (predict ext ckpt inp out c' st).
Proof.
  intros Hinit Hext. unfold predict, mbind, P_bind, pprint, plift.
  rewrite Hinit.
  rewrite (dense_dispatch_ext f _ out c c' _ Hext).
  destruct (predict_dispatch ext (KerasModel f) _ out c' _) as [s1 [[]|e]];
    [|split; reflexivity].
  unfold run_georeference, run_remove_files. simpl.
  destruct (georeference ext out out (pfiles s1)) as [fs [[]|e]]; split; reflexivity.
Qed.

End DenseConfidence.

(** C10. In the batched path the number compared with the confidence is the
    arg-max class index.  So for a confidence in [[0, 1)] a pixel of a
    written mask is 1 exactly when that index is at least 1, and [predict]
    leaves the same files and raises or returns alike for any two
    confidences in that interval. *)
Theorem C10_dense_threshold_on_index c :
  fle (PyFloat.of_Z 0) c = true ->
  flt c (PyFloat.of_Z 1) = true ->
  (forall k : nat, where_index_gt c k = if (1 <=? k)%nat then 1 else 0) /\
  (forall ext f paths out s s' r,
     predict_dispatch ext (KerasModel f) paths out c s = (s', r) ->
     written_by
       (fun m =>
          exists images scores indices row,
            f images = Ok scores /\
            argmax_last_axis scores = Ok indices /\
            In row indices /\
            m = map (fun k => if (1 <=? k)%nat then 1 else 0) row)
       s s') /\
  (forall c',
     fle (PyFloat.of_Z 0) c' = true ->
     flt c' (PyFloat.of_Z 1) = true ->
     forall ext ckpt inp out st f,
       initialize_model ext ckpt = Ok (KerasModel f) ->
       pfiles (fst (predict ext ckpt inp out c st)) =
       pfiles (fst (predict ext ckpt inp out c' st)) /\
       snd (predict ext ckpt inp out c st) = snd (predict ext ckpt inp out c' st)).
Proof.
  intros H0 H1.
  pose proof (fun k => where_index_gt_unit c k H0 H1) as Hunit.
  split; [exact Hunit|]. split.
  - intros ext f paths out s s' r Hrun p m Hm.
    destruct (dense_written ext f paths out c s s' r Hrun p m Hm)
      as [Hold|(images & scores & indices & row & Hf & Ha & Hin & ->)].
    + left. exact Hold.
    + right. exists images, scores, indices, row.
      repeat split; auto. apply map_ext. exact Hunit.
  - intros c' H0' H1' ext ckpt inp out st f Hinit.
    apply (predict_dense_ext ext ckpt inp out c c' st f Hinit).
    intros k. rewrite Hunit.
    symmetry. apply where_index_gt_unit; assumption.
Qed.

Lemma C10_dense_threshold_on_index_witness :
  (forall k : nat, where_index_gt (lit 5 10) k = if (1 <=? k)%nat then 1 else 0) /\
  pfiles (fst (predict (DemoPredict.ext DemoPredict.dense) "ckpt" "in" "out"
                 (lit 5 10) DemoPredict.begin)) =
  pfiles (fst (predict (DemoPredict.ext DemoPredict.dense) "ckpt" "in" "out"
                 (lit 99 100) DemoPredict.begin)).
Proof.
  destruct (C10_dense_threshold_on_index (lit 5 10)) as (Hunit & _ & Hsame).
  - vm_compute. reflexivity.
  - vm_compute. reflexivity.
  - split; [exact Hunit|].
    destruct (Hsame (lit 99 100)) with
      (ext := DemoPredict.ext DemoPredict.dense) (ckpt := "ckpt")
      (inp := "in") (out := "out") (st := DemoPredict.begin)
      (f := fun _ : list Z => Ok DemoPredict.scores) as [Hfiles _].
    + vm_compute. reflexivity.
    + vm_compute. reflexivity.
    + reflexivity.
    + exact Hfiles.
Defined.

(** * Further properties *)

(** ** Cleaning the labels *)

Section Cleaning.

Lemma filter_all {A} (P : A -> Prop) `{forall x, Decision (P x)} (l : list A) :
  Forall P l -> filter P l = l.
Proof.
  induction 1 as [|x l Hx Hl IH]; [reflexivity|].
  rewrite filter_cons_True by exact Hx. f_equal. exact IH.
Qed.

Lemma cleaned_elem gdf g :
  g ∈ gdf_geometry (drop_empty (drop_na gdf)) <->
  g ∈ gdf_geometry gdf /\ present_nonempty g.
Proof.
  unfold drop_empty, drop_na, present_nonempty. cbn [gdf_geometry].
  rewrite !list_elem_of_filter. split.
  - intros (Hne & [geom ->] & Hin). split; [exact Hin|]. exists geom. auto.
  - intros (Hin & geom & -> & Hne). cbn. eauto.
Qed.

End Cleaning.

(** X1. The two filters of lines 89-91 leave exactly the geometries that are
    present and not empty, in their order, and keep the CRS of the frame;
    cleaning a cleaned frame changes nothing, and a frame in which every
    geometry is missing or empty becomes a frame without rows. *)
Theorem cleaned_labels gdf :
  gdf_crs (drop_empty (drop_na gdf)) = gdf_crs gdf /\
  (forall g, g ∈ gdf_geometry (drop_empty (drop_na gdf)) <->
             g ∈ gdf_geometry gdf /\ present_nonempty g) /\
  gdf_geometry (drop_empty (drop_na gdf)) `sublist_of` gdf_geometry gdf /\
  drop_empty (drop_na (drop_empty (drop_na gdf))) = drop_empty (drop_na gdf) /\
  (Forall (fun g => ~ present_nonempty g) (gdf_geometry gdf) ->
   gdf_geometry (drop_empty (drop_na gdf)) = []).
Proof.
  split; [reflexivity|]. split; [apply cleaned_elem|]. split; [|split].
  - unfold drop_empty, drop_na. cbn [gdf_geometry].
    etransitivity; apply sublist_filter.
  - assert (Forall present_nonempty (gdf_geometry (drop_empty (drop_na gdf))))
      as Hall.
    { apply Forall_forall. intros g Hg. apply cleaned_elem in Hg. tauto. }
    unfold drop_empty at 1. unfold drop_na at 1.
    destruct (drop_empty (drop_na gdf)) as [geoms crs]. cbn [gdf_geometry gdf_crs] in *.
    f_equal.
    rewrite (filter_all (fun g => is_Some g) geoms).
    + apply filter_all. eapply Forall_impl; [exact Hall|].
      intros g (geom & -> & Hne). exact Hne.
    + eapply Forall_impl; [exact Hall|]. intros g (geom & -> & _). eauto.
  - intros Hnone.
    destruct (gdf_geometry (drop_empty (drop_na gdf))) as [|g rest] eqn:Hg;
      [reflexivity|].
    assert (g ∈ gdf_geometry (drop_empty (drop_na gdf))) as Hin
      by (rewrite Hg; left).
    apply cleaned_elem in Hin as [Hin Hgood].
    rewrite Forall_forall in Hnone. destruct (Hnone g Hin Hgood).
Qed.

Lemma cleaned_labels_witness :
  gdf_geometry (drop_empty (drop_na
     (mkGdf [None; Some (mkGeometry true "POLYGON EMPTY")] (Some "EPSG:4326"))))
  = [].
Proof.
  destruct (cleaned_labels
              (mkGdf [None; Some (mkGeometry true "POLYGON EMPTY")]
                 (Some "EPSG:4326"))) as (_ & _ & _ & _ & Hempty).
  apply Hempty. repeat constructor.
  - intros (geom & Hg & _). discriminate.
  - intros (geom & [= <-] & Hne). discriminate.
Defined.

(** ** The resolution the widths are divided by *)

(** X2. When neither per-axis resolution is a NaN, [min(reference_im.res)]
    is one of the two and is not above either of them; when they compare
    equal it is the first. *)
Theorem min_resolution_bound (a b : pyfloat) :
  is_nan a = false -> is_nan b = false ->
  (min2 (a, b) = a \/ min2 (a, b) = b) /\
  fle (min2 (a, b)) a = true /\
  fle (min2 (a, b)) b = true /\
  (feq a b = true -> min2 (a, b) = a).
Proof.
  intros Ha Hb. unfold min2. cbn [fst snd].
  destruct (fkey_not_nan a Ha) as [ka Hka].
  destruct (fkey_not_nan b Hb) as [kb Hkb].
  destruct (flt b a) eqn:Hlt.
  - split; [right; reflexivity|]. split; [|split].
    + apply flt_key in Hlt as (kb' & ka' & Hkb' & Hka' & Hlt).
      apply fle_key. exists kb', ka'. auto.
    + apply fle_refl. exact Hb.
    + intros Heq. rewrite (flt_false_of_feq _ _ Heq) in Hlt. discriminate.
  - split; [left; reflexivity|]. split; [apply fle_refl; exact Ha|].
    split; [|reflexivity].
    apply fle_key. exists ka, kb. split; [exact Hka|]. split; [exact Hkb|].
    destruct (key_total ka kb) as [Hab|[->|Hba]]; auto.
    assert (flt b a = true) as Habs by (apply flt_key; exists kb, ka; auto).
    congruence.
Qed.

Lemma min_resolution_bound_witness :
  min2 (lit 3 10, lit 1 10) = lit 1 10 /\
  fle (min2 (lit 3 10, lit 1 10)) (lit 3 10) = true.
Proof.
  destruct (min_resolution_bound (lit 3 10) (lit 1 10)) as (_ & Hle & _ & _).
  - vm_compute. reflexivity.
  - vm_compute. reflexivity.
  - split; [vm_compute; reflexivity|exact Hle].
Defined.

(** ** What the unit reconciliation raises, and the sign of its result *)

Section ReconcileEdges.

Lemma binary_round_aux_sign s m e l :
  match binary_round_aux prec emax s m e l with
  | S754_zero s' | S754_infinity s' | S754_finite s' _ _ => s' = s
  | S754_nan => True
  end.
Proof.
  unfold binary_round_aux.
  destruct (shr_fexp prec emax m e l) as [mrs1 e1].
  destruct (shr_fexp prec emax _ e1 loc_Exact) as [mrs2 e2].
  destruct (shr_m mrs2); [reflexivity| |exact I].
  destruct (e2 <=? emax - prec); reflexivity.
Qed.

Lemma of_Z_not_below_zero z : 0 <= z -> not_below_zero (PyFloat.of_Z z).
Proof.
  intros Hz. unfold PyFloat.of_Z, binary_normalize.
  destruct z as [|p|p]; [exact I| |lia].
  unfold binary_round.
  destruct (shl_align p 0 _) as [mz ez].
  pose proof (binary_round_aux_sign false (Z.pos mz) ez loc_Exact) as Hs.
  destruct (binary_round_aux prec emax false (Z.pos mz) ez loc_Exact)
    as [s|s| |s m e]; simpl in *; auto.
Qed.

Lemma fdiv_not_below_zero x y :
  not_below_zero x -> positive_float y -> not_below_zero (fdiv x y).
Proof.
  unfold fdiv, SFdiv.
  destruct x as [sx|sx| |sx mx ex], y as [sy|sy| |[] my ey];
    simpl; try tauto; try (intros -> ?; subst; reflexivity);
    try (intros _ ->; reflexivity).
  intros -> _.
  destruct (SFdiv_core_binary prec emax (Z.pos mx) ex (Z.pos my) ey)
    as [[mz ez] lz].
  pose proof (binary_round_aux_sign (xorb false false) mz ez lz) as Hs.
  destruct (binary_round_aux prec emax (xorb false false) mz ez lz)
    as [s|s| |s m e]; simpl in *; auto.
Qed.

Lemma to_int_not_below_zero x n :
  not_below_zero x -> to_int x = Ok n -> 0 <= n.
Proof.
  destruct x as [s|s| |s m e]; simpl; try discriminate.
  - intros _ [= <-]. lia.
  - intros -> [= <-]. simpl.
    destruct e as [|p|p].
    + lia.
    + assert (0 < 2 ^ Z.pos p) by (apply Z.pow_pos_nonneg; lia). nia.
    + assert (0 < 2 ^ Z.pos p) by (apply Z.pow_pos_nonneg; lia).
      apply Z.quot_pos; lia.
Qed.

Lemma to_pixels_nonneg width res n :
  nonneg_num width -> positive_float (min2 res) ->
  to_pixels width res = Ok n -> 0 <= n.
Proof.
  intros Hw Hres. unfold to_pixels, num_truediv, num_to_float, truediv.
  assert (forall x, not_below_zero x ->
            (if is_zero (min2 res)
             then Raise (ZeroDivisionError "float division by zero")
             else Ok (fdiv x (min2 res))) ≫= to_int = Ok n -> 0 <= n) as Hdiv.
  { intros x Hx. destruct (is_zero (min2 res)); [discriminate|].
    cbn. apply to_int_not_below_zero, fdiv_not_below_zero; assumption. }
  destruct width as [z|x]; simpl in Hw.
  - destruct (is_inf (PyFloat.of_Z z)); [discriminate|].
    cbn. apply Hdiv, of_Z_not_below_zero, Hw.
  - cbn. apply Hdiv.
    destruct x as [s|[]| |[] m e]; simpl in *; tauto.
Qed.

Lemma to_pixels_raises width res e :
  to_pixels width res = Raise e ->
  In (exc_class e) ["ZeroDivisionError"; "OverflowError"; "ValueError"].
Proof.
  unfold to_pixels, num_truediv, num_to_float, truediv.
  destruct width as [z|x].
  - destruct (is_inf (PyFloat.of_Z z)); cbn.
    + intros [= <-]. simpl. auto.
    + destruct (is_zero (min2 res)); cbn.
      * intros [= <-]. simpl. auto.
      * destruct (fdiv _ _) as [s|s| |s m ex]; cbn; try discriminate;
          intros [= <-]; simpl; auto.
  - cbn. destruct (is_zero (min2 res)); cbn.
    + intros [= <-]. simpl. auto.
    + destruct (fdiv _ _) as [s|s| |s m ex]; cbn; try discriminate;
        intros [= <-]; simpl; auto.
Qed.

End ReconcileEdges.

(** X3. Widths that are not negative, divided by a positive minimum
    resolution, never come back as negative pixel counts: when the pixel
    branch returns, both of its widths are integers that are at least
    zero. *)
Theorem pixel_widths_nonneg res bw cs meters b c :
  nonneg_num bw -> nonneg_num cs -> positive_float (min2 res) ->
  reconcile_units false res bw cs = Ok (meters, b, c) ->
  exists nb nc, b = PyInt nb /\ c = PyInt nc /\ 0 <= nb /\ 0 <= nc.
Proof.
  intros Hbw Hcs Hres. unfold reconcile_units. cbv zeta.
  destruct (to_pixels bw res) as [nb|e] eqn:Hb; cbn; [|discriminate].
  destruct (to_pixels cs res) as [nc|e] eqn:Hc; cbn; [|discriminate].
  intros [= <- <- <-]. exists nb, nc.
  repeat split; eauto using to_pixels_nonneg.
Qed.

Lemma pixel_widths_nonneg_witness :
  exists nb nc, PyInt 1 = PyInt nb /\ PyInt 2 = PyInt nc /\ 0 <= nb /\ 0 <= nc.
Proof.
  apply (pixel_widths_nonneg (lit 3 10, lit 3 10)
           (PyFloat (lit 5 10)) (PyFloat (lit 75 100)) false (PyInt 1) (PyInt 2)).
  - exact I.
  - exact I.
  - exact I.
  - vm_compute. reflexivity.
Defined.

(** X4. The metric branch of the unit reconciliation never raises.  The
    pixel branch raises nothing but [ZeroDivisionError], [OverflowError]
    and [ValueError]; a resolution of zero on the smaller axis makes it
    raise [ZeroDivisionError] for every width that is a float. *)
Theorem reconcile_units_errors metric res bw cs :
  (forall e,
     reconcile_units metric res bw cs = Raise e ->
     metric = false /\
     In (exc_class e) ["ZeroDivisionError"; "OverflowError"; "ValueError"]) /\
  (forall x,
     metric = false -> is_zero (min2 res) = true -> bw = PyFloat x ->
     reconcile_units metric res bw cs
     = Raise (ZeroDivisionError "float division by zero")).
Proof.
  split.
  - intros e. destruct metric; [discriminate|].
    unfold reconcile_units. cbv zeta. split; [reflexivity|].
    destruct (to_pixels bw res) as [nb|e1] eqn:Hb; cbn in *.
    + destruct (to_pixels cs res) as [nc|e2] eqn:Hc; cbn in *; [discriminate|].
      injection H as <-. eapply to_pixels_raises. exact Hc.
    + injection H as <-. eapply to_pixels_raises. exact Hb.
  - intros x -> Hz ->. unfold reconcile_units, to_pixels, num_truediv, truediv.
    cbn. rewrite Hz. reflexivity.
Qed.

Lemma reconcile_units_errors_witness :
  reconcile_units false (lit 1 10, PyFloat.of_Z 0)
    (PyFloat (lit 5 10)) (PyFloat (lit 75 100))
  = Raise (ZeroDivisionError "float division by zero") /\
  In "ZeroDivisionError" ["ZeroDivisionError"; "OverflowError"; "ValueError"].
Proof.
  destruct (reconcile_units_errors false (lit 1 10, PyFloat.of_Z 0)
              (PyFloat (lit 5 10)) (PyFloat (lit 75 100))) as [Hany Hzero].
  assert (reconcile_units false (lit 1 10, PyFloat.of_Z 0)
            (PyFloat (lit 5 10)) (PyFloat (lit 75 100))
          = Raise (ZeroDivisionError "float division by zero")) as Hr.
  { apply (Hzero (lit 5 10)); reflexivity. }
  split; [exact Hr|]. exact (proj2 (Hany _ Hr)).
Defined.

(** ** Which masks a run writes *)

Section WrittenPaths.

Context (ext : Externals) (cs bw : PyNum).

Lemma writes_after_tick st : writes (trace (after_tick st)) = writes (trace st).
Proof. simpl. rewrite writes_app. apply app_nil_r. Qed.

(** A pass of the loop that completes writes the mask paths that were not
    files yet, each once, and leaves a file at every mask path. *)
Lemma for_each_fresh triples st st' :
  for_each ext cs bw triples st = (st', Ok tt) ->
  exists W : list string,
    writes (trace st') = writes (trace st) ++ map EvWrite W /\
    NoDup W /\
    (forall p, p ∈ W <-> p ∈ map mask_of triples /\ files st !! p = None) /\
    (forall p, is_Some (files st' !! p) <->
               is_Some (files st !! p) \/ p ∈ map mask_of triples).
Proof.
  revert st. induction triples as [|[[json chip] mask] rest IH]; intros st Hrun.
  - injection Hrun as <-. exists []. split; [symmetry; apply app_nil_r|].
    split; [constructor|]. split.
    + intros p. split; [intros Hp; inversion Hp|intros [Hp _]; inversion Hp].
    + intros p. split; [auto|]. intros [Hp|Hp]; [exact Hp|inversion Hp].
  - rewrite for_each_cons in Hrun.
    destruct (process_pair ext cs bw _ (after_tick st)) as [st1 [[]|e]] eqn:Hbody;
      [|discriminate].
    pose proof (process_pair_ok_mask ext cs bw _ _ _ Hbody) as Hdone.
    unfold mask_of in Hdone. cbn [snd] in Hdone.
    apply process_pair_effect in Hbody as [_ Heff].
    rewrite writes_after_tick in Heff.
    change (files (after_tick st)) with (files st) in Heff.
    destruct (IH st1 Hrun) as (W & HW & Hnd & Hin & Hdom).
    change (map mask_of (((json, chip), mask) :: rest))
      with (mask :: map mask_of rest).
    destruct Heff as [(Hf & Hw)|[(e & g & He & _)|(_ & Hnone & Hw & x & f & _ & _ & Hf)]];
      [|discriminate He|].
    + rewrite Hf in *. exists W. split; [rewrite HW, Hw; reflexivity|].
      split; [exact Hnd|]. split.
      * intros p. rewrite Hin, elem_of_cons. split; [tauto|].
        intros [[->|Hp] Hn]; [|tauto].
        rewrite Hn in Hdone. destruct Hdone; discriminate.
      * intros p. rewrite Hdom, elem_of_cons. split; [tauto|].
        intros [Hp|[->|Hp]]; tauto.
    + exists (mask :: W). split.
      * rewrite HW, Hw, <- app_assoc. reflexivity.
      * assert (forall p, files st1 !! p = None <-> p <> mask /\ files st !! p = None)
          as Hlk.
        { intros p. rewrite Hf. destruct (decide (mask = p)) as [->|Hne].
          - rewrite lookup_insert_eq. split; [discriminate|tauto].
          - rewrite lookup_insert_ne by exact Hne. split; [auto|tauto]. }
        split; [|split].
        -- apply NoDup_cons. split; [|exact Hnd].
           intros Hm. apply Hin in Hm as [_ Hm]. apply Hlk in Hm. tauto.
        -- intros p. rewrite !elem_of_cons, Hin, Hlk.
           destruct (decide (p = mask)) as [->|Hne]; [tauto|]. tauto.
        -- intros p. rewrite Hdom, elem_of_cons, Hf.
           destruct (decide (mask = p)) as [->|Hne].
           ++ rewrite lookup_insert_eq. split; [auto|eauto].
           ++ rewrite lookup_insert_ne by exact Hne. split; [tauto|].
              intros [Hp|[->|Hp]]; tauto.
Qed.

(** A pass of the loop changes no path but mask paths that were not files. *)
Lemma for_each_frame triples st st' r p :
  for_each ext cs bw triples st = (st', r) ->
  files st' !! p = files st !! p \/
  (files st !! p = None /\ p ∈ map mask_of triples /\ is_Some (files st' !! p)).
Proof.
  revert st. induction triples as [|[[json chip] mask] rest IH]; intros st Hrun.
  - injection Hrun as <- <-. auto.
  - rewrite for_each_cons in Hrun.
    destruct (process_pair ext cs bw _ (after_tick st)) as [st1 res1] eqn:Hbody.
    apply process_pair_effect in Hbody as [_ Heff].
    change (files (after_tick st)) with (files st) in Heff.
    change (map mask_of (((json, chip), mask) :: rest))
      with (mask :: map mask_of rest).
    assert (files st' !! p = files st1 !! p \/
            (files st1 !! p = None /\ p ∈ map mask_of rest /\
             is_Some (files st' !! p))) as Hrest.
    { destruct res1 as [[]|e]; [exact (IH st1 Hrun)|].
      injection Hrun as <- <-. auto. }
    assert (files st1 = files st \/
            exists f, files st !! mask = None /\ files st1 = <[mask := f]> (files st))
      as [Hf|(f & Hnone & Hf)].
    { destruct Heff as [(Hf & _)|[(e & g & _ & Hnone & _ & Hf)
                                 |(_ & Hnone & _ & x & f & _ & _ & Hf)]]; eauto. }
    + rewrite Hf in Hrest. destruct Hrest as [Heq|(Hn & Hp & Hs)]; [auto|].
      right. rewrite elem_of_cons. auto.
    + destruct (decide (mask = p)) as [->|Hne].
      * right. split; [exact Hnone|]. split; [left|].
        destruct Hrest as [->|(Hn & _)].
        -- rewrite Hf, lookup_insert_eq. eauto.
        -- rewrite Hf, lookup_insert_eq in Hn. discriminate.
      * rewrite Hf, lookup_insert_ne in Hrest by exact Hne.
        destruct Hrest as [Heq|(Hn & Hp & Hs)]; [auto|].
        right. rewrite elem_of_cons. auto.
Qed.

Lemma mask_of_triples out pairs :
  map mask_of (triples_of ext out pairs) = mask_paths_of ext out pairs.
Proof. unfold triples_of, mask_paths_of. rewrite map_map. reflexivity. Qed.

Lemma encoded_from_steps json chip mask x f :
  prepare_pair ext cs bw json chip = Ok x ->
  encode_pair ext chip mask x = Ok f ->
  encoded_from ext cs bw json chip mask f.
Proof.
  unfold prepare_pair, load_pair, get_rasterio_shape_and_transform, encode_pair.
  unfold rasterise_pair, finish_pair, mbind, Result_bind.
  destruct (rio_open ext chip) as [src|e] eqn:Hsrc; [|discriminate].
  destruct (read_file ext json) as [raw|e] eqn:Hraw; [|discriminate].
  intros Hprep Henc.
  assert (exists gdf,
            ((gdf_crs raw = ds_crs src /\ gdf = drop_empty (drop_na raw)) \/
             (gdf_crs raw <> ds_crs src /\
              to_crs ext (drop_empty (drop_na raw)) (ds_crs src) = Ok gdf)) /\
            match crs_is_metric ext gdf with
            | Ok metric =>
                match reconcile_units metric (ds_res src) bw cs with
                | Ok units => Ok (ds_shape src, gdf, src, units)
                | Raise e => Raise e
                end
            | Raise e => Raise e
            end = Ok x) as (gdf & Hgdf & Hx).
  { destruct (decide (gdf_crs (drop_empty (drop_na raw)) ≠ ds_crs src))
      as [Hne|Heq].
    - destruct (to_crs ext _ _) as [gdf|e] eqn:Hto; [|discriminate].
      exists gdf. split; [right; auto|exact Hprep].
    - exists (drop_empty (drop_na raw)). split; [|exact Hprep].
      left. split; [|reflexivity].
      destruct (decide (gdf_crs raw = ds_crs src)); [assumption|].
      exfalso. apply Heq. assumption. }
  destruct (crs_is_metric ext gdf) as [metric|e] eqn:Hmetric; [|discriminate].
  destruct (reconcile_units metric (ds_res src) bw cs) as [[[meters b] c]|e]
    eqn:Hunits; [|discriminate].
  injection Hx as <-.
  destruct (df_to_px_mask ext (explode ext gdf) mask (ds_shape src) src b c meters)
    as [left [onehot|e]] eqn:Hpx; cbn [snd] in Henc; [|discriminate].
  destruct (rio_create ext mask _) as [left' [[]|e]]; cbn [snd] in Henc;
    [|discriminate].
  injection Henc as <-.
  exists src, raw, gdf, metric, meters, b, c, onehot.
  rewrite Hpx. auto 10.
Qed.

End WrittenPaths.

(** X5. After a run that completes, the masks written are the mask paths of
    the pairs that were not files when the run began, each written once
    (also when two pairs share a mask path), and every mask path of a pair
    is a file. *)
Theorem completed_run_writes ext poly chip out cs bw fs st' pairs :
  get_tq_chip_label_pairs ext chip poly = Ok pairs ->
  multimasks_from_polygons ext poly chip out cs bw (start fs) = (st', Ok tt) ->
  exists W : list string,
    writes (trace st') = map EvWrite W /\
    NoDup W /\
    (forall p, p ∈ W <-> p ∈ mask_paths_of ext out pairs /\ fs !! p = None) /\
    (forall p, is_Some (files st' !! p) <->
               is_Some (fs !! p) \/ p ∈ mask_paths_of ext out pairs).
Proof.
  intros Hpairs Hrun. rewrite driver_unfold, Hpairs in Hrun.
  destruct pairs as [|pr pairs]; [discriminate|].
  apply for_each_fresh in Hrun as (W & HW & Hnd & Hin & Hdom).
  rewrite mask_of_triples in Hin, Hdom.
  exists W. auto.
Qed.

Lemma completed_run_writes_witness :
  let ext := Demo.ext [("a.tif", "a.geojson"); ("a.tif", "a.geojson")]
               "" false Demo.res01 in
  let run := multimasks_from_polygons ext "labels" "chips" "masks"
               default_contact_spacing default_boundary_width (start ∅) in
  exists W : list string,
    writes (trace (fst run)) = map EvWrite W /\ NoDup W /\
    (forall p, p ∈ W <->
               p ∈ mask_paths_of ext "masks"
                     [("a.tif", "a.geojson"); ("a.tif", "a.geojson")] /\
               (∅ : gmap string RasterFile) !! p = None).
Proof.
  intros ext run.
  destruct (completed_run_writes ext "labels" "chips" "masks"
              default_contact_spacing default_boundary_width ∅ (fst run)
              [("a.tif", "a.geojson"); ("a.tif", "a.geojson")])
    as (W & HW & Hnd & Hin & _).
  - reflexivity.
  - vm_compute. reflexivity.
  - exists W. auto.
Defined.

(** X6. A run, completed or not, changes no path other than mask paths of
    its pairs that were not files when it began: every other path holds
    what it held before. *)
Theorem run_changes_only_missing_masks ext poly chip out cs bw fs st' r pairs p :
  get_tq_chip_label_pairs ext chip poly = Ok pairs ->
  multimasks_from_polygons ext poly chip out cs bw (start fs) = (st', r) ->
  files st' !! p = fs !! p \/
  (fs !! p = None /\ p ∈ mask_paths_of ext out pairs /\ is_Some (files st' !! p)).
Proof.
  intros Hpairs Hrun. rewrite driver_unfold, Hpairs in Hrun.
  destruct pairs as [|pr pairs].
  - injection Hrun as <- <-. auto.
  - rewrite <- mask_of_triples.
    exact (for_each_frame ext cs bw _ _ _ _ p Hrun).
Qed.

Lemma run_changes_only_missing_masks_witness :
  let ext := Demo.ext Demo.two_pairs "b.geojson" false Demo.res01 in
  let old := mkRaster Demo.chip_meta Demo.onehot in
  let run := multimasks_from_polygons ext "labels" "chips" "masks"
               default_contact_spacing default_boundary_width
               (start (<["notes.txt" := old]> ∅)) in
  files (fst run) !! "notes.txt" = Some old.
Proof.
  intros ext old run.
  destruct (run_changes_only_missing_masks ext "labels" "chips" "masks"
              default_contact_spacing default_boundary_width
              (<["notes.txt" := old]> ∅) (fst run) (snd run)
              Demo.two_pairs "notes.txt") as [Hsame|(Hnone & _)].
  - reflexivity.
  - symmetry. apply surjective_pairing.
  - rewrite Hsame. apply lookup_insert_eq.
  - rewrite lookup_insert_eq in Hnone. discriminate.
Defined.

(** X7. Every mask the encoder writes (line 165) is made from one of the
    pairs of the run alone: the labels of that pair, cleaned and, when their
    CRS differs, reprojected into the CRS of the chip, are rasterised with
    the shape of that chip and the widths reconciled against its resolution,
    and the result is written with the updated profile of that chip.  The
    file is there when the run ends, completed or not. *)
Theorem added_mask_provenance ext poly chip out cs bw fs st' r pairs p :
  get_tq_chip_label_pairs ext chip poly = Ok pairs ->
  multimasks_from_polygons ext poly chip out cs bw (start fs) = (st', r) ->
  In (EvWrite p) (trace st') ->
  exists f chip_path json_path,
    files st' !! p = Some f /\
    In (chip_path, json_path) pairs /\
    p = construct_mask_filepath ext out chip_path /\
    encoded_from ext cs bw json_path chip_path p f.
Proof.
  intros Hpairs Hrun Hw. rewrite driver_unfold, Hpairs in Hrun.
  destruct pairs as [|pr pairs].
  - injection Hrun as <- <-. simpl in Hw. destruct Hw as [Hw|[]]. discriminate.
  - apply In_writes in Hw.
    destruct (for_each_written _ _ _ _ _ _ _ _ Hrun Hw)
      as [Hold|(json & chp & x & f & Hin & Hx & Henc & Hfile)].
    + simpl in Hold. destruct Hold.
    + unfold triples_of in Hin. apply in_map_iff in Hin as ([c l] & Heq & Hin).
      injection Heq as <- <- Hp. cbn [fst snd] in *.
      exists f, c, l. split; [exact Hfile|]. split; [exact Hin|].
      split; [symmetry; exact Hp|].
      eapply encoded_from_steps; eassumption.
Qed.

Lemma added_mask_provenance_witness :
  let ext := Demo.ext_late Demo.two_pairs "masks/b.tif.mask.tif" false Demo.res01 in
  let run := multimasks_from_polygons ext "labels" "chips" "masks"
               default_contact_spacing default_boundary_width (start ∅) in
  exists f chip_path json_path,
    files (fst run) !! "masks/a.tif.mask.tif" = Some f /\
    In (chip_path, json_path) Demo.two_pairs /\
    "masks/a.tif.mask.tif" = construct_mask_filepath ext "masks" chip_path /\
    encoded_from ext default_contact_spacing default_boundary_width
      json_path chip_path "masks/a.tif.mask.tif" f.
Proof.
  intros ext run.
  apply (added_mask_provenance ext "labels" "chips" "masks"
           default_contact_spacing default_boundary_width ∅
           (fst run) (snd run) Demo.two_pairs "masks/a.tif.mask.tif").
  - reflexivity.
  - symmetry. apply surjective_pairing.
  - apply (proj1 (In_writes _ _)). vm_compute. left. reflexivity.
Defined.

(** ** The batches of the dense path *)

(** X8. The batched loop makes [ceil(n / 8)] passes over [n] image paths:
    none for an empty directory, and otherwise no batch is empty and every
    batch but the last holds exactly eight paths. *)
Theorem batches_shape (image_paths : list string) :
  length (batches image_paths) = ((length image_paths + 7) / 8)%nat /\
  (image_paths = [] -> batches image_paths = []) /\
  Forall (fun b => b <> []) (batches image_paths) /\
  (forall i, (S i < length (batches image_paths))%nat ->
             length (nth i (batches image_paths) []) = 8%nat).
Proof.
  unfold batches, BATCH_SIZE.
  replace (length image_paths + 8 - 1)%nat with (length image_paths + 7)%nat by lia.
  pose proof (Nat.div_mod_eq (length image_paths + 7) 8) as Hdiv.
  pose proof (Nat.mod_upper_bound (length image_paths + 7) 8 ltac:(lia)) as Hmod.
  set (k := ((length image_paths + 7) / 8)%nat) in *.
  split; [rewrite length_map, length_seq; reflexivity|].
  split; [|split].
  - intros ->. simpl in *. assert (k = 0%nat) as -> by lia. reflexivity.
  - apply Forall_forall. intros b Hb.
    apply list_elem_of_In, in_map_iff in Hb as (i & <- & Hi).
    apply in_seq in Hi. intros Hnil.
    apply (f_equal length) in Hnil.
    rewrite length_take, length_drop in Hnil. cbn [length] in Hnil.
    clearbody k. lia.
  - intros i Hi. rewrite length_map, length_seq in Hi.
    rewrite (nth_indep _ [] (take 8 (drop (8 * 0) image_paths)))
      by (rewrite length_map, length_seq; lia).
    rewrite (map_nth (fun i => take 8 (drop (8 * i) image_paths))).
    rewrite seq_nth by lia.
    rewrite length_take, length_drop. clearbody k. lia.
Qed.

(** ** What the dispatcher leaves in the output directory *)

Section Binary.

Context (ext : PredictExternals).

Lemma binary_where_index c row : binary_mask (map (where_index_gt c) row).
Proof.
  unfold binary_mask. apply Forall_forall. intros x Hx.
  apply list_elem_of_In, in_map_iff in Hx as (k & <- & _).
  unfold where_index_gt. destruct (flt c _); auto.
Qed.

Lemma binary_where_value c v : binary_mask (map (where_value_gt c) v).
Proof.
  unfold binary_mask. apply Forall_forall. intros x Hx.
  apply list_elem_of_In, in_map_iff in Hx as (y & <- & _).
  unfold where_value_gt. destruct (flt (to_float32 c) y); auto.
Qed.

End Binary.

(** X9. Whatever the model, every file the dispatch adds or replaces in the
    output directory is a mask whose entries are all 0 or 1; a model that is
    refused leaves the directory as it was. *)
Theorem dispatch_writes_binary_masks ext model paths out c st st' r :
  predict_dispatch ext model paths out c st = (st', r) ->
  written_by binary_mask st st' /\
  (match model with
   | YOLOModel | OtherModel _ => st' = st
   | _ => True
   end).
Proof.
  intros Hrun. destruct model as [f| |call|name].
  - split; [|exact I]. intros p m Hm.
    destruct (dense_written ext f paths out c st st' r Hrun p m Hm)
      as [Hold|(images & scores & indices & row & _ & _ & _ & ->)];
      [left; exact Hold|right; apply binary_where_index].
  - injection Hrun as <- <-. split; [apply written_by_refl|reflexivity].
  - split; [|exact I]. intros p m Hm.
    destruct (stream_written ext call paths out c st st' r Hrun p m Hm)
      as [Hold|(res & stack & v & _ & _ & _ & -> & _)];
      [left; exact Hold|right; apply binary_where_value].
  - injection Hrun as <- <-. split; [apply written_by_refl|reflexivity].
Qed.

Lemma dispatch_writes_binary_masks_witness :
  written_by binary_mask DemoPredict.begin
    (fst (predict_dispatch (DemoPredict.ext DemoPredict.dense)
            DemoPredict.dense ["in/a.png"; "in/b.png"] "out" (lit 5 10)
            DemoPredict.begin)).
Proof.
  eapply (fun H => proj1 (dispatch_writes_binary_masks
                            (DemoPredict.ext DemoPredict.dense)
                            DemoPredict.dense ["in/a.png"; "in/b.png"] "out"
                            (lit 5 10) DemoPredict.begin _ _ H)).
  apply surjective_pairing.
Defined.

Lemma batches_shape_witness :
  length (nth 0 (batches ["1"; "2"; "3"; "4"; "5"; "6"; "7"; "8"; "9"]) []) = 8%nat
  /\ batches [] = [].
Proof.
  destruct (batches_shape ["1"; "2"; "3"; "4"; "5"; "6"; "7"; "8"; "9"])
    as (_ & _ & _ & Hfull).
  destruct (batches_shape []) as (_ & Hempty & _).
  split; [apply Hfull; vm_compute; lia|apply Hempty; reflexivity].
Defined.

(** ** Runs of the dispatcher that complete *)

Section Completed.

Context (ext : PredictExternals).

Lemma keeps_files_refl st : keeps_files st st.
Proof. intros p H. exact H. Qed.

Lemma keeps_files_trans s1 s2 s3 :
  keeps_files s1 s2 -> keeps_files s2 s3 -> keeps_files s1 s3.
Proof. intros H12 H23 p H. apply H23, H12, H. Qed.

Lemma save_mask_keeps mask path st : keeps_files st (fst (save_mask mask path st)).
Proof.
  intros p Hp. unfold save_mask. simpl.
  destruct (decide (path = p)) as [->|Hne].
  - rewrite lookup_insert_eq. eauto.
  - rewrite lookup_insert_ne by exact Hne. exact Hp.
Qed.

Lemma for_range_keeps {A} (body : A -> P unit) items :
  (forall a s s' r, body a s = (s', r) -> keeps_files s s') ->
  forall st st' r, for_range body items st = (st', r) -> keeps_files st st'.
Proof.
  intros Hbody. induction items as [|a items IH]; intros st st' r Hrun.
  - injection Hrun as <- <-. apply keeps_files_refl.
  - cbn [for_range] in Hrun. unfold mbind, P_bind in Hrun.
    destruct (body a st) as [s1 [[]|e]] eqn:Ha.
    + eapply keeps_files_trans; [eapply Hbody; exact Ha|eapply IH; exact Hrun].
    + injection Hrun as <- <-. eapply Hbody; exact Ha.
Qed.

(** After a loop that completes, what each pass established and later
    passes cannot undo holds of every item. *)
Lemma for_range_ok_each {A} (body : A -> P unit) items
    (Q : A -> PredictState -> Prop) :
  (forall a s s' r, body a s = (s', r) -> keeps_files s s') ->
  (forall a s s', body a s = (s', Ok tt) -> Q a s') ->
  (forall a s s', Q a s -> keeps_files s s' -> Q a s') ->
  forall st st', for_range body items st = (st', Ok tt) ->
  forall a, In a items -> Q a st'.
Proof.
  intros Hkeeps Hbody Hstable.
  induction items as [|b items IH]; intros st st' Hrun a Hin; [destruct Hin|].
  cbn [for_range] in Hrun. unfold mbind, P_bind in Hrun.
  destruct (body b st) as [s1 [[]|e]] eqn:Hb; [|discriminate].
  destruct Hin as [->|Hin].
  - eapply Hstable; [eapply Hbody; exact Hb|].
    eapply for_range_keeps; [exact Hkeeps|exact Hrun].
  - eapply IH; [exact Hrun|exact Hin].
Qed.

Lemma save_batch_keeps out preds batch :
  forall idx st st' r,
    save_batch ext out preds idx batch st = (st', r) -> keeps_files st st'.
Proof.
  induction batch as [|path rest IH]; intros idx st st' r Hrun.
  - injection Hrun as <- <-. apply keeps_files_refl.
  - cbn [save_batch] in Hrun. unfold mbind, P_bind, plift in Hrun.
    destruct (index preds idx) as [mask|e].
    + eapply keeps_files_trans; [apply (save_mask_keeps mask)|].
      eapply IH. exact Hrun.
    + injection Hrun as <- <-. apply keeps_files_refl.
Qed.

Lemma save_batch_ok_files out preds batch :
  forall idx st st',
    save_batch ext out preds idx batch st = (st', Ok tt) ->
    forall path, In path batch -> is_Some (pfiles st' !! mask_png ext out path).
Proof.
  induction batch as [|path0 rest IH]; intros idx st st' Hrun path Hin;
    [destruct Hin|].
  cbn [save_batch] in Hrun. unfold mbind, P_bind, plift in Hrun.
  destruct (index preds idx) as [mask|e]; [|discriminate].
  destruct Hin as [<-|Hin].
  - eapply save_batch_keeps; [exact Hrun|].
    unfold save_mask. simpl. rewrite lookup_insert_eq. eauto.
  - eapply IH; [exact Hrun|exact Hin].
Qed.

Lemma keras_batch_keeps f paths out c i st st' r :
  keras_batch ext f paths out c i st = (st', r) -> keeps_files st st'.
Proof.
  unfold keras_batch, mbind, P_bind, plift.
  destruct (open_images ext _) as [images|e];
    [|intros [= <- <-]; apply keeps_files_refl].
  destruct (reshape_images images) as [images'|e];
    [|intros [= <- <-]; apply keeps_files_refl].
  destruct (f images') as [scores|e]; [|intros [= <- <-]; apply keeps_files_refl].
  destruct (argmax_last_axis scores) as [indices|e];
    [|intros [= <- <-]; apply keeps_files_refl].
  apply save_batch_keeps.
Qed.

Lemma keras_batch_ok_files f paths out c i st st' :
  keras_batch ext f paths out c i st = (st', Ok tt) ->
  forall path, In path (take BATCH_SIZE (drop (BATCH_SIZE * i) paths)) ->
               is_Some (pfiles st' !! mask_png ext out path).
Proof.
  unfold keras_batch, mbind, P_bind, plift.
  destruct (open_images ext _) as [images|e]; [|discriminate].
  destruct (reshape_images images) as [images'|e]; [|discriminate].
  destruct (f images') as [scores|e]; [|discriminate].
  destruct (argmax_last_axis scores) as [indices|e]; [|discriminate].
  apply save_batch_ok_files.
Qed.

Lemma save_batch_bounds out preds batch :
  forall idx st,
    ((idx + length batch <= length preds)%nat ->
     exists st', save_batch ext out preds idx batch st = (st', Ok tt)) /\
    ((length preds < idx + length batch)%nat -> batch <> [] ->
     exists st' e, save_batch ext out preds idx batch st = (st', Raise e) /\
                   exc_class e = "IndexError").
Proof.
  induction batch as [|path rest IH]; intros idx st.
  - split; [intros _; eexists; reflexivity|]. intros _ Hne. destruct Hne. reflexivity.
  - cbn [save_batch length]. unfold mbind, P_bind, plift, index.
    destruct (preds !! idx) as [mask|] eqn:Hl.
    + apply lookup_lt_Some in Hl.
      destruct (IH (S idx) (fst (save_mask mask (mask_png ext out path) st)))
        as [Hok Hbad].
      unfold save_mask in *. simpl in *. split.
      * intros Hlen. apply Hok. lia.
      * intros Hlen _. destruct rest as [|path' rest']; [simpl in *; lia|].
        apply Hbad; [simpl in *; lia|discriminate].
    + apply lookup_ge_None in Hl. split; [lia|].
      intros _ _. eexists _, _. split; reflexivity.
Qed.

Lemma length_mapM {A B} (g : A -> Result B) l l' :
  mapM g l = Ok l' -> length l' = length l.
Proof.
  revert l'. induction l as [|a l IH]; intros l'; cbn [mapM].
  - intros [= <-]. reflexivity.
  - unfold mbind, Result_bind. destruct (g a) as [b|e]; [|discriminate].
    destruct (mapM g l) as [bs|e]; [|discriminate].
    intros [= <-]. simpl. f_equal. apply IH. reflexivity.
Qed.

Lemma fastsam_step_keeps paths out c ir st st' r :
  fastsam_step ext paths out c ir st = (st', r) -> keeps_files st st'.
Proof.
  destruct ir as [i drawn]. unfold fastsam_step, mbind, P_bind, plift.
  destruct drawn as [res|e]; [|intros [= <- <-]; apply keeps_files_refl].
  destruct (max_dim0 res) as [v|e]; [|intros [= <- <-]; apply keeps_files_refl].
  destruct (index paths i) as [path|e];
    [|intros [= <- <-]; apply keeps_files_refl].
  intros Hsave.
  pose proof (save_mask_keeps (map (where_value_gt c) v) (mask_png ext out path) st)
    as Hk.
  rewrite Hsave in Hk. exact Hk.
Qed.

Lemma fastsam_step_ok paths out c i drawn st st' :
  fastsam_step ext paths out c (i, drawn) st = (st', Ok tt) ->
  exists r m ms path,
    drawn = Ok r /\ masks r = Some (m :: ms) /\ paths !! i = Some path /\
    is_Some (pfiles st' !! mask_png ext out path).
Proof.
  unfold fastsam_step, mbind, P_bind, plift.
  destruct drawn as [res|e]; [|discriminate].
  unfold max_dim0, index.
  destruct (masks res) as [[|m ms]|] eqn:Hm; try discriminate.
  destruct (paths !! i) as [path|] eqn:Hp; [|discriminate].
  unfold save_mask. intros [= <-]. simpl.
  exists res, m, ms, path. rewrite lookup_insert_eq. eauto.
Qed.

End Completed.

(** X11. When the batched loop completes, every image path has its mask in
    the output directory. *)
Theorem dense_success_all_masks ext f paths out c st st' :
  predict_dispatch ext (KerasModel f) paths out c st = (st', Ok tt) ->
  forall path, In path paths ->
               is_Some (pfiles st' !! mask_png ext out path).
Proof.
  cbn [predict_dispatch]. intros Hrun path Hin.
  rewrite <- (batches_concat paths) in Hin.
  apply in_concat in Hin as (b & Hb & Hpath).
  unfold batches in Hb. apply in_map_iff in Hb as (i & <- & Hi).
  pose proof (for_range_ok_each (keras_batch ext f paths out c)
                (seq 0 ((length paths + BATCH_SIZE - 1) / BATCH_SIZE))
                (fun i s =>
                   forall path,
                     In path (take BATCH_SIZE (drop (BATCH_SIZE * i) paths)) ->
                     is_Some (pfiles s !! mask_png ext out path))) as Heach.
  eapply Heach; [| | |exact Hrun|exact Hi|exact Hpath].
  - intros a s s' r. apply keras_batch_keeps.
  - intros a s s'. apply keras_batch_ok_files.
  - intros a s s' HQ Hk p Hp. apply Hk, HQ, Hp.
Qed.

Lemma dense_success_all_masks_witness :
  is_Some (pfiles (fst (predict_dispatch (DemoPredict.ext DemoPredict.dense)
                          DemoPredict.dense ["in/a.png"; "in/b.png"] "out"
                          (lit 5 10) DemoPredict.begin))
           !! mask_png (DemoPredict.ext DemoPredict.dense) "out" "in/b.png").
Proof.
  apply (dense_success_all_masks (DemoPredict.ext DemoPredict.dense)
           (fun _ => Ok DemoPredict.scores) ["in/a.png"; "in/b.png"] "out"
           (lit 5 10) DemoPredict.begin).
  - vm_compute. reflexivity.
  - right. left. reflexivity.
Defined.

(** X12. A pass of the batched loop needs a prediction for every image of
    its batch: with at least as many predictions as images it completes
    (predictions beyond the batch are ignored), with fewer it raises
    [IndexError] at [preds[idx]]. *)
Theorem dense_batch_needs_predictions ext f paths out c i st images images' scores :
  open_images ext (take BATCH_SIZE (drop (BATCH_SIZE * i) paths)) = Ok images ->
  reshape_images images = Ok images' ->
  f images' = Ok scores ->
  is_ok (argmax_last_axis scores) = true ->
  ((length (take BATCH_SIZE (drop (BATCH_SIZE * i) paths)) <= length scores)%nat ->
   snd (keras_batch ext f paths out c i st) = Ok tt) /\
  ((length scores < length (take BATCH_SIZE (drop (BATCH_SIZE * i) paths)))%nat ->
   exists e, snd (keras_batch ext f paths out c i st) = Raise e /\
             exc_class e = "IndexError").
Proof.
  intros Hopen Hshape Hf Harg.
  unfold keras_batch, mbind, P_bind, plift. rewrite Hopen, Hshape, Hf.
  destruct (argmax_last_axis scores) as [indices|e] eqn:Hidx; [|discriminate].
  apply length_mapM in Hidx.
  set (batch := take BATCH_SIZE (drop (BATCH_SIZE * i) paths)).
  destruct (save_batch_bounds ext out
              (map (map (where_index_gt c)) indices) batch 0 st) as [Hok Hbad].
  rewrite length_map, Hidx in Hok, Hbad. split.
  - intros Hlen. destruct (Hok Hlen) as [st' ->]. reflexivity.
  - intros Hlen. destruct Hbad as (st' & e & -> & He); [exact Hlen| |eauto].
    intros Hnil. rewrite Hnil in Hlen. simpl in Hlen. lia.
Qed.

Lemma dense_batch_needs_predictions_witness :
  exists e,
    snd (keras_batch (DemoPredict.ext DemoPredict.dense)
           (fun _ => Ok [ [ [lit 1 10; lit 9 10] ] ])
           ["in/a.png"; "in/b.png"] "out" (lit 5 10) 0 DemoPredict.begin)
    = Raise e /\ exc_class e = "IndexError".
Proof.
  destruct (dense_batch_needs_predictions (DemoPredict.ext DemoPredict.dense)
              (fun _ => Ok [ [ [lit 1 10; lit 9 10] ] ])
              ["in/a.png"; "in/b.png"] "out" (lit 5 10) 0 DemoPredict.begin
              [] [] [ [ [lit 1 10; lit 9 10] ] ]) as [_ Hfew].
  - reflexivity.
  - reflexivity.
  - reflexivity.
  - vm_compute. reflexivity.
  - apply Hfew. vm_compute. lia.
Defined.

(** X13. When the streamed loop completes, the model gave at most as many
    results as there are image paths, every result was drawn without an
    exception and holds at least one instance mask (a result without
    detections, whose [masks] is [None], makes the loop raise), and the
    image path at the position of each result has its mask in the output
    directory. *)
Theorem stream_success ext call paths out c st st' :
  predict_dispatch ext (FastSAMModel call) paths out c st = (st', Ok tt) ->
  (length (call paths) <= length paths)%nat /\
  forall i drawn,
    call paths !! i = Some drawn ->
    exists r m ms path,
      drawn = Ok r /\ masks r = Some (m :: ms) /\ paths !! i = Some path /\
      is_Some (pfiles st' !! mask_png ext out path).
Proof.
  cbn [predict_dispatch]. intros Hrun.
  assert (forall i drawn,
            call paths !! i = Some drawn ->
            exists r m ms path,
              drawn = Ok r /\ masks r = Some (m :: ms) /\ paths !! i = Some path /\
              is_Some (pfiles st' !! mask_png ext out path)) as Heach.
  { intros i drawn Hi.
    pose proof (for_range_ok_each (fastsam_step ext paths out c)
                  (imap (fun i r => (i, r)) (call paths))
                  (fun ir s =>
                     exists r m ms path,
                       snd ir = Ok r /\ masks r = Some (m :: ms) /\
                       paths !! fst ir = Some path /\
                       is_Some (pfiles s !! mask_png ext out path))) as Hall.
    apply (Hall) with (a := (i, drawn)) (st := st) (st' := st').
    - intros a s s' r. apply fastsam_step_keeps.
    - intros [j d] s s' Hstep. apply fastsam_step_ok in Hstep. exact Hstep.
    - intros a s s' (r & m & ms & path & H1 & H2 & H3 & H4) Hk.
      exists r, m, ms, path. auto.
    - exact Hrun.
    - apply list_elem_of_In. apply list_elem_of_lookup. exists i.
      rewrite list_lookup_imap, Hi. reflexivity. }
  split; [|exact Heach].
  destruct (le_lt_dec (length (call paths)) (length paths)) as [Hle|Hlt];
    [exact Hle|].
  destruct (lookup_lt_is_Some_2 (call paths) (length paths) Hlt) as [d Hd].
  destruct (Heach _ _ Hd) as (_ & _ & _ & path & _ & _ & Hp & _).
  apply lookup_lt_Some in Hp. lia.
Qed.

Lemma stream_success_witness :
  (length DemoPredict.stream <= 2)%nat /\
  exists r m ms path,
    Ok (mkSamResult (Some [[DemoPredict.zero; DemoPredict.one]])) = Ok r /\
    masks r = Some (m :: ms) /\
    ["in/a.png"; "in/b.png"] !! 1%nat = Some path /\
    is_Some (pfiles (fst (predict_dispatch (DemoPredict.ext DemoPredict.promptable)
                            DemoPredict.promptable ["in/a.png"; "in/b.png"] "out"
                            (lit 5 10) DemoPredict.begin))
             !! mask_png (DemoPredict.ext DemoPredict.promptable) "out" path).
Proof.
  destruct (stream_success (DemoPredict.ext DemoPredict.promptable)
              (fun _ => DemoPredict.stream) ["in/a.png"; "in/b.png"] "out"
              (lit 5 10) DemoPredict.begin
              (fst (predict_dispatch (DemoPredict.ext DemoPredict.promptable)
                      DemoPredict.promptable ["in/a.png"; "in/b.png"] "out"
                      (lit 5 10) DemoPredict.begin))) as [Hlen Heach].
  - vm_compute. reflexivity.
  - split; [exact Hlen|]. apply (Heach 1%nat). reflexivity.
Defined.

(** ** The class the dense path marks *)

Section Background.

Lemma argmax_scan_cases row :
  forall best best_i i,
    (argmax_scan best best_i i row = best_i /\
     Forall (fun x => fle x best = true) row) \/
    ((i <= argmax_scan best best_i i row < i + length row)%nat /\
     Exists (fun x => fle x best = false) row).
Proof.
  induction row as [|x row IH]; intros best best_i i.
  - left. split; [reflexivity|constructor].
  - cbn [argmax_scan length]. destruct (fle x best) eqn:Hx.
    + destruct (IH best best_i (S i)) as [[Hk Hall]|[Hk Hex]].
      * left. split; [exact Hk|]. constructor; assumption.
      * right. split; [lia|]. apply Exists_cons_tl. exact Hex.
    + right. split; [|apply Exists_cons_hd; exact Hx].
      destruct (is_nan x); [lia|].
      destruct (IH x i (S i)) as [[-> _]|[Hk _]]; lia.
Qed.

Lemma argmax_zero x0 rest k :
  argmax (x0 :: rest) = Ok k ->
  (k < length (x0 :: rest))%nat /\
  (k = 0%nat <-> is_nan x0 = true \/ Forall (fun x => fle x x0 = true) rest).
Proof.
  cbn [argmax length]. intros [= <-].
  destruct (is_nan x0) eqn:Hnan.
  - split; [lia|]. split; auto.
  - destruct (argmax_scan_cases rest x0 0%nat 1%nat) as [[-> Hall]|[Hk Hex]].
    + split; [lia|]. split; auto.
    + split; [lia|]. split; [lia|].
      intros [Hn|Hall]; [discriminate|].
      exfalso. apply Exists_exists in Hex as (x & Hin & Hx).
      rewrite Forall_forall in Hall. rewrite (Hall x Hin) in Hx. discriminate.
Qed.

End Background.

(** X14. For a confidence in [[0, 1)] the batched path writes 0 at a pixel
    exactly when class 0 wins the arg-max there: when its score is a NaN or
    no other class scores above it.  A pixel is written 1 as soon as one
    other class is not at most the score of class 0. *)
Theorem dense_pixel_is_background c x0 rest k :
  fle (PyFloat.of_Z 0) c = true ->
  flt c (PyFloat.of_Z 1) = true ->
  argmax (x0 :: rest) = Ok k ->
  (k < length (x0 :: rest))%nat /\
  (where_index_gt c k = 0 <->
   is_nan x0 = true \/ Forall (fun x => fle x x0 = true) rest) /\
  (where_index_gt c k = 0 \/ where_index_gt c k = 1).
Proof.
  intros H0 H1 Hk. apply argmax_zero in Hk as [Hlt Hzero].
  split; [exact Hlt|]. rewrite (where_index_gt_unit c k H0 H1).
  destruct k as [|k]; cbn [Nat.leb].
  - split; [|auto]. split; [intros _; apply Hzero; reflexivity|reflexivity].
  - split; [|auto]. split; [discriminate|].
    intros H. apply Hzero in H. discriminate.
Qed.

Lemma dense_pixel_is_background_witness :
  where_index_gt (lit 5 10) 0 = 0 <->
  is_nan (lit 8 10) = true \/ Forall (fun x => fle x (lit 8 10) = true) [lit 2 10].
Proof.
  destruct (dense_pixel_is_background (lit 5 10) (lit 8 10) [lit 2 10] 0%nat)
    as (_ & Hiff & _).
  - vm_compute. reflexivity.
  - vm_compute. reflexivity.
  - vm_compute. reflexivity.
  - exact Hiff.
Defined.

(** ** The triples of the loop *)

(** X15. Transposing the pairs into [chip_paths] and [label_paths] and
    zipping them again with the mask paths loses nothing: the loop gets one
    triple per pair, in the order of the resolver, each label with its own
    chip and with the mask path made from that chip. *)
Theorem triples_keep_pairing ext out pairs chip_paths label_paths :
  unzip_pairs pairs = Ok (chip_paths, label_paths) ->
  let mask_paths :=
    map (fun chip_path => construct_mask_filepath ext out chip_path) chip_paths in
  length (zip3 label_paths chip_paths mask_paths) = length pairs /\
  forall i chip_path json_path,
    pairs !! i = Some (chip_path, json_path) <->
    zip3 label_paths chip_paths mask_paths !! i
    = Some (json_path, chip_path, construct_mask_filepath ext out chip_path).
Proof.
  unfold unzip_pairs. destruct pairs as [|pr pairs]; [discriminate|].
  intros [= <- <-]. cbv zeta.
  change (pr.2 :: map snd pairs) with (map snd (pr :: pairs)).
  change (pr.1 :: map fst pairs) with (map fst (pr :: pairs)).
  rewrite zip3_triples_of.
  unfold triples_of. split; [apply length_map|].
  intros i chip_path json_path.
  change (map ?g (pr :: pairs)) with (g <$> (pr :: pairs)).
  rewrite list_lookup_fmap.
  destruct ((pr :: pairs) !! i) as [[c l]|]; cbn; [|split; discriminate].
  split; [intros [= <- <-]; reflexivity|intros [= <- <-]; reflexivity].
Qed.

Lemma triples_keep_pairing_witness :
  zip3 ["a.geojson"; "b.geojson"] ["a.tif"; "b.tif"]
    (map (fun chip_path =>
            construct_mask_filepath (Demo.ext Demo.two_pairs "" false Demo.res01)
              "masks" chip_path) ["a.tif"; "b.tif"]) !! 1%nat
  = Some ("b.geojson", "b.tif", "masks/b.tif.mask.tif").
Proof.
  destruct (triples_keep_pairing (Demo.ext Demo.two_pairs "" false Demo.res01)
              "masks" Demo.two_pairs ["a.tif"; "b.tif"]
              ["a.geojson"; "b.geojson"]) as [_ Hlookup].
  - reflexivity.
  - apply (Hlookup 1%nat "b.tif" "b.geojson"). reflexivity.
Defined.
